(** * UVM assembler: a shallow embedding of [assembler.py]

    The development follows the class [UVMAssembler]: the Python built-ins
    the class relies on ([str.strip], [str.split], [str.upper], [int], ...)
    come first, then the exception and instance model, then the four
    methods [parse_line], [parse_source], [assemble] and [_parse_number],
    and finally the properties of the translation pipeline.

    Text is modelled as a list of 8-bit characters, text beyond ASCII by
    its UTF-8 encoding.  The built-ins below are Python's on ASCII text
    ([Py.isascii]: code points below 128), which is closed under every
    operation of the class.  On characters from 128 on they are not
    Python's, which knows further spaces, digits and cased letters there:
    here such a character is no space, no digit and has no case.  A
    statement that would not hold of Python's built-ins on other text
    carries the hypothesis that the text it reads is ASCII.  The literal
    messages of the source are kept in their UTF-8 encoding. *)

From Stdlib Require Import String Ascii List ZArith Lia Bool.
Import ListNotations.

Open Scope string_scope.
Open Scope Z_scope.
Open Scope list_scope.

(** ** Text *)

Definition str := list ascii.

Coercion list_ascii_of_string : string >-> list.

Module Py.

(** Code point of a character, as Python's [ord]. *)
Definition ord (c : ascii) : Z := Z.of_N (N_of_ascii c).

Definition chr_eqb (a b : ascii) : bool := Ascii.eqb a b.

(** [a == b] on [str]. *)
Fixpoint str_eqb (a b : str) : bool :=
  match a, b with
  | [], [] => true
  | x :: a', y :: b' => chr_eqb x y && str_eqb a' b'
  | _, _ => false
  end.

(** [s.isascii()]: every code point is below 128. *)
Definition isascii (s : str) : bool := forallb (fun c => ord c <? 128) s.

(** [str.isspace] on one character of ASCII text: the whitespace of
    [str.strip()] and [str.split()], which is TAB..CR, FS..US and the
    space there.  (Python has further whitespace beyond ASCII, such as
    U+00A0.) *)
Definition isspace (c : ascii) : bool :=
  let n := ord c in
  ((9 <=? n) && (n <=? 13)) || ((28 <=? n) && (n <=? 32)).

(** The C-level [Py_ISSPACE] used by the integer parser: TAB..CR and the
    space only. *)
Definition Py_ISSPACE (c : ascii) : bool :=
  let n := ord c in
  ((9 <=? n) && (n <=? 13)) || (n =? 32).

Fixpoint drop_while (p : ascii -> bool) (s : str) : str :=
  match s with
  | [] => []
  | c :: t => if p c then drop_while p t else s
  end.

(** [s.lstrip()] *)
Definition lstrip (s : str) : str := drop_while isspace s.

(** [s.rstrip()]: a character is kept when it is no space or when
    something is kept after it. *)
Fixpoint rstrip (s : str) : str :=
  match s with
  | [] => []
  | c :: t =>
      match rstrip t with
      | [] => if isspace c then [] else [c]
      | t' => c :: t'
      end
  end.

(** [s.strip()] *)
Definition strip (s : str) : str := rstrip (lstrip s).

(** [s.startswith(prefix)] *)
Fixpoint startswith (s prefix : str) {struct prefix} : bool :=
  match prefix, s with
  | [], _ => true
  | p :: prefix', c :: s' => chr_eqb c p && startswith s' prefix'
  | _ :: _, [] => false
  end.

(** [c in s] for a one-character [c]. *)
Definition contains (c : ascii) (s : str) : bool := existsb (chr_eqb c) s.

(** [s.split(sep)] for a one-character separator: every occurrence
    splits, empty pieces are kept, the result is never empty. *)
Fixpoint split (sep : ascii) (s : str) : list str :=
  match s with
  | [] => [[]]
  | c :: t =>
      if chr_eqb c sep then [] :: split sep t
      else match split sep t with
           | piece :: rest => (c :: piece) :: rest
           | [] => [[c]]
           end
  end.

(** [s.split()]: maximal runs of non-space characters. *)
Fixpoint split_ws (s : str) : list str :=
  match s with
  | [] => []
  | c :: t =>
      if isspace c then split_ws t
      else match t with
           | [] => [[c]]
           | c' :: _ =>
               if isspace c' then [c] :: split_ws t
               else match split_ws t with
                    | word :: rest => (c :: word) :: rest
                    | [] => [[c]]
                    end
           end
  end.

(** [sep.join(parts)] *)
Fixpoint join (sep : str) (parts : list str) : str :=
  match parts with
  | [] => []
  | [p] => p
  | p :: rest => p ++ sep ++ join sep rest
  end.

Definition upper_chr (c : ascii) : ascii :=
  let n := ord c in
  if (97 <=? n) && (n <=? 122) then ascii_of_N (Z.to_N (n - 32)) else c.

Definition lower_chr (c : ascii) : ascii :=
  let n := ord c in
  if (65 <=? n) && (n <=? 90) then ascii_of_N (Z.to_N (n + 32)) else c.

(** [s.upper()] and [s.lower()] on ASCII text.  (Python also maps letters
    beyond ASCII, not always one to one: U+0130 is lowered to [i] and
    U+0307.) *)
Definition upper (s : str) : str := map upper_chr s.
Definition lower (s : str) : str := map lower_chr s.

(** [lst[1:]] and [s[2:]] *)
Definition slice_from {A} (n : nat) (l : list A) : list A := skipn n l.

(** [enumerate(l, start)] *)
Fixpoint enumerate {A} (start : nat) (l : list A) : list (nat * A) :=
  match l with
  | [] => []
  | x :: t => (start, x) :: enumerate (S start) t
  end.

(** Dictionaries with [str] keys, in insertion order. *)
Definition dict (V : Type) := list (str * V).

Fixpoint dict_get {V} (d : dict V) (k : str) : option V :=
  match d with
  | [] => None
  | (k', v) :: d' => if str_eqb k k' then Some v else dict_get d' k
  end.

(** [k in d] *)
Definition dict_in {V} (k : str) (d : dict V) : bool :=
  match dict_get d k with Some _ => true | None => false end.

Definition keys {V} (d : dict V) : list str := map fst d.

(** *** The integer parser behind [int(s)] and [int(s, 16)]

    CPython's table [_PyLong_DigitValue]: the value of a digit or
    letter, 37 for everything else. *)
Definition PyLong_DigitValue (c : ascii) : Z :=
  let n := ord c in
  if (48 <=? n) && (n <=? 57) then n - 48
  else if (97 <=? n) && (n <=? 122) then n - 87
  else if (65 <=? n) && (n <=? 90) then n - 55
  else 37.

(** Default of [sys.get_int_max_str_digits()] (CPython 3.11). *)
Definition int_max_str_digits : nat := 4300.

Inductive int_error : Type :=
| InvalidLiteral
| ExceedsLimit (digits : nat).

(** The digit scan: digits below [base] and single underscores between
    them.  [None] is a misplaced underscore; otherwise the value read,
    the number of digits and the unread rest. *)
Fixpoint scan_digits (base : Z) (prev_underscore : bool) (acc : Z)
         (digits : nat) (s : str) : option (Z * nat * str) :=
  match s with
  | [] => if prev_underscore then None else Some (acc, digits, [])
  | c :: t =>
      if chr_eqb c "_"%char then
        if prev_underscore then None
        else scan_digits base true acc digits t
      else if PyLong_DigitValue c <? base then
        scan_digits base false (acc * base + PyLong_DigitValue c)
                    (S digits) t
      else if prev_underscore then None
      else Some (acc, digits, s)
  end.

(** [PyLong_FromString] for base 10 and base 16: leading spaces, one
    optional sign, for base 16 an optional [0x]/[0X] and one underscore
    after it, the digit scan, the digit limit of the bases that are no
    power of two, trailing spaces, end of text.  This is [int] on ASCII
    text.  (On other text [int] first replaces every Unicode decimal digit
    and space by its ASCII counterpart.) *)
Definition int_of_str (s : str) (base : Z) : int_error + Z :=
  let s := drop_while Py_ISSPACE s in
  let sign := if startswith s "-" then -1 else 1 in
  let s := if startswith s "+" || startswith s "-" then skipn 1 s else s in
  let s :=
    if (base =? 16) && (startswith s "0x" || startswith s "0X") then
      let s := skipn 2 s in
      if startswith s "_" then skipn 1 s else s
    else s in
  if startswith s "_" then inl InvalidLiteral
  else
    match scan_digits base false 0 0 s with
    | None => inl InvalidLiteral
    | Some (value, digits, rest) =>
        if negb (base =? 16) && (int_max_str_digits <? digits)%nat
        then inl (ExceedsLimit digits)
        else if (digits =? 0)%nat then inl InvalidLiteral
        else match drop_while Py_ISSPACE rest with
             | [] => inr (sign * value)
             | _ :: _ => inl InvalidLiteral
             end
    end.

End Py.


(** ** Exceptions

    The exceptions the class can raise.  [assemble] raises [ValueError]
    with three kinds of message, which the constructors keep apart:
    - [UnknownMnemonic m] is [ValueError(f"Неизвестная мнемоника: {m}")];
    - [ArityMismatch msg] is [ValueError(msg)], [msg] one of the three
      literal messages of the source;
    - [InvalidNumber base text] is the [ValueError] of [int] on the
      argument [text]: "invalid literal for int() with base {base}: "
      followed by [repr(text)], of which the message keeps the first 200
      characters;
    - [DigitLimit digits] is the other [ValueError] of [int]: "Exceeds the
      limit (4300 digits) for integer string conversion: value has
      {digits} digits".
    [SyntaxError line_num line] is raised by [parse_source] with the
    message f"Синтаксическая ошибка в строке {line_num}: {line}".  The
    last three are the interpreter's own. *)
Inductive exn : Type :=
| SyntaxError (line_num : nat) (line : str)
| UnknownMnemonic (mnemonic : str)
| ArityMismatch (message : str)
| InvalidNumber (base : Z) (text : str)
| DigitLimit (digits : nat)
| IndexError
| KeyError (key : str)
| UnboundLocalError (name : str).

Inductive outcome (A : Type) : Type :=
| Return (a : A)
| Raise (e : exn).

Arguments Return {A} a.
Arguments Raise {A} e.

(** ** The instance and the method monad *)

(** An instance of the class: its one attribute. *)
Record UVMAssembler : Type := { mnemonics : Py.dict Z }.

(** A method body runs on an instance [self]; it returns or raises, and
    leaves the instance in some state. *)
Definition M (A : Type) : Type := UVMAssembler -> outcome A * UVMAssembler.

Definition ret {A} (a : A) : M A := fun self => (Return a, self).

Definition raise {A} (e : exn) : M A := fun self => (Raise e, self).

Definition bind {A B} (m : M A) (k : A -> M B) : M B :=
  fun self =>
    match m self with
    | (Return a, self') => k a self'
    | (Raise e, self') => (Raise e, self')
    end.

Notation "x <- m ;; k" := (bind m (fun x => k))
  (at level 61, m at next level, right associativity).
Notation "' pat <- m ;; k" := (bind m (fun x => match x with pat => k end))
  (at level 61, pat pattern, m at next level, right associativity).

(** [try: m  except Exception as e: handler(e)] *)
Definition try_except {A} (m : M A) (handler : exn -> M A) : M A :=
  fun self =>
    match m self with
    | (Return a, self') => (Return a, self')
    | (Raise e, self') => handler e self'
    end.

(** [for x in l: acc = body(acc, x)], left when the body raises. *)
Fixpoint for_each {A S} (l : list A) (acc : S) (body : S -> A -> M S) : M S :=
  match l with
  | [] => ret acc
  | x :: t => acc' <- body acc x ;; for_each t acc' body
  end.

(** [self.mnemonics] *)
Definition self_mnemonics : M (Py.dict Z) :=
  fun self => (Return (mnemonics self), self).

(** [l[i]] *)
Definition getitem {A} (l : list A) (i : nat) : M A :=
  match nth_error l i with
  | Some x => ret x
  | None => raise IndexError
  end.

(** [d[k]] *)
Definition subscript {V} (d : Py.dict V) (k : str) : M V :=
  match Py.dict_get d k with
  | Some v => ret v
  | None => raise (KeyError k)
  end.

(** [int(s)] and [int(s, 16)] *)
Definition int (s : str) (base : Z) : M Z :=
  match Py.int_of_str s base with
  | inr z => ret z
  | inl Py.InvalidLiteral => raise (InvalidNumber base s)
  | inl (Py.ExceedsLimit digits) => raise (DigitLimit digits)
  end.

(** What a call returns or raises, and the instance it leaves. *)
Definition run {A} (m : M A) (self : UVMAssembler) : outcome A := fst (m self).
Definition instance_after {A} (m : M A) (self : UVMAssembler)
  : UVMAssembler := snd (m self).

(** ** The class *)

(** A parsed instruction and an IR record. *)
Definition instruction : Type := str * list str.
Definition command : Type := Py.dict Z.

Definition newline : ascii := ascii_of_nat 10.

Definition __init__ : UVMAssembler :=
  {| mnemonics := [("LOAD_CONST" : str, 20);
                   ("STORE" : str, 12);
                   ("BINARY_OP" : str, 19)] |}.

Definition parse_line (line : str) : M (option instruction) :=
  let line := Py.strip line in
  if Py.str_eqb line "" || Py.startswith line ";" then ret None
  else
    line <- (if Py.contains ";" line
             then first <- getitem (Py.split ";" line) 0 ;;
                  ret (Py.strip first)
             else ret line) ;;
    let parts := Py.split_ws line in
    first <- getitem parts 0 ;;
    let mnemonic := Py.upper first in
    let args :=
      if (1 <? length parts)%nat then
        let args_str := Py.join " " (Py.slice_from 1 parts) in
        map Py.strip (Py.split "," args_str)
      else [] in
    ret (Some (mnemonic, args)).

Definition parse_source (source_code : str) : M (list instruction) :=
  let lines := Py.split newline source_code in
  for_each (Py.enumerate 1 lines) []
    (fun commands '(line_num, line) =>
       try_except
         (parsed <- parse_line line ;;
          match parsed with
          | Some p => ret (commands ++ [p])
          | None => ret commands
          end)
         (fun e => raise (SyntaxError line_num line))).

Definition _parse_number (num_str : str) : M Z :=
  let num_str := Py.strip num_str in
  if Py.startswith num_str "0x" then int (Py.slice_from 2 num_str) 16
  else int num_str 10.

(** [self._parse_number(args[i])] *)
Definition number_at (args : list str) (i : nat) : M Z :=
  arg <- getitem args i ;; _parse_number arg.

(** [self.mnemonics[mnemonic]] *)
Definition opcode_of (mnemonic : str) : M Z :=
  table <- self_mnemonics ;; subscript table mnemonic.

(** The three messages of lines 67, 76 and 86. *)
Definition LOAD_CONST_message : str :=
  "LOAD_CONST требует 2 аргумента: адрес, константа".
Definition STORE_message : str :=
  "STORE требует 2 аргумента: адрес_источник, адрес_назначение".
Definition BINARY_OP_message : str :=
  "BINARY_OP требует 4 аргумента: адрес_результата, адрес_операнда2, смещение, базовый_адрес".

(** The body of the loop of [assemble] (lines 62 to 95).  The loop keeps
    the list under construction and the local variable [command], which
    is unbound before the first assignment. *)
Definition assemble_body (st : list command * option command)
           (ins : instruction) : M (list command * option command) :=
  let '(intermediate_representation, command) := st in
  let '(mnemonic, args) := ins in
  table <- self_mnemonics ;;
  if negb (Py.dict_in mnemonic table) then raise (UnknownMnemonic mnemonic)
  else
    command <-
      (if Py.str_eqb mnemonic "LOAD_CONST" then
         if negb (length args =? 2)%nat then
           raise (ArityMismatch LOAD_CONST_message)
         else
           a <- opcode_of mnemonic ;;
           b <- number_at args 0 ;;
           c <- number_at args 1 ;;
           ret (Some [("A" : str, a); ("B" : str, b); ("C" : str, c)])
       else if Py.str_eqb mnemonic "STORE" then
         if negb (length args =? 2)%nat then
           raise (ArityMismatch STORE_message)
         else
           a <- opcode_of mnemonic ;;
           b <- number_at args 0 ;;
           c <- number_at args 1 ;;
           ret (Some [("A" : str, a); ("B" : str, b); ("C" : str, c)])
       else if Py.str_eqb mnemonic "BINARY_OP" then
         if negb (length args =? 4)%nat then
           raise (ArityMismatch BINARY_OP_message)
         else
           a <- opcode_of mnemonic ;;
           b <- number_at args 0 ;;
           c <- number_at args 1 ;;
           d <- number_at args 2 ;;
           e <- number_at args 3 ;;
           ret (Some [("A" : str, a); ("B" : str, b); ("C" : str, c);
                      ("D" : str, d); ("E" : str, e)])
       else ret command) ;;
    match command with
    | Some record => ret (intermediate_representation ++ [record], command)
    | None => raise (UnboundLocalError "command")
    end.

Definition assemble (source_code : str) : M (list command) :=
  parsed_commands <- parse_source source_code ;;
  st <- for_each parsed_commands ([], None) assemble_body ;;
  ret (fst st).


(** ** Statement vocabulary *)

(** A method body that neither reads nor writes the instance. *)
Definition pure {A} (m : M A) : Prop :=
  forall self, m self = (run m __init__, self).

(** A method body that leaves the instance as it found it. *)
Definition readonly {A} (m : M A) : Prop :=
  forall self, instance_after m self = self.

(** A method body whose exceptions all satisfy [P]. *)
Definition raises_only {A} (P : exn -> Prop) (m : M A) : Prop :=
  forall self e, run m self = Raise e -> P e.

(** Every exception but the one of [parse_source]. *)
Definition not_SyntaxError (e : exn) : Prop :=
  match e with
  | SyntaxError _ _ => False
  | _ => True
  end.

(** One instruction encoded on its own by the loop body, on a fresh
    instance. *)
Definition encode (ins : instruction) : outcome command :=
  match run (assemble_body ([], None) ins) __init__ with
  | Return (_, Some record) => Return record
  | Return (_, None) => Raise (UnboundLocalError "command")
  | Raise e => Raise e
  end.

(** An instruction that encodes, and one that does not. *)
Definition valid (ins : instruction) : Prop :=
  exists record, encode ins = Return record.

Definition invalid (ins : instruction) : Prop :=
  exists e, encode ins = Raise e.

(** The text [parse_line] splits into words: the stripped line up to its
    first semicolon, stripped again (lines 21, 28 and 29). *)
Definition code_of (line : str) : str :=
  let line := Py.strip line in
  if Py.contains ";" line then Py.strip (hd [] (Py.split ";" line))
  else line.

(** The argument list of lines 33 to 37, from the words after the first. *)
Definition args_of (rest : list str) : list str :=
  match rest with
  | [] => []
  | _ :: _ => map Py.strip (Py.split "," (Py.join " " rest))
  end.

(** The value [parse_line] returns, shown below to be returned on every
    line. *)
Definition parsed (line : str) : option instruction :=
  if Py.str_eqb (Py.strip line) "" || Py.startswith (Py.strip line) ";"
  then None
  else match Py.split_ws (code_of line) with
       | [] => None
       | first :: rest => Some (Py.upper first, args_of rest)
       end.

Definition instruction_of (line : str) : list instruction :=
  match parsed line with
  | Some ins => [ins]
  | None => []
  end.

(** The instructions [parse_source] collects, shown below to be what it
    returns on every source. *)
Definition instructions (source_code : str) : list instruction :=
  flat_map instruction_of (Py.split newline source_code).

(** The loop of [assemble] on a fresh instance, instruction by
    instruction; shown below to be what [assemble] returns or raises. *)
Fixpoint encode_all (l : list instruction) : outcome (list command) :=
  match l with
  | [] => Return []
  | ins :: t =>
      match encode ins with
      | Raise e => Raise e
      | Return record =>
          match encode_all t with
          | Raise e => Raise e
          | Return records => Return (record :: records)
          end
      end
  end.

(** [_parse_number] on the arguments, left to right. *)
Definition decode (arg : str) : outcome Z := run (_parse_number arg) __init__.

Fixpoint decode_all (args : list str) : outcome (list Z) :=
  match args with
  | [] => Return []
  | a :: t =>
      match decode a with
      | Raise e => Raise e
      | Return v =>
          match decode_all t with
          | Raise e => Raise e
          | Return vs => Return (v :: vs)
          end
      end
  end.

(** The two [ValueError]s of [int]. *)
Definition number_error (e : exn) : Prop :=
  match e with
  | InvalidNumber _ _ | DigitLimit _ => True
  | _ => False
  end.

(** The argument counts tested at lines 66, 75 and 84. *)
Definition arities : Py.dict nat :=
  [("LOAD_CONST" : str, 2%nat); ("STORE" : str, 2%nat);
   ("BINARY_OP" : str, 4%nat)].

(** The messages raised at lines 67, 76 and 86, by mnemonic. *)
Definition arity_messages : Py.dict str :=
  [("LOAD_CONST" : str, LOAD_CONST_message); ("STORE" : str, STORE_message);
   ("BINARY_OP" : str, BINARY_OP_message)].

(** The decimal digit of a count below ten, as the messages print it. *)
Definition digit_chr (n : nat) : ascii := ascii_of_nat (48 + n).

(** The field labels, in the order of the dictionary displays. *)
Definition labels : list str := ["A" : str; "B" : str; "C" : str;
                                 "D" : str; "E" : str].

(** A line that is blank or a comment: lines 21 to 25. *)
Definition blank_or_comment (line : str) : Prop :=
  Py.strip line = [] \/ exists t, Py.strip line = ";"%char :: t.

(** Source text from its lines. *)
Definition unlines (lines : list str) : str := Py.join [newline] lines.

(** Text that fits on one line. *)
Definition no_newline (s : str) : Prop := ~ In newline s.

(** A token of a line: no space and no semicolon inside. *)
Definition token_chr (c : ascii) : bool :=
  negb (Py.isspace c) && negb (Py.chr_eqb c ";"%char).

(** The loop body as a function of the instruction: the three checks in
    their order, then the record.  Shown below to be what [assemble_body]
    computes on a fresh instance. *)
Definition encoding (ins : instruction) : outcome command :=
  let '(mnemonic, args) := ins in
  match Py.dict_get (mnemonics __init__) mnemonic with
  | None => Raise (UnknownMnemonic mnemonic)
  | Some opcode =>
      match Py.dict_get arities mnemonic,
            Py.dict_get arity_messages mnemonic with
      | Some n, Some message =>
          if (length args =? n)%nat then
            match decode_all args with
            | Return values => Return (combine labels (opcode :: values))
            | Raise e => Raise e
            end
          else Raise (ArityMismatch message)
      | _, _ => Raise (KeyError mnemonic)
      end
  end.

(** What may follow the mnemonic on its line: nothing, a space or a
    comment. *)
Definition token_end (rest : str) : Prop :=
  match rest with
  | [] => True
  | c :: _ => token_chr c = false
  end.

(** A run of words as line 36 joins it: the text with its spaces at both
    ends dropped and every inner run of spaces replaced by one space. *)
Definition normalize (s : str) : str := Py.join " " (Py.split_ws s).

(** An argument as it may be written: spaces, the argument, spaces. *)
Definition padded (item : str * str * str) : str :=
  let '(spaces_before, arg, spaces_after) := item in
  spaces_before ++ arg ++ spaces_after.

(** The argument without its padding. *)
Definition arg_of (item : str * str * str) : str :=
  let '(_, arg, _) := item in arg.

(** A character of an argument: no space, no comma, no semicolon. *)
Definition arg_chr (c : ascii) : bool :=
  negb (Py.isspace c) && negb (Py.chr_eqb c ","%char) &&
  negb (Py.chr_eqb c ";"%char).

(** Padding is made of spaces, the argument is a word of argument
    characters. *)
Definition well_padded (item : str * str * str) : Prop :=
  let '(spaces_before, arg, spaces_after) := item in
  Forall (fun c => Py.isspace c = true) spaces_before /\
  Forall (fun c => Py.isspace c = true) spaces_after /\
  arg <> [] /\
  Forall (fun c => arg_chr c = true) arg.

(** Text that is empty or starts with a character that is no space. *)
Definition starts_nonspace (s : str) : Prop :=
  match s with
  | [] => True
  | c :: _ => Py.isspace c = false
  end.

(** The digits of base 16 and base 10 and their values, read left to
    right. *)
Definition hexdigits : str := "0123456789abcdefABCDEF".
Definition digits10 : str := "0123456789".

Fixpoint index_of (c : ascii) (s : str) : Z :=
  match s with
  | [] => 0
  | x :: t => if Py.chr_eqb c x then 0 else 1 + index_of c t
  end.

Definition digit_val (c : ascii) : Z :=
  index_of (Py.lower_chr c) "0123456789abcdef".

Definition number_value (base : Z) (ds : str) : Z :=
  fold_left (fun acc c => acc * base + digit_val c) ds 0.

(** What the parser needs to know of a digit of [base]. *)
Definition digit_of (base : Z) (c : ascii) : Prop :=
  Py.PyLong_DigitValue c = digit_val c /\
  (Py.PyLong_DigitValue c <? base) = true /\
  Py.isspace c = false /\
  Py.Py_ISSPACE c = false /\
  Py.chr_eqb c "_"%char = false /\
  Py.chr_eqb c "x"%char = false /\
  Py.chr_eqb c "X"%char = false /\
  Py.chr_eqb c "+"%char = false /\
  Py.chr_eqb c "-"%char = false.

(** The signs [int] accepts in front of the digits: none, plus, minus. *)
Definition signs : list str := ["" : str; "+" : str; "-" : str].

Definition sign_value (sign : str) : Z :=
  if Py.startswith sign "-" then -1 else 1.

(** Groups of the digits [digits], none of them empty, as [int] accepts
    them with single underscores in between. *)
Definition digit_groups (digits : str) (groups : list str) : Prop :=
  groups <> [] /\
  Forall (fun g => g <> [] /\ Forall (fun c => In c digits) g) groups.

Definition grouped (groups : list str) : str := Py.join "_" groups.


(** The letter U+0130, capital I with a dot above, and the mark U+0307,
    combining dot above, in UTF-8.  [str.lower] of U+0130 is [i] followed
    by U+0307. *)
Definition capital_I_with_dot : str := [ascii_of_nat 196; ascii_of_nat 176].
Definition combining_dot : str := [ascii_of_nat 204; ascii_of_nat 135].

(** ** Further vocabulary *)

(** The test of line 24, negated: the line holds an instruction. *)
Definition is_instruction_line (line : str) : bool :=
  negb (Py.str_eqb (Py.strip line) "" || Py.startswith (Py.strip line) ";").

Definition carriage_return : ascii := ascii_of_nat 13.

(** Source text from its lines, in the Windows convention. *)
Definition unlines_crlf (lines : list str) : str :=
  Py.join [carriage_return; newline] lines.

(** The three mnemonics that the loop body has a branch for. *)
Definition has_branch (mnemonic : str) : bool :=
  Py.str_eqb mnemonic "LOAD_CONST" || Py.str_eqb mnemonic "STORE" ||
  Py.str_eqb mnemonic "BINARY_OP".

(** The last record of a list, as the loop variable [command] holds it. *)
Definition last_record (records : list command) : option command :=
  match rev records with
  | [] => None
  | record :: _ => Some record
  end.

(** ** What [main] prints and writes

    [str(command)] of lines 164 and 171, for a dictionary with [str] keys
    and [int] values: [repr] of the keys, [str] of the values, which
    CPython refuses for an integer of more than [int_max_str_digits]
    decimal digits.  [None] stands for that [ValueError]. *)

Definition single_quote : ascii := ascii_of_nat 39.
Definition double_quote : ascii := ascii_of_nat 34.
Definition backslash : ascii := ascii_of_nat 92.

Definition hex_chr (n : Z) : ascii :=
  nth (Z.to_nat n) (list_ascii_of_string "0123456789abcdef") "0"%char.

(** One character inside [repr(s)], between the quotes [q]. *)
Definition repr_chr (q c : ascii) : str :=
  let n := Py.ord c in
  if Py.chr_eqb c q || Py.chr_eqb c backslash then [backslash; c]
  else if n =? 9 then [backslash; "t"%char]
  else if n =? 10 then [backslash; "n"%char]
  else if n =? 13 then [backslash; "r"%char]
  else if (n <? 32) || (n =? 127) then
    [backslash; "x"%char; hex_chr (n / 16); hex_chr (n mod 16)]
  else [c].

(** [repr(s)]: double quotes when [s] holds a single quote and no double
    quote, single quotes otherwise. *)
Definition repr_of_str (s : str) : str :=
  let q := if Py.contains single_quote s && negb (Py.contains double_quote s)
           then double_quote else single_quote in
  q :: flat_map (repr_chr q) s ++ [q].

(** The decimal digits of a natural number, the last digit first; [fuel]
    bounds the number of digits. *)
Fixpoint decimal_digits (fuel : nat) (n : Z) (acc : str) : str :=
  match fuel with
  | O => acc
  | S fuel' =>
      let acc' := digit_chr (Z.to_nat (n mod 10)) :: acc in
      if n / 10 =? 0 then acc' else decimal_digits fuel' (n / 10) acc'
  end.

(** A number has no more decimal digits than binary ones. *)
Definition decimal (n : Z) : str :=
  decimal_digits (S (Z.to_nat (Z.log2 n))) n [].

(** [str(z)] *)
Definition str_of_int (z : Z) : option str :=
  let ds := decimal (Z.abs z) in
  if (Py.int_max_str_digits <? length ds)%nat then None
  else Some (if z <? 0 then "-"%char :: ds else ds).

(** The items [key: value] of [str(command)], left to right. *)
Fixpoint str_of_items (d : command) : option (list str) :=
  match d with
  | [] => Some []
  | (key, value) :: t =>
      match str_of_int value with
      | None => None
      | Some text =>
          match str_of_items t with
          | None => None
          | Some items => Some ((repr_of_str key ++ ": " ++ text) :: items)
          end
      end
  end.

(** [str(command)] *)
Definition str_of_command (d : command) : option str :=
  match str_of_items d with
  | None => None
  | Some items => Some ("{" ++ Py.join ", " items ++ "}")
  end.

(** The loop of lines 170 and 171 on the bytes [file] already written:
    whether it came to its end, and the bytes written then.  Text is kept
    in its UTF-8 encoding, so [encode('utf-8')] changes nothing. *)
Fixpoint write_records (ir : list command) (file : str) : bool * str :=
  match ir with
  | [] => (true, file)
  | command :: t =>
      match str_of_command command with
      | None => (false, file)
      | Some text => write_records t (file ++ text ++ [newline])
      end
  end.

(** ** [main]

    [main] is modelled behind [parse_args], on the arguments it returns.
    What the environment does is given with them: the outcome of opening
    and reading the input file (lines 153 and 154) and the outcome of
    opening the output file (line 168).  [print] and [write] are taken
    not to fail. *)
Record Namespace : Type :=
  { input_file : str; output_file : str; test : bool }.

(** What the [try] block of [main] can raise: an exception of [assemble],
    the [ValueError] of [str(command)], an exception of [open] or
    [read]. *)
Inductive failure : Type :=
| Assembling (e : exn)
| IntegerToString
| Environment (description : str).

(** The calls of [print], by their line: 161, 162 and 165, 164 with the
    index and [str(command)], 173 with the name of the output file, 176
    with the exception. *)
Inductive printed : Type :=
| Header
| Rule
| CommandLine (i : nat) (text : str)
| Success (output_file : str)
| Failure (e : failure).

(** What a run of [main] leaves: the calls of [print] in their order; the
    bytes of the output file when it was opened, which truncates it; the
    status of [sys.exit] when it was called. *)
Record process : Type :=
  { stdout : list printed; output : option str; exit_status : option Z }.

(** The loop of lines 163 and 164 after the prints [out]: whether it came
    to its end, and the prints made then. *)
Fixpoint print_commands (i : nat) (ir : list command) (out : list printed)
  : bool * list printed :=
  match ir with
  | [] => (true, out)
  | command :: t =>
      match str_of_command command with
      | None => (false, out)
      | Some text => print_commands (S i) t (out ++ [CommandLine i text])
      end
  end.

Definition main (args : Namespace) (read_input : failure + str)
           (open_output : option failure) : process :=
  let assembler := __init__ in
  let failed (e : failure) (out : list printed) (file : option str) :=
    {| stdout := out ++ [Failure e]; output := file;
       exit_status := Some 1 |} in
  match read_input with
  | inl e => failed e [] None
  | inr source_code =>
      match run (assemble source_code) assembler with
      | Raise e => failed (Assembling e) [] None
      | Return intermediate_representation =>
          let '(listed, out) :=
            if test args then
              let '(ok, out) :=
                print_commands 0 intermediate_representation [Header; Rule] in
              if ok then (true, out ++ [Rule]) else (false, out)
            else (true, []) in
          if negb listed then failed IntegerToString out None
          else
            match open_output with
            | Some e => failed e out None
            | None =>
                let '(written, file) :=
                  write_records intermediate_representation [] in
                if written then
                  {| stdout := out ++ [Success (output_file args)];
                     output := Some file; exit_status := None |}
                else failed IntegerToString out (Some file)
            end
      end
  end.

(** The bytes of the lines [texts], each with its line break. *)
Definition lines_of (texts : list str) : str :=
  concat (map (fun text => text ++ [newline]) texts).

(** The prints of line 164 for the texts, counted from [i]. *)
Fixpoint command_lines (i : nat) (texts : list str) : list printed :=
  match texts with
  | [] => []
  | text :: t => CommandLine i text :: command_lines (S i) t
  end.


(** ** The method monad *)

Lemma bind_Return {A B} (m : M A) (k : A -> M B) self a self' :
  m self = (Return a, self') -> bind m k self = k a self'.
Proof. unfold bind. intros ->. reflexivity. Qed.

Lemma bind_Raise {A B} (m : M A) (k : A -> M B) self e self' :
  m self = (Raise e, self') -> bind m k self = (Raise e, self').
Proof. unfold bind. intros ->. reflexivity. Qed.

Lemma pure_ret {A} (a : A) : pure (ret a).
Proof. intros self. reflexivity. Qed.

Lemma pure_raise {A} (e : exn) : pure (@raise A e).
Proof. intros self. reflexivity. Qed.

Lemma pure_bind {A B} (m : M A) (k : A -> M B) :
  pure m -> (forall a, pure (k a)) -> pure (bind m k).
Proof.
  intros Hm Hk self. unfold run, bind.
  rewrite (Hm self), (Hm __init__).
  destruct (run m __init__) as [a | e]; cbn.
  - rewrite (Hk a self), (Hk a __init__). reflexivity.
  - reflexivity.
Qed.

Lemma pure_try_except {A} (m : M A) (h : exn -> M A) :
  pure m -> (forall e, pure (h e)) -> pure (try_except m h).
Proof.
  intros Hm Hh self. unfold run, try_except.
  rewrite (Hm self), (Hm __init__).
  destruct (run m __init__) as [a | e]; cbn.
  - reflexivity.
  - rewrite (Hh e self), (Hh e __init__). reflexivity.
Qed.

Lemma pure_for_each {A S} (body : S -> A -> M S) (l : list A) :
  (forall acc x, pure (body acc x)) -> forall acc, pure (for_each l acc body).
Proof.
  intros Hb. induction l as [| x t IH]; intros acc; cbn.
  - apply pure_ret.
  - apply pure_bind; [apply Hb | intros a; apply IH].
Qed.

Lemma pure_getitem {A} (l : list A) i : pure (getitem l i).
Proof.
  unfold getitem. destruct (nth_error l i); [apply pure_ret | apply pure_raise].
Qed.

Lemma pure_int s base : pure (int s base).
Proof.
  unfold int. destruct (Py.int_of_str s base) as [[| d] | z];
    [apply pure_raise | apply pure_raise | apply pure_ret].
Qed.

Lemma pure_parse_number a : pure (_parse_number a).
Proof.
  unfold _parse_number.
  destruct (Py.startswith (Py.strip a) "0x"); apply pure_int.
Qed.

Lemma pure_number_at args i : pure (number_at args i).
Proof.
  unfold number_at. apply pure_bind; [apply pure_getitem |].
  intros a. apply pure_parse_number.
Qed.

Lemma pure_parse_line line : pure (parse_line line).
Proof.
  unfold parse_line.
  destruct (Py.str_eqb (Py.strip line) "" || Py.startswith (Py.strip line) ";");
    [apply pure_ret |].
  apply pure_bind.
  - destruct (Py.contains ";" (Py.strip line)); [| apply pure_ret].
    apply pure_bind; [apply pure_getitem | intros a; apply pure_ret].
  - intros l. apply pure_bind; [apply pure_getitem | intros a; apply pure_ret].
Qed.

Lemma pure_parse_source src : pure (parse_source src).
Proof.
  unfold parse_source. apply pure_for_each.
  intros acc [n line]. apply pure_try_except.
  - apply pure_bind; [apply pure_parse_line |].
    intros [p |]; apply pure_ret.
  - intros e. apply pure_raise.
Qed.

Lemma readonly_pure {A} (m : M A) : pure m -> readonly m.
Proof. intros H self. unfold instance_after. rewrite (H self). reflexivity. Qed.

Lemma readonly_bind {A B} (m : M A) (k : A -> M B) :
  readonly m -> (forall a, readonly (k a)) -> readonly (bind m k).
Proof.
  intros Hm Hk self. unfold instance_after, bind.
  specialize (Hm self). unfold instance_after in Hm.
  destruct (m self) as [[a | e] self']; cbn in *; subst.
  - apply Hk.
  - reflexivity.
Qed.

Lemma readonly_for_each {A S} (body : S -> A -> M S) (l : list A) :
  (forall acc x, readonly (body acc x)) ->
  forall acc, readonly (for_each l acc body).
Proof.
  intros Hb. induction l as [| x t IH]; intros acc; cbn.
  - apply readonly_pure, pure_ret.
  - apply readonly_bind; [apply Hb | intros a; apply IH].
Qed.

Lemma readonly_self_mnemonics : readonly self_mnemonics.
Proof. intros self. reflexivity. Qed.

Lemma readonly_subscript {V} (d : Py.dict V) k : readonly (subscript d k).
Proof.
  unfold subscript. destruct (Py.dict_get d k);
    apply readonly_pure; [apply pure_ret | apply pure_raise].
Qed.

Lemma readonly_opcode_of m : readonly (opcode_of m).
Proof.
  unfold opcode_of. apply readonly_bind; [apply readonly_self_mnemonics |].
  intros d. apply readonly_subscript.
Qed.

Create HintDb uvm.

#[local] Hint Resolve pure_ret pure_raise pure_number_at readonly_pure
  readonly_opcode_of readonly_self_mnemonics : uvm.

Lemma readonly_assemble_body st ins : readonly (assemble_body st ins).
Proof.
  destruct st as [ir command], ins as [mnemonic args].
  unfold assemble_body.
  apply readonly_bind; [apply readonly_self_mnemonics | intros table].
  destruct (negb (Py.dict_in mnemonic table)); [auto with uvm |].
  apply readonly_bind.
  - repeat match goal with
           | |- readonly (if ?b then _ else _) => destruct b
           | |- readonly (bind _ _) => apply readonly_bind; [auto with uvm | intros ?]
           end; auto with uvm.
  - intros [record |]; auto with uvm.
Qed.

Lemma readonly_assemble src : readonly (assemble src).
Proof.
  unfold assemble.
  apply readonly_bind; [apply readonly_pure, pure_parse_source | intros cmds].
  apply readonly_bind; [| intros st; apply readonly_pure, pure_ret].
  apply readonly_for_each. intros acc x. apply readonly_assemble_body.
Qed.

(** *** Which exceptions a body can raise *)

Lemma raises_only_ret {A} P (a : A) : raises_only P (ret a).
Proof. intros self e H. discriminate H. Qed.

Lemma raises_only_raise {A} (P : exn -> Prop) e :
  P e -> raises_only P (@raise A e).
Proof. intros HP self e' H. inversion H. subst. exact HP. Qed.

Lemma raises_only_bind {A B} P (m : M A) (k : A -> M B) :
  raises_only P m -> (forall a, raises_only P (k a)) ->
  raises_only P (bind m k).
Proof.
  intros Hm Hk self e. unfold run, bind.
  specialize (Hm self). unfold run in Hm.
  destruct (m self) as [[a | e'] self']; cbn in *.
  - apply Hk.
  - intros H. inversion H. subst. apply Hm. reflexivity.
Qed.

Lemma raises_only_for_each {A S} P (body : S -> A -> M S) (l : list A) :
  (forall acc x, raises_only P (body acc x)) ->
  forall acc, raises_only P (for_each l acc body).
Proof.
  intros Hb. induction l as [| x t IH]; intros acc; cbn [for_each].
  - apply raises_only_ret.
  - apply raises_only_bind; [apply Hb | intros a; apply IH].
Qed.

Lemma raises_only_getitem {A} (l : list A) i :
  raises_only not_SyntaxError (getitem l i).
Proof.
  unfold getitem. destruct (nth_error l i);
    [apply raises_only_ret | apply raises_only_raise; exact I].
Qed.

Lemma raises_only_int s base : raises_only not_SyntaxError (int s base).
Proof.
  unfold int. destruct (Py.int_of_str s base) as [[| d] | z];
    [apply raises_only_raise; exact I | apply raises_only_raise; exact I
    | apply raises_only_ret].
Qed.

Lemma raises_only_number_at args i :
  raises_only not_SyntaxError (number_at args i).
Proof.
  unfold number_at. apply raises_only_bind; [apply raises_only_getitem |].
  intros a. unfold _parse_number.
  destruct (Py.startswith (Py.strip a) "0x"); apply raises_only_int.
Qed.

Lemma raises_only_opcode_of m : raises_only not_SyntaxError (opcode_of m).
Proof.
  unfold opcode_of. apply raises_only_bind.
  - intros self e H. discriminate H.
  - intros d. unfold subscript. destruct (Py.dict_get d m);
      [apply raises_only_ret | apply raises_only_raise; exact I].
Qed.

#[local] Hint Resolve raises_only_ret raises_only_number_at
  raises_only_opcode_of : uvm.

Lemma raises_only_assemble_body st ins :
  raises_only not_SyntaxError (assemble_body st ins).
Proof.
  destruct st as [ir command], ins as [mnemonic args].
  unfold assemble_body.
  apply raises_only_bind; [intros self e H; discriminate H | intros table].
  destruct (negb (Py.dict_in mnemonic table));
    [apply raises_only_raise; exact I |].
  apply raises_only_bind.
  - repeat match goal with
           | |- raises_only _ (if ?b then _ else _) => destruct b
           | |- raises_only _ (bind _ _) =>
               apply raises_only_bind; [auto with uvm | intros ?]
           | |- raises_only _ (raise _) => apply raises_only_raise; exact I
           end; auto with uvm.
  - intros [record |]; [auto with uvm | apply raises_only_raise; exact I].
Qed.

(** ** Characters and text *)

Ltac each_char c :=
  destruct c as [[] [] [] [] [] [] [] []]; vm_compute; try reflexivity;
  try discriminate; auto.

Lemma chr_eqb_eq a b : Py.chr_eqb a b = true <-> a = b.
Proof. apply Ascii.eqb_eq. Qed.

Lemma chr_eqb_refl a : Py.chr_eqb a a = true.
Proof. apply Ascii.eqb_refl. Qed.

Lemma chr_eqb_neq a b : Py.chr_eqb a b = false <-> a <> b.
Proof. apply Ascii.eqb_neq. Qed.

Lemma str_eqb_eq a b : Py.str_eqb a b = true <-> a = b.
Proof.
  revert b. induction a as [| x a IH]; intros [| y b]; cbn;
    try (split; [discriminate | discriminate]); try tauto.
  rewrite andb_true_iff, chr_eqb_eq, IH.
  split; [intros [-> ->]; reflexivity | intros H; inversion H; auto].
Qed.

Lemma str_eqb_refl a : Py.str_eqb a a = true.
Proof. apply str_eqb_eq. reflexivity. Qed.

Lemma str_eqb_neq a b : Py.str_eqb a b = false <-> a <> b.
Proof.
  destruct (Py.str_eqb a b) eqn:E.
  - apply str_eqb_eq in E. split; [discriminate | intros H; contradiction].
  - split; [| reflexivity]. intros _ H. apply str_eqb_eq in H. congruence.
Qed.

Lemma isspace_upper c : Py.isspace (Py.upper_chr c) = Py.isspace c.
Proof. each_char c. Qed.

Lemma semicolon_upper c :
  Py.chr_eqb (Py.upper_chr c) ";"%char = Py.chr_eqb c ";"%char.
Proof. each_char c. Qed.

Lemma upper_lower c : Py.upper_chr (Py.lower_chr c) = Py.upper_chr c.
Proof. each_char c. Qed.

Lemma lstrip_cons c t :
  Py.isspace c = false -> Py.lstrip (c :: t) = c :: t.
Proof. intros H. unfold Py.lstrip. cbn. rewrite H. reflexivity. Qed.

Lemma lstrip_head s :
  Py.lstrip s = [] \/
  exists c t, Py.lstrip s = c :: t /\ Py.isspace c = false.
Proof.
  unfold Py.lstrip. induction s as [| c t IH]; cbn; [left; reflexivity |].
  destruct (Py.isspace c) eqn:E; [exact IH |].
  right. exists c, t. split; [reflexivity | exact E].
Qed.

Lemma rstrip_cons c t :
  Py.isspace c = false -> Py.rstrip (c :: t) = c :: Py.rstrip t.
Proof.
  intros H. cbn. rewrite H. destruct (Py.rstrip t); reflexivity.
Qed.

Lemma strip_cons c t :
  Py.isspace c = false -> Py.strip (c :: t) = c :: Py.rstrip t.
Proof.
  intros H. unfold Py.strip. rewrite lstrip_cons by exact H.
  apply rstrip_cons, H.
Qed.

Lemma strip_head s :
  Py.strip s = [] \/
  exists c t, Py.strip s = c :: t /\ Py.isspace c = false.
Proof.
  unfold Py.strip. destruct (lstrip_head s) as [-> | (c & t & -> & H)].
  - left. reflexivity.
  - right. exists c, (Py.rstrip t). split; [apply rstrip_cons, H | exact H].
Qed.

Lemma split_nonempty sep s : exists p r, Py.split sep s = p :: r.
Proof.
  induction s as [| c t (p & r & IH)]; cbn; [eauto |].
  destruct (Py.chr_eqb c sep); [eauto |]. rewrite IH. eauto.
Qed.

Lemma split_cons_other sep c t :
  Py.chr_eqb c sep = false ->
  Py.split sep (c :: t) =
    (c :: hd [] (Py.split sep t)) :: tl (Py.split sep t).
Proof.
  intros H. cbn. rewrite H.
  destruct (split_nonempty sep t) as (p & r & ->). reflexivity.
Qed.

Lemma split_ws_cons c t :
  Py.isspace c = false ->
  exists w r, Py.split_ws (c :: t) = (c :: w) :: r.
Proof.
  intros H. cbn. rewrite H. destruct t as [| c' t']; [eauto |].
  destruct (Py.isspace c'); [eauto |].
  destruct (Py.split_ws (c' :: t')); eauto.
Qed.

(** The text that is split into words starts with a character that is
    no space: the first character of the stripped line. *)
Lemma code_of_head line c t :
  Py.strip line = c :: t -> Py.chr_eqb c ";"%char = false ->
  exists t', code_of line = c :: t' /\ Py.isspace c = false.
Proof.
  intros E Hc. unfold code_of. cbn zeta. rewrite E.
  assert (Hs : Py.isspace c = false).
  { destruct (strip_head line) as [H | (c' & t'' & H & Hs)];
      rewrite E in H; [discriminate | inversion H; subst; exact Hs]. }
  destruct (Py.contains ";" (c :: t)).
  - rewrite split_cons_other by exact Hc. cbn [hd].
    rewrite strip_cons by exact Hs. eauto.
  - eauto.
Qed.

(** ** [parse_line] and [parse_source] return *)

Lemma parse_line_eq line self :
  parse_line line self = (Return (parsed line), self).
Proof.
  unfold parse_line, parsed.
  destruct (strip_head line) as [E | (c & t & E & Hs)].
  - rewrite E. reflexivity.
  - destruct (Py.str_eqb (Py.strip line) "" ||
              Py.startswith (Py.strip line) ";") eqn:Hc; [reflexivity |].
    assert (Hsemi : Py.chr_eqb c ";"%char = false).
    { rewrite E in Hc. cbn in Hc. destruct (Py.chr_eqb c ";"%char);
        [discriminate | reflexivity]. }
    destruct (code_of_head line c t E Hsemi) as (t' & Hcode & _).
    assert (Hline :
      (if Py.contains ";" (Py.strip line)
       then first <- getitem (Py.split ";" (Py.strip line)) 0 ;;
            ret (Py.strip first)
       else ret (Py.strip line)) self = (Return (code_of line), self)).
    { unfold code_of. cbn zeta.
      destruct (Py.contains ";" (Py.strip line)); [| reflexivity].
      destruct (split_nonempty ";"%char (Py.strip line)) as (p & r & ->).
      reflexivity. }
    rewrite (bind_Return _ _ _ _ _ Hline).
    rewrite Hcode.
    destruct (split_ws_cons c t' Hs) as (w & r & ->).
    cbn. destruct r; reflexivity.
Qed.

Lemma parse_source_loop lines : forall n acc self,
  for_each (Py.enumerate n lines) acc
    (fun commands '(line_num, line) =>
       try_except
         (p <- parse_line line ;;
          match p with
          | Some p => ret (commands ++ [p])
          | None => ret commands
          end)
         (fun e => raise (SyntaxError line_num line))) self =
  (Return (acc ++ flat_map instruction_of lines), self).
Proof.
  induction lines as [| l t IH]; intros n acc self; cbn.
  - rewrite app_nil_r. reflexivity.
  - unfold bind at 1, try_except, bind at 1.
    rewrite parse_line_eq. unfold instruction_of at 1.
    destruct (parsed l) as [p |]; cbn.
    + rewrite IH, <- app_assoc. reflexivity.
    + rewrite IH. reflexivity.
Qed.

Lemma parse_source_eq src self :
  parse_source src self = (Return (instructions src), self).
Proof. unfold parse_source. apply parse_source_loop. Qed.

(** ** The loop body on a fresh instance *)

Lemma run_parse_number a self :
  _parse_number a self = (decode a, self).
Proof. apply pure_parse_number. Qed.

Lemma number_at_0 a t self : number_at (a :: t) 0 self = (decode a, self).
Proof. unfold number_at. cbn. apply run_parse_number. Qed.

Lemma number_at_S a t i self :
  number_at (a :: t) (S i) self = number_at t i self.
Proof. reflexivity. Qed.

Ltac step_numbers :=
  repeat (first
    [ rewrite number_at_0
    | rewrite number_at_S
    | match goal with
      | |- context [decode ?a] => destruct (decode a); cbn
      end ]).

Lemma assemble_body_init ir cmd ins :
  assemble_body (ir, cmd) ins __init__ =
  (match encoding ins with
   | Return record => Return (ir ++ [record], Some record)
   | Raise e => Raise e
   end, __init__).
Proof.
  destruct ins as [m args]. unfold assemble_body, encoding.
  unfold bind at 1. cbn [self_mnemonics mnemonics __init__].
  unfold Py.dict_in. cbn [Py.dict_get arities arity_messages].
  destruct (Py.str_eqb m "LOAD_CONST") eqn:E1.
  { cbn [negb]. unfold bind at 1.
    destruct args as [| a [| b [| c args]]]; try reflexivity.
    cbn [length Nat.eqb negb]. unfold opcode_of, subscript.
    apply str_eqb_eq in E1. subst m. cbn - [number_at decode].
    unfold bind. step_numbers; reflexivity. }
  destruct (Py.str_eqb m "STORE") eqn:E2.
  { cbn [negb]. unfold bind at 1.
    destruct args as [| a [| b [| c args]]]; try reflexivity.
    cbn [length Nat.eqb negb]. unfold opcode_of, subscript.
    apply str_eqb_eq in E2. subst m. cbn - [number_at decode].
    unfold bind. step_numbers; reflexivity. }
  destruct (Py.str_eqb m "BINARY_OP") eqn:E3.
  { cbn [negb]. unfold bind at 1.
    destruct args as [| a [| b [| c [| d [| e args]]]]]; try reflexivity.
    cbn [length Nat.eqb negb]. unfold opcode_of, subscript.
    apply str_eqb_eq in E3. subst m. cbn - [number_at decode].
    unfold bind. step_numbers; reflexivity. }
  reflexivity.
Qed.

Lemma encode_eq ins : encode ins = encoding ins.
Proof.
  unfold encode, run. rewrite assemble_body_init.
  destruct (encoding ins); reflexivity.
Qed.

Lemma assemble_loop_init l : forall ir cmd,
  exists cmd',
    for_each l (ir, cmd) assemble_body __init__ =
    (match encode_all l with
     | Return records => Return (ir ++ records, cmd')
     | Raise e => Raise e
     end, __init__).
Proof.
  induction l as [| ins t IH]; intros ir cmd; cbn [for_each encode_all].
  - exists cmd. rewrite app_nil_r. reflexivity.
  - unfold bind. rewrite assemble_body_init, encode_eq.
    destruct (encoding ins) as [record | e]; [| exists cmd; reflexivity].
    destruct (IH (ir ++ [record]) (Some record)) as (cmd' & ->).
    exists cmd'. destruct (encode_all t); [| reflexivity].
    rewrite <- app_assoc. reflexivity.
Qed.

(** [assemble] on a fresh instance is the loop on the parsed lines. *)
Lemma assemble_init src :
  run (assemble src) __init__ = encode_all (instructions src).
Proof.
  unfold run, assemble, bind. rewrite parse_source_eq.
  destruct (assemble_loop_init (instructions src) [] None) as (cmd' & ->).
  destruct (encode_all (instructions src)); reflexivity.
Qed.

(** ** The encoder: facts about [encoding] *)

Lemma decode_number_error a e : decode a = Raise e -> number_error e.
Proof.
  unfold decode, run, _parse_number, int.
  destruct (Py.startswith (Py.strip a) "0x").
  - destruct (Py.int_of_str _ 16) as [[| d] | z]; cbn; intros H;
      inversion H; exact I.
  - destruct (Py.int_of_str _ 10) as [[| d] | z]; cbn; intros H;
      inversion H; exact I.
Qed.

Lemma decode_all_Forall2 args values :
  Forall2 (fun a v => decode a = Return v) args values ->
  decode_all args = Return values.
Proof.
  induction 1 as [| a v args values Ha _ IH]; cbn; [reflexivity |].
  rewrite Ha, IH. reflexivity.
Qed.

Lemma decode_all_length args values :
  decode_all args = Return values -> length values = length args.
Proof.
  revert values. induction args as [| a t IH]; cbn; intros values H.
  - inversion H. reflexivity.
  - destruct (decode a); [| discriminate].
    destruct (decode_all t) as [vs |]; [| discriminate].
    inversion H. cbn. f_equal. apply IH. reflexivity.
Qed.


(** The three tables have the same keys. *)
Lemma tables_agree m :
  (exists opcode n message,
     Py.dict_get (mnemonics __init__) m = Some opcode /\
     Py.dict_get arities m = Some n /\
     Py.dict_get arity_messages m = Some message /\
     Py.startswith message
       (m ++ list_ascii_of_string " требует " ++ [digit_chr n] ++
        list_ascii_of_string " аргумента") = true /\
     ((opcode = 20 \/ opcode = 12) /\ n = 2%nat \/ opcode = 19 /\ n = 4%nat)) \/
  (Py.dict_get (mnemonics __init__) m = None /\
   Py.dict_get arities m = None /\
   Py.dict_get arity_messages m = None).
Proof.
  cbn [Py.dict_get mnemonics __init__ arities arity_messages].
  destruct (Py.str_eqb m "LOAD_CONST") eqn:E1.
  { apply str_eqb_eq in E1. subst m. left. exists 20, 2%nat, LOAD_CONST_message.
    repeat split; try reflexivity. left. split; [left |]; reflexivity. }
  destruct (Py.str_eqb m "STORE") eqn:E2.
  { apply str_eqb_eq in E2. subst m. left. exists 12, 2%nat, STORE_message.
    repeat split; try reflexivity. left. split; [right |]; reflexivity. }
  destruct (Py.str_eqb m "BINARY_OP") eqn:E3.
  { apply str_eqb_eq in E3. subst m. left. exists 19, 4%nat, BINARY_OP_message.
    repeat split; try reflexivity. right. split; reflexivity. }
  right. repeat split.
Qed.

Lemma run_assemble_body st ins :
  run (assemble_body st ins) __init__ =
  match encoding ins with
  | Return record => Return (fst st ++ [record], Some record)
  | Raise e => Raise e
  end.
Proof.
  destruct st as [ir cmd]. unfold run. rewrite assemble_body_init. reflexivity.
Qed.

Lemma encoding_unknown m args :
  Py.dict_in m (mnemonics __init__) = false ->
  encoding (m, args) = Raise (UnknownMnemonic m).
Proof.
  unfold Py.dict_in, encoding. destruct (Py.dict_get (mnemonics __init__) m);
    [discriminate | reflexivity].
Qed.

Lemma encoding_arity m args n :
  Py.dict_get arities m = Some n -> length args <> n ->
  exists message,
    encoding (m, args) = Raise (ArityMismatch message) /\
    Py.dict_get arity_messages m = Some message /\
    Py.startswith message
      (m ++ list_ascii_of_string " требует " ++ [digit_chr n] ++
       list_ascii_of_string " аргумента") = true.
Proof.
  intros Hn Hlen. unfold encoding.
  destruct (tables_agree m) as
    [(opcode & n' & message & -> & Hn' & -> & Hmsg & _) | (_ & Hn' & _)];
    rewrite Hn' in Hn; [| discriminate].
  inversion Hn; subst n'. rewrite Hn'.
  apply Nat.eqb_neq in Hlen. rewrite Hlen. eauto.
Qed.

Lemma encoding_decoded m args opcode n :
  Py.dict_get (mnemonics __init__) m = Some opcode ->
  Py.dict_get arities m = Some n -> length args = n ->
  encoding (m, args) =
  match decode_all args with
  | Return values => Return (combine labels (opcode :: values))
  | Raise e => Raise e
  end.
Proof.
  intros Hop Hn Hlen. unfold encoding. rewrite Hop, Hn.
  destruct (tables_agree m) as
    [(opcode' & n' & message & _ & _ & -> & _) | (E & _)];
    [| rewrite E in Hop; discriminate].
  apply Nat.eqb_eq in Hlen. rewrite Hlen. reflexivity.
Qed.

(** The shape of a record that was built. *)
Lemma encoding_shape m args record :
  encoding (m, args) = Return record ->
  exists opcode,
    Py.dict_get (mnemonics __init__) m = Some opcode /\
    Py.dict_get record "A" = Some opcode /\
    ((opcode = 20 \/ opcode = 12) /\
     Py.keys record = ["A" : str; "B" : str; "C" : str] \/
     opcode = 19 /\
     Py.keys record = ["A" : str; "B" : str; "C" : str; "D" : str; "E" : str]).
Proof.
  unfold encoding.
  destruct (tables_agree m) as
    [(opcode & n & message & -> & -> & -> & _ & Hshape) | (-> & _)];
    [| discriminate].
  destruct (length args =? n)%nat eqn:Hlen; [| discriminate].
  apply Nat.eqb_eq in Hlen.
  destruct (decode_all args) as [values |] eqn:Hd; [| discriminate].
  apply decode_all_length in Hd. rewrite Hlen in Hd.
  intros H. inversion H; subst record; clear H.
  exists opcode. split; [reflexivity |]. split; [reflexivity |].
  destruct Hshape as [(Hop & ->) | (Hop & ->)].
  - left. split; [exact Hop |].
    destruct values as [| b [| c [| d values]]]; try discriminate. reflexivity.
  - right. split; [exact Hop |].
    destruct values as [| b [| c [| d [| e [| f values]]]]]; try discriminate.
    reflexivity.
Qed.

Lemma encode_all_Forall2 l records :
  encode_all l = Return records ->
  Forall2 (fun ins record => encode ins = Return record) l records.
Proof.
  revert records. induction l as [| ins t IH]; cbn; intros records H.
  - inversion H. constructor.
  - destruct (encode ins) as [r |] eqn:E; [| discriminate].
    destruct (encode_all t) as [rs |]; [| discriminate].
    inversion H. constructor; [exact E | apply IH; reflexivity].
Qed.

Lemma encode_all_first_error before ins after e :
  Forall valid before -> encode ins = Raise e ->
  encode_all (before ++ ins :: after) = Raise e.
Proof.
  intros Hb He. induction Hb as [| i t (r & Hi) _ IH]; cbn.
  - rewrite He. reflexivity.
  - rewrite Hi, IH. reflexivity.
Qed.

Lemma valid_or_invalid ins : valid ins \/ invalid ins.
Proof.
  unfold valid, invalid. destruct (encode ins); eauto.
Qed.

(** The first instruction that does not encode. *)
Lemma first_invalid l :
  Exists invalid l ->
  exists before ins after,
    l = before ++ ins :: after /\ Forall valid before /\ invalid ins.
Proof.
  induction l as [| i t IH]; intros H; [inversion H |].
  destruct (valid_or_invalid i) as [Hv | Hi].
  - assert (Ht : Exists invalid t).
    { inversion H as [? ? (e & He) | ]; subst; [| assumption].
      destruct Hv as (r & Hr). congruence. }
    destruct (IH Ht) as (before & ins & after & -> & Hb & Hins).
    exists (i :: before), ins, after. repeat split; auto.
  - exists [], i, t. repeat split; auto.
Qed.

(** ** The integer parser on digit strings *)

Lemma hexdigit_digit_of c : In c hexdigits -> digit_of 16 c.
Proof.
  unfold hexdigits. cbn [list_ascii_of_string In]. intros H.
  repeat (destruct H as [<- | H]; [vm_compute; repeat split; reflexivity |]).
  contradiction.
Qed.

Lemma digit10_digit_of c : In c digits10 -> digit_of 10 c.
Proof.
  unfold digits10. cbn [list_ascii_of_string In]. intros H.
  repeat (destruct H as [<- | H]; [vm_compute; repeat split; reflexivity |]).
  contradiction.
Qed.

Lemma scan_digits_step base p acc n c t :
  digit_of base c ->
  Py.scan_digits base p acc n (c :: t) =
  Py.scan_digits base false (acc * base + digit_val c) (S n) t.
Proof.
  intros (Hv & Hlt & _ & _ & Hu & _). cbn [Py.scan_digits].
  rewrite Hu, Hlt, Hv. reflexivity.
Qed.

Lemma scan_digits_app base ds : forall acc n rest,
  Forall (digit_of base) ds ->
  Py.scan_digits base false acc n (ds ++ rest) =
  Py.scan_digits base false
    (fold_left (fun a c => a * base + digit_val c) ds acc)
    (length ds + n) rest.
Proof.
  induction ds as [| c t IH]; intros acc n rest H; [reflexivity |].
  inversion H as [| ? ? Hc Ht]; subst.
  cbn [app fold_left length]. rewrite scan_digits_step by exact Hc.
  rewrite IH by exact Ht. f_equal. lia.
Qed.

Lemma scan_digits_underscore base acc n c t :
  digit_of base c ->
  Py.scan_digits base false acc n ("_"%char :: c :: t) =
  Py.scan_digits base false (acc * base + digit_val c) (S n) t.
Proof.
  intros (Hv & Hlt & _ & _ & Hu & _). cbn [Py.scan_digits].
  rewrite chr_eqb_refl, Hu, Hlt, Hv. reflexivity.
Qed.

Lemma rstrip_nospace s :
  Forall (fun c => Py.isspace c = false) s -> Py.rstrip s = s.
Proof.
  induction 1 as [| c t Hc _ IH]; [reflexivity |].
  rewrite rstrip_cons by exact Hc. rewrite IH. reflexivity.
Qed.

Lemma strip_nospace s :
  Forall (fun c => Py.isspace c = false) s -> Py.strip s = s.
Proof.
  intros H. unfold Py.strip. destruct H as [| c t Hc Ht]; [reflexivity |].
  rewrite lstrip_cons by exact Hc. apply rstrip_nospace.
  constructor; assumption.
Qed.

Lemma digits_nospace base ds :
  Forall (digit_of base) ds -> Forall (fun c => Py.isspace c = false) ds.
Proof.
  intros H. eapply Forall_impl; [| exact H].
  intros c Hc. apply Hc.
Qed.

(** No [0x] in front of a string of digits. *)
Lemma digits_no_prefix base ds x :
  Forall (digit_of base) ds ->
  x = "x"%char \/ x = "X"%char ->
  Py.startswith ds ["0"%char; x] = false.
Proof.
  intros H Hx. destruct H as [| c t Hc Ht]; [reflexivity |].
  cbn [Py.startswith]. destruct Ht as [| c' t' Hc' _].
  - apply andb_false_r.
  - destruct Hc' as (_ & _ & _ & _ & _ & Hx1 & Hx2 & _).
    destruct Hx as [-> | ->]; [rewrite Hx1 | rewrite Hx2];
      cbn; apply andb_false_r.
Qed.

Section IntOfDigits.

Variable base : Z.
Variable ds : str.
Hypothesis base_10_or_16 : base = 10 \/ base = 16.
Hypothesis ds_nonempty : ds <> [].
Hypothesis ds_digits : Forall (digit_of base) ds.
Hypothesis ds_limit : base = 10 -> (length ds <= Py.int_max_str_digits)%nat.

Lemma limit_check :
  negb (base =? 16) && (Py.int_max_str_digits <? length ds)%nat = false.
Proof.
  destruct base_10_or_16 as [E | E].
  - apply andb_false_iff. right. apply Nat.ltb_ge. apply ds_limit, E.
  - rewrite E. reflexivity.
Qed.

Lemma length_check : (length ds =? 0)%nat = false.
Proof.
  destruct ds; [contradiction | reflexivity].
Qed.

(** The parser behind the sign and the prefix. *)
Lemma int_of_str_tail sign :
  (if Py.startswith ds "_" then inl Py.InvalidLiteral
   else
     match Py.scan_digits base false 0 0 ds with
     | None => inl Py.InvalidLiteral
     | Some (value, digits, rest) =>
         if negb (base =? 16) && (Py.int_max_str_digits <? digits)%nat
         then inl (Py.ExceedsLimit digits)
         else if (digits =? 0)%nat then inl Py.InvalidLiteral
         else match Py.drop_while Py.Py_ISSPACE rest with
              | [] => inr (sign * value)
              | _ :: _ => inl Py.InvalidLiteral
              end
     end) = inr (sign * number_value base ds).
Proof.
  assert (Hus : Py.startswith ds "_" = false).
  { destruct ds_digits as [| c t Hc _]; [reflexivity |].
    cbn. destruct Hc as (_ & _ & _ & _ & -> & _). reflexivity. }
  rewrite Hus.
  rewrite <- (app_nil_r ds) at 1. rewrite scan_digits_app by exact ds_digits.
  cbn [Py.scan_digits]. rewrite Nat.add_0_r, limit_check, length_check.
  reflexivity.
Qed.

Lemma prefix_check :
  (base =? 16) && (Py.startswith ds "0x" || Py.startswith ds "0X") = false.
Proof.
  change (list_ascii_of_string "0x") with ["0"%char; "x"%char].
  change (list_ascii_of_string "0X") with ["0"%char; "X"%char].
  rewrite (digits_no_prefix base ds "x") by auto.
  rewrite (digits_no_prefix base ds "X") by auto.
  apply andb_false_r.
Qed.

Lemma int_of_str_digits : Py.int_of_str ds base = inr (number_value base ds).
Proof.
  unfold Py.int_of_str.
  assert (Hd : Py.drop_while Py.Py_ISSPACE ds = ds).
  { destruct ds_digits as [| c t Hc _]; [reflexivity |].
    cbn. destruct Hc as (_ & _ & _ & -> & _). reflexivity. }
  assert (Hs : forall x, x = "+"%char \/ x = "-"%char ->
                         Py.startswith ds [x] = false).
  { intros x Hx. destruct ds_digits as [| c t Hc _]; [reflexivity |].
    cbn. destruct Hc as (_ & _ & _ & _ & _ & _ & _ & Hp & Hm).
    destruct Hx as [-> | ->]; [rewrite Hp | rewrite Hm]; reflexivity. }
  rewrite Hd.
  change (list_ascii_of_string "-") with ["-"%char].
  change (list_ascii_of_string "+") with ["+"%char].
  rewrite !Hs by auto. cbn [orb]. rewrite prefix_check.
  rewrite (int_of_str_tail 1). f_equal. lia.
Qed.

Lemma int_of_str_minus :
  Py.int_of_str ("-"%char :: ds) base = inr (- number_value base ds).
Proof.
  unfold Py.int_of_str.
  change (Py.drop_while Py.Py_ISSPACE ("-"%char :: ds)) with ("-"%char :: ds).
  change (Py.startswith ("-"%char :: ds) "-") with true.
  change (Py.startswith ("-"%char :: ds) "+") with false.
  cbn [orb skipn]. rewrite prefix_check.
  rewrite (int_of_str_tail (-1)). f_equal; lia.
Qed.

End IntOfDigits.

(** A single underscore between two groups of digits is skipped. *)
Lemma int_of_str_underscore ds1 ds2 :
  ds1 <> [] -> ds2 <> [] ->
  Forall (digit_of 16) ds1 -> Forall (digit_of 16) ds2 ->
  Py.int_of_str (ds1 ++ "_"%char :: ds2) 16 =
    inr (number_value 16 (ds1 ++ ds2)).
Proof.
  intros N1 N2 H1 H2. unfold Py.int_of_str.
  destruct H1 as [| c t Hc Ht]; [contradiction |].
  destruct H2 as [| c2 t2 Hc2 Ht2]; [contradiction |].
  assert (Hsp := Hc). destruct Hsp as (_ & _ & _ & Hsp & Hus & _ & _ & Hp & Hm).
  cbn [app Py.drop_while]. rewrite Hsp.
  change (list_ascii_of_string "-") with ["-"%char].
  change (list_ascii_of_string "+") with ["+"%char].
  change (list_ascii_of_string "_") with ["_"%char].
  change (list_ascii_of_string "0x") with ["0"%char; "x"%char].
  change (list_ascii_of_string "0X") with ["0"%char; "X"%char].
  assert (Hpre : forall x, x = "x"%char \/ x = "X"%char ->
            Py.startswith (c :: t ++ "_"%char :: c2 :: t2) ["0"%char; x] = false).
  { intros x Hx. cbn [Py.startswith].
    destruct Ht as [| c' t' Hc' _].
    - cbn [app]. destruct Hx as [-> | ->]; cbn; apply andb_false_r.
    - destruct Hc' as (_ & _ & _ & _ & _ & Hx1 & Hx2 & _).
      cbn [app]. destruct Hx as [-> | ->]; [rewrite Hx1 | rewrite Hx2];
        cbn; apply andb_false_r. }
  assert (Hhead : forall x, Py.chr_eqb c x = false ->
            Py.startswith (c :: t ++ "_"%char :: c2 :: t2) [x] = false).
  { intros x Hx. cbn [Py.startswith]. rewrite Hx. reflexivity. }
  rewrite !Hhead by assumption. cbn [orb].
  rewrite !Hpre by auto. cbn [orb]. rewrite andb_false_r.
  rewrite !Hhead by assumption.
  change (c :: t ++ "_"%char :: c2 :: t2)
    with ((c :: t) ++ "_"%char :: c2 :: t2).
  rewrite scan_digits_app by (constructor; assumption).
  rewrite scan_digits_underscore by exact Hc2.
  rewrite <- (app_nil_r t2) at 1. rewrite scan_digits_app by exact Ht2.
  cbn [Py.scan_digits Py.drop_while].
  change (negb (16 =? 16)) with false. cbn [andb].
  rewrite Nat.add_succ_r. cbn [Nat.eqb].
  unfold number_value.
  change (c :: t ++ c2 :: t2) with ((c :: t) ++ c2 :: t2).
  rewrite fold_left_app. cbn [fold_left].
  f_equal; lia.
Qed.

(** *** [_parse_number] on digit strings *)

Lemma run_int_Return s base z self :
  Py.int_of_str s base = inr z -> run (int s base) self = Return z.
Proof. unfold run, int. intros ->. reflexivity. Qed.

Lemma parse_number_hex_prefix body self :
  Forall (fun c => Py.isspace c = false) body ->
  run (_parse_number ("0"%char :: "x"%char :: body)) self =
  run (int body 16) self.
Proof.
  intros H. unfold run, _parse_number.
  rewrite strip_nospace by (repeat constructor; exact H).
  reflexivity.
Qed.

Lemma parse_number_decimal s self :
  Forall (fun c => Py.isspace c = false) s ->
  Py.startswith s "0x" = false ->
  run (_parse_number s) self = run (int s 10) self.
Proof.
  intros H Hp. unfold run, _parse_number.
  rewrite strip_nospace by exact H. rewrite Hp. reflexivity.
Qed.

Lemma hexdigits_digit_of ds :
  Forall (fun c => In c hexdigits) ds -> Forall (digit_of 16) ds.
Proof.
  intros H. eapply Forall_impl; [| exact H]. apply hexdigit_digit_of.
Qed.

Lemma digits10_digit_of ds :
  Forall (fun c => In c digits10) ds -> Forall (digit_of 10) ds.
Proof.
  intros H. eapply Forall_impl; [| exact H]. apply digit10_digit_of.
Qed.

(** ** Stripping, splitting and comments *)

(* Character tests stay folded from here on. *)
Arguments Py.chr_eqb : simpl never.
Arguments Py.isspace : simpl never.

Lemma chr_eqb_sym a b : Py.chr_eqb a b = Py.chr_eqb b a.
Proof. apply Ascii.eqb_sym. Qed.

Lemma lstrip_app a b :
  Py.lstrip (a ++ b) =
  match Py.lstrip a with
  | [] => Py.lstrip b
  | la => la ++ b
  end.
Proof.
  unfold Py.lstrip. induction a as [| c t IH]; cbn.
  - destruct (Py.drop_while Py.isspace b); reflexivity.
  - destruct (Py.isspace c); [exact IH | reflexivity].
Qed.

Lemma rstrip_app a b :
  Py.rstrip (a ++ b) =
  match Py.rstrip b with
  | [] => Py.rstrip a
  | rb => a ++ rb
  end.
Proof.
  induction a as [| c t IH]; cbn [app Py.rstrip].
  - destruct (Py.rstrip b); reflexivity.
  - rewrite IH. destruct (Py.rstrip b) as [| x rb]; [reflexivity |].
    destruct (t ++ x :: rb) eqn:E; [| reflexivity].
    destruct t; discriminate E.
Qed.

Lemma rstrip_app_nonspace a c b :
  Py.isspace c = false ->
  Py.rstrip (a ++ c :: b) = a ++ c :: Py.rstrip b.
Proof.
  intros H. rewrite rstrip_app, rstrip_cons by exact H. reflexivity.
Qed.

Lemma lstrip_spaces ws :
  Forall (fun c => Py.isspace c = true) ws -> Py.lstrip ws = [].
Proof.
  unfold Py.lstrip. induction 1 as [| c t Hc _ IH]; cbn; [reflexivity |].
  rewrite Hc. exact IH.
Qed.

Lemma rstrip_spaces ws :
  Forall (fun c => Py.isspace c = true) ws -> Py.rstrip ws = [].
Proof.
  induction 1 as [| c t Hc _ IH]; cbn; [reflexivity |].
  rewrite IH, Hc. reflexivity.
Qed.

Lemma strip_app_spaces_l ws s :
  Forall (fun c => Py.isspace c = true) ws ->
  Py.strip (ws ++ s) = Py.strip s.
Proof.
  intros H. unfold Py.strip. rewrite lstrip_app, (lstrip_spaces ws H).
  reflexivity.
Qed.

Lemma strip_app_spaces_r s ws :
  Forall (fun c => Py.isspace c = true) ws ->
  Py.strip (s ++ ws) = Py.strip s.
Proof.
  intros H. unfold Py.strip. rewrite lstrip_app.
  destruct (Py.lstrip s) as [| c t] eqn:E.
  - rewrite (lstrip_spaces ws H). reflexivity.
  - rewrite rstrip_app, (rstrip_spaces ws H). reflexivity.
Qed.

(** [parse_line] sees a line through its stripped form only. *)
Lemma parsed_strip l l' : Py.strip l = Py.strip l' -> parsed l = parsed l'.
Proof. intros H. unfold parsed, code_of. rewrite H. reflexivity. Qed.

Lemma contains_app c a b :
  Py.contains c (a ++ b) = Py.contains c a || Py.contains c b.
Proof. unfold Py.contains. apply existsb_app. Qed.

Lemma contains_sep sep a b : Py.contains sep (a ++ sep :: b) = true.
Proof.
  rewrite contains_app. cbn. rewrite chr_eqb_refl. apply orb_true_r.
Qed.

Lemma contains_decomp sep u :
  Py.contains sep u = true ->
  exists a b, u = a ++ sep :: b /\ Py.contains sep a = false.
Proof.
  unfold Py.contains. induction u as [| y u IH]; cbn; [discriminate |].
  destruct (Py.chr_eqb sep y) eqn:E; cbn.
  - intros _. apply chr_eqb_eq in E. subst y. exists [], u. auto.
  - intros H. destruct (IH H) as (a & b & -> & Ha).
    exists (y :: a), b. cbn. rewrite E. auto.
Qed.

Lemma split_none sep a :
  Py.contains sep a = false -> Py.split sep a = [a].
Proof.
  unfold Py.contains. induction a as [| y a IH]; cbn; [reflexivity |].
  rewrite (chr_eqb_sym y sep).
  destruct (Py.chr_eqb sep y); cbn; [discriminate |].
  intros H. rewrite (IH H). reflexivity.
Qed.

Lemma split_app sep a b :
  Py.contains sep a = false ->
  Py.split sep (a ++ sep :: b) = a :: Py.split sep b.
Proof.
  unfold Py.contains. induction a as [| y a IH]; cbn.
  - rewrite chr_eqb_refl. reflexivity.
  - rewrite (chr_eqb_sym y sep).
    destruct (Py.chr_eqb sep y); cbn; [discriminate |].
    intros H. rewrite (IH H). reflexivity.
Qed.

(** The text before the first separator is not changed by what follows
    a later separator. *)
Lemma hd_split_app sep u c :
  hd [] (Py.split sep (u ++ sep :: c)) = hd [] (Py.split sep u).
Proof.
  destruct (Py.contains sep u) eqn:E.
  - destruct (contains_decomp sep u E) as (a & b & -> & Ha).
    rewrite <- app_assoc. cbn [app].
    rewrite (split_app sep a (b ++ sep :: c)), (split_app sep a b)
      by exact Ha.
    reflexivity.
  - rewrite (split_app sep u c), (split_none sep u) by exact E. reflexivity.
Qed.

Lemma contains_rstrip sep u :
  Py.isspace sep = false ->
  Py.contains sep (Py.rstrip u) = Py.contains sep u.
Proof.
  intros Hs. destruct (Py.contains sep u) eqn:E.
  - destruct (contains_decomp sep u E) as (a & b & -> & Ha).
    rewrite rstrip_app_nonspace by exact Hs.
    rewrite contains_app. cbn. rewrite chr_eqb_refl. apply orb_true_r.
  - revert E. unfold Py.contains. induction u as [| y u IH]; cbn; [reflexivity |].
    destruct (Py.chr_eqb sep y) eqn:Ey; cbn; [discriminate |].
    intros H. specialize (IH H).
    destruct (Py.rstrip u) as [| r rs].
    + destruct (Py.isspace y); cbn; [reflexivity |]. rewrite Ey. reflexivity.
    + cbn. rewrite Ey. exact IH.
Qed.

Lemma hd_split_rstrip sep u :
  Py.isspace sep = false -> Py.contains sep u = true ->
  hd [] (Py.split sep (Py.rstrip u)) = hd [] (Py.split sep u).
Proof.
  intros Hs E. destruct (contains_decomp sep u E) as (a & b & -> & Ha).
  rewrite rstrip_app_nonspace by exact Hs.
  rewrite (split_app sep a (Py.rstrip b)), (split_app sep a b) by exact Ha.
  reflexivity.
Qed.

(** The code of a line whose left-stripped form is [u], from [u]. *)
Lemma code_of_lstrip line x t :
  Py.lstrip line = x :: t ->
  code_of line =
  if Py.contains ";" (x :: t)
  then Py.strip (hd [] (Py.split ";" (x :: t)))
  else Py.rstrip (x :: t).
Proof.
  intros E. unfold code_of, Py.strip. cbn zeta. rewrite E.
  rewrite contains_rstrip by reflexivity.
  destruct (Py.contains ";" (x :: t)) eqn:Ec; [| reflexivity].
  rewrite hd_split_rstrip by (reflexivity || exact Ec). reflexivity.
Qed.

Lemma lstrip_idem s : Py.lstrip (Py.lstrip s) = Py.lstrip s.
Proof.
  destruct (lstrip_head s) as [-> | (c & t & -> & H)]; [reflexivity |].
  apply lstrip_cons, H.
Qed.

(** The test of line 24 on a line that is not empty. *)
Lemma skip_test_cons x r :
  Py.str_eqb (x :: r) "" || Py.startswith (x :: r) ";" =
  Py.chr_eqb x ";"%char.
Proof. cbn. apply andb_true_r. Qed.

(** A comment after a line does not change what [parse_line] returns. *)
Lemma parsed_comment line comment :
  parsed (line ++ ";"%char :: comment) = parsed line.
Proof.
  destruct (lstrip_head line) as [E | (x & t & E & Hx)].
  - assert (H1 : Py.strip line = []) by (unfold Py.strip; rewrite E; reflexivity).
    assert (H2 : Py.strip (line ++ ";"%char :: comment) =
                 ";"%char :: Py.rstrip comment).
    { unfold Py.strip. rewrite lstrip_app, E.
      rewrite lstrip_cons by reflexivity. apply rstrip_cons. reflexivity. }
    unfold parsed. rewrite H1, H2. reflexivity.
  - assert (E' : Py.lstrip (line ++ ";"%char :: comment) =
                 x :: t ++ ";"%char :: comment).
    { rewrite lstrip_app, E. reflexivity. }
    assert (H1 : Py.strip line = x :: Py.rstrip t).
    { unfold Py.strip. rewrite E. apply rstrip_cons, Hx. }
    assert (H2 : Py.strip (line ++ ";"%char :: comment) =
                 x :: Py.rstrip (t ++ ";"%char :: comment)).
    { unfold Py.strip. rewrite E'. apply rstrip_cons, Hx. }
    unfold parsed. rewrite H1, H2, !skip_test_cons.
    destruct (Py.chr_eqb x ";"%char); [reflexivity |].
    rewrite (code_of_lstrip _ _ _ E), (code_of_lstrip _ _ _ E').
    change (x :: t ++ ";"%char :: comment)
      with ((x :: t) ++ ";"%char :: comment).
    rewrite contains_sep, hd_split_app.
    destruct (Py.contains ";"%char (x :: t)) eqn:Ec; [reflexivity |].
    rewrite split_none by exact Ec. cbn [hd].
    unfold Py.strip. rewrite lstrip_cons by exact Hx. reflexivity.
Qed.

(** ** The mnemonic token *)

Lemma token_chr_spec c :
  token_chr c = true <->
  Py.isspace c = false /\ Py.chr_eqb c ";"%char = false.
Proof.
  unfold token_chr. rewrite andb_true_iff, !negb_true_iff. reflexivity.
Qed.

Lemma token_chr_upper c : token_chr (Py.upper_chr c) = token_chr c.
Proof. unfold token_chr. rewrite isspace_upper, semicolon_upper. reflexivity. Qed.

Lemma token_upper m m' :
  Py.upper m' = Py.upper m ->
  Forall (fun c => token_chr c = true) m ->
  Forall (fun c => token_chr c = true) m'.
Proof.
  unfold Py.upper. revert m'. induction m as [| c m IH]; intros [| c' m'] E H;
    try discriminate E; constructor; inversion E; inversion H; subst.
  - rewrite <- token_chr_upper. rewrite H1. rewrite token_chr_upper. assumption.
  - apply IH; assumption.
Qed.

Lemma token_nospace m :
  Forall (fun c => token_chr c = true) m ->
  Forall (fun c => Py.isspace c = false) m.
Proof.
  intros H. eapply Forall_impl; [| exact H].
  intros c Hc. apply token_chr_spec in Hc. apply Hc.
Qed.

Lemma token_no_semicolon m :
  Forall (fun c => token_chr c = true) m -> Py.contains ";" m = false.
Proof.
  unfold Py.contains. induction 1 as [| c t Hc _ IH]; cbn; [reflexivity |].
  apply token_chr_spec in Hc. destruct Hc as (_ & Hc).
  rewrite chr_eqb_sym, Hc. exact IH.
Qed.

Lemma rstrip_token_app m a :
  Forall (fun c => Py.isspace c = false) m ->
  Py.rstrip (m ++ a) = m ++ Py.rstrip a.
Proof.
  intros H. rewrite rstrip_app, (rstrip_nospace m H).
  destruct (Py.rstrip a); [rewrite app_nil_r |]; reflexivity.
Qed.

Lemma hd_split_prefix sep m rest :
  Py.contains sep m = false ->
  hd [] (Py.split sep (m ++ rest)) = m ++ hd [] (Py.split sep rest).
Proof.
  intros H. destruct (Py.contains sep rest) eqn:E.
  - destruct (contains_decomp sep rest E) as (a & b & -> & Ha).
    rewrite app_assoc.
    rewrite (split_app sep (m ++ a) b), (split_app sep a b);
      [reflexivity | exact Ha |].
    rewrite contains_app, H, Ha. reflexivity.
  - rewrite (split_none sep rest E), split_none; [reflexivity |].
    rewrite contains_app, H, E. reflexivity.
Qed.

(** What is left of the line behind the mnemonic once the comment and the
    spaces at the end are gone. *)
Lemma code_of_token m rest :
  m <> [] -> Forall (fun c => token_chr c = true) m ->
  code_of (m ++ rest) = m ++ Py.rstrip (hd [] (Py.split ";" rest)).
Proof.
  intros Hne Hm. destruct m as [| x m0]; [contradiction |].
  assert (Hsp := token_nospace _ Hm).
  assert (Hx : Py.isspace x = false) by (inversion Hsp; assumption).
  assert (Hsemi := token_no_semicolon _ Hm).
  rewrite (code_of_lstrip _ x (m0 ++ rest)) by (apply lstrip_cons, Hx).
  change (x :: m0 ++ rest) with ((x :: m0) ++ rest).
  rewrite contains_app, Hsemi. cbn [orb].
  destruct (Py.contains ";" rest) eqn:E.
  - rewrite hd_split_prefix by exact Hsemi.
    unfold Py.strip. cbn [app]. rewrite lstrip_cons by exact Hx.
    apply (rstrip_token_app (x :: m0)), Hsp.
  - rewrite (split_none _ rest E). cbn [hd].
    apply (rstrip_token_app (x :: m0)), Hsp.
Qed.

Lemma split_ws_token m R :
  m <> [] -> Forall (fun c => Py.isspace c = false) m ->
  match R with [] => True | c :: _ => Py.isspace c = true end ->
  Py.split_ws (m ++ R) = m :: Py.split_ws R.
Proof.
  intros Hne Hm HR. induction Hm as [| x m0 Hx Hm0 IH]; [contradiction |].
  destruct m0 as [| y m1].
  - cbn [app]. cbn [Py.split_ws]. rewrite Hx.
    destruct R as [| c t]; [reflexivity |]. rewrite HR. reflexivity.
  - assert (Hy : Py.isspace y = false) by (inversion Hm0; assumption).
    change ((x :: y :: m1) ++ R) with (x :: (y :: m1) ++ R).
    cbn [Py.split_ws]. rewrite Hx. cbn [app]. rewrite Hy.
    change (y :: m1 ++ R) with ((y :: m1) ++ R).
    rewrite IH by discriminate. reflexivity.
Qed.

(** After a mnemonic's end the stripped remainder is empty or starts with
    a space. *)
Lemma token_end_tail rest :
  token_end rest ->
  match Py.rstrip (hd [] (Py.split ";" rest)) with
  | [] => True
  | c :: _ => Py.isspace c = true
  end.
Proof.
  destruct rest as [| c t]; [intros _; exact I |].
  unfold token_end, token_chr. intros H.
  destruct (Py.chr_eqb c ";"%char) eqn:Ec.
  - cbn [Py.split]. rewrite Ec. exact I.
  - rewrite split_cons_other by exact Ec. cbn [hd].
    cbn [negb] in H. rewrite andb_true_r in H.
    apply negb_false_iff in H.
    cbn [Py.rstrip]. destruct (Py.rstrip _); [rewrite H; exact I | exact H].
Qed.

(** [parse_line] on a mnemonic followed by the rest of the line: the
    arguments depend on the rest only. *)
Lemma parsed_token m rest :
  m <> [] -> Forall (fun c => token_chr c = true) m -> token_end rest ->
  parsed (m ++ rest) =
  Some (Py.upper m,
        args_of (Py.split_ws (Py.rstrip (hd [] (Py.split ";" rest))))).
Proof.
  intros Hne Hm Hrest. unfold parsed.
  rewrite (code_of_token m rest Hne Hm).
  rewrite split_ws_token;
    [| exact Hne | exact (token_nospace _ Hm) | exact (token_end_tail _ Hrest)].
  destruct m as [| x m0]; [contradiction |].
  assert (Hx : token_chr x = true) by (inversion Hm; assumption).
  apply token_chr_spec in Hx. destruct Hx as (Hsp & Hsemi).
  cbn [app]. rewrite strip_cons by exact Hsp.
  rewrite skip_test_cons, Hsemi. reflexivity.
Qed.

(** ** A comma at the end of the instruction *)

Lemma split_ws_last b c :
  Py.isspace c = false ->
  exists ws w, Py.split_ws (b ++ [c]) = ws ++ [w ++ [c]].
Proof.
  intros Hc. induction b as [| x b (ws & w & IH)].
  - exists [], []. cbn. rewrite Hc. reflexivity.
  - cbn [app Py.split_ws]. destruct (Py.isspace x); [eauto |].
    destruct (b ++ [c]) as [| c' t] eqn:E; [destruct b; discriminate E |].
    destruct (Py.isspace c').
    + exists ([x] :: ws), w. rewrite IH. reflexivity.
    + rewrite IH. destruct ws as [| w0 ws].
      * exists [], (x :: w). reflexivity.
      * exists ((x :: w0) :: ws), w. reflexivity.
Qed.

Lemma join_last sep xs y c :
  exists p, Py.join sep (xs ++ [y ++ [c]]) = p ++ [c].
Proof.
  induction xs as [| x xs (p & IH)].
  - exists y. reflexivity.
  - cbn [app Py.join]. destruct (xs ++ [y ++ [c]]) as [| z zs] eqn:E;
      [destruct xs; discriminate E |].
    rewrite IH. exists (x ++ sep ++ p). rewrite <- !app_assoc. reflexivity.
Qed.

Lemma split_snoc_sep sep p :
  Py.split sep (p ++ [sep]) = Py.split sep p ++ [[]].
Proof.
  induction p as [| x p IH]; cbn.
  - rewrite chr_eqb_refl. reflexivity.
  - destruct (Py.chr_eqb x sep); rewrite IH; [reflexivity |].
    destruct (split_nonempty sep p) as (h & r & ->). reflexivity.
Qed.

Lemma args_of_last ws w :
  ws <> [] -> exists args, args_of (ws ++ [w ++ [","%char]]) = args ++ [[]].
Proof.
  intros Hne. unfold args_of.
  destruct (ws ++ [w ++ [","%char]]) as [| z zs] eqn:E;
    [destruct ws; discriminate E |].
  rewrite <- E. destruct (join_last " " ws w ","%char) as (p & ->).
  rewrite split_snoc_sep, map_app. eauto.
Qed.

Lemma decode_all_last_empty args :
  exists e, decode_all (args ++ [[]]) = Raise e.
Proof.
  induction args as [| a t (e & IH)]; cbn [app decode_all].
  - exists (InvalidNumber 10 []). reflexivity.
  - destruct (decode a); [rewrite IH |]; eauto.
Qed.

(** An empty last argument never encodes. *)
Lemma encoding_last_empty m args :
  exists e, encoding (m, args ++ [[]]) = Raise e.
Proof.
  unfold encoding.
  destruct (tables_agree m) as
    [(opcode & n & message & -> & -> & -> & _) | (-> & _)]; [| eauto].
  destruct (decode_all_last_empty args) as (e & ->).
  match goal with
  | |- context [if ?b then _ else _] => destruct b
  end; eauto.
Qed.

Lemma str_eqb_snoc_neq w c key :
  last key c <> c -> Py.str_eqb (w ++ [c]) key = false.
Proof.
  intros H. apply str_eqb_neq. intros E. apply H. rewrite <- E.
  apply last_last.
Qed.

(** No mnemonic of the table ends in a comma. *)
Lemma encoding_comma_mnemonic w args :
  exists e, encoding (w ++ [","%char], args) = Raise e.
Proof.
  unfold encoding. cbn [Py.dict_get mnemonics __init__].
  rewrite !str_eqb_snoc_neq by (cbn; discriminate). eauto.
Qed.

Lemma upper_snoc_comma w :
  Py.upper (w ++ [","%char]) = Py.upper w ++ [","%char].
Proof. unfold Py.upper. rewrite map_app. reflexivity. Qed.

(** A line whose instruction text ends in a comma parses to an
    instruction that does not encode. *)
Lemma parsed_trailing_comma line body :
  code_of line = body ++ [","%char] ->
  exists ins, parsed line = Some ins /\ invalid ins.
Proof.
  intros Hcode. unfold parsed, invalid.
  assert (Htest : Py.str_eqb (Py.strip line) "" ||
                  Py.startswith (Py.strip line) ";" = false).
  { destruct (Py.strip line) as [| x r] eqn:E.
    - unfold code_of in Hcode. cbn zeta in Hcode. rewrite E in Hcode.
      cbn in Hcode. destruct body; discriminate Hcode.
    - rewrite skip_test_cons. destruct (Py.chr_eqb x ";"%char) eqn:Ex;
        [| reflexivity].
      apply chr_eqb_eq in Ex. subst x.
      unfold code_of in Hcode. cbn zeta in Hcode. rewrite E in Hcode.
      cbn in Hcode. destruct body; discriminate Hcode. }
  rewrite Htest, Hcode.
  destruct (split_ws_last body ","%char eq_refl) as (ws & w & ->).
  destruct ws as [| first ws].
  - cbn [app]. eexists. split; [reflexivity |].
    rewrite encode_eq, upper_snoc_comma. apply encoding_comma_mnemonic.
  - cbn [app].
    destruct ws as [| w1 ws].
    + eexists. split; [reflexivity |]. rewrite encode_eq.
      cbn [app args_of Py.join]. rewrite split_snoc_sep, map_app.
      apply encoding_last_empty.
    + destruct (args_of_last (w1 :: ws) w ltac:(discriminate)) as (args & ->).
      eexists. split; [reflexivity |]. rewrite encode_eq.
      apply encoding_last_empty.
Qed.

(** ** Lines of a source *)

Lemma split_app_lines sep a b :
  Py.split sep (a ++ sep :: b) = Py.split sep a ++ Py.split sep b.
Proof.
  induction a as [| x a IH]; cbn.
  - rewrite chr_eqb_refl. reflexivity.
  - destruct (Py.chr_eqb x sep); rewrite IH; [reflexivity |].
    destruct (split_nonempty sep a) as (h & r & ->). reflexivity.
Qed.

Lemma instructions_app a b :
  instructions (a ++ newline :: b) = instructions a ++ instructions b.
Proof.
  unfold instructions. rewrite split_app_lines. apply flat_map_app.
Qed.

Lemma instructions_unlines lines :
  instructions (unlines lines) = flat_map instructions lines.
Proof.
  unfold unlines. induction lines as [| l t IH]; [reflexivity |].
  cbn [Py.join flat_map]. destruct t as [| l' t'].
  - cbn [flat_map]. rewrite app_nil_r. reflexivity.
  - cbn [app]. rewrite instructions_app, IH. reflexivity.
Qed.

Lemma instructions_line l :
  no_newline l -> instructions l = instruction_of l.
Proof.
  intros H. unfold instructions. rewrite split_none.
  - cbn. apply app_nil_r.
  - unfold Py.contains. apply not_true_is_false. intros E.
    apply existsb_exists in E. destruct E as (x & Hx & E).
    apply chr_eqb_eq in E. subst x. exact (H Hx).
Qed.

(** [assemble] sees a source through its instructions only. *)
Lemma assemble_instructions src src' self :
  instructions src = instructions src' ->
  assemble src self = assemble src' self.
Proof.
  intros H. unfold assemble, bind. rewrite !parse_source_eq, H. reflexivity.
Qed.

(** Lines with the same instruction can be exchanged in a source. *)
Lemma assemble_exchange before l l' after self :
  no_newline l -> no_newline l' -> parsed l = parsed l' ->
  assemble (unlines (before ++ l :: after)) self =
  assemble (unlines (before ++ l' :: after)) self.
Proof.
  intros Hl Hl' H. apply assemble_instructions.
  rewrite !instructions_unlines, !flat_map_app. cbn [flat_map].
  rewrite !instructions_line by assumption.
  unfold instruction_of. rewrite H. reflexivity.
Qed.

(** ** Spaces inside the argument list *)

Lemma split_ws_space c s :
  Py.isspace c = true -> Py.split_ws (c :: s) = Py.split_ws s.
Proof. intros H. cbn [Py.split_ws]. rewrite H. reflexivity. Qed.

Lemma split_ws_words s : Forall (fun w => w <> []) (Py.split_ws s).
Proof.
  induction s as [| c t IH]; [constructor |].
  cbn [Py.split_ws]. destruct (Py.isspace c); [exact IH |].
  destruct t as [| c' t']; [repeat constructor; discriminate |].
  destruct (Py.isspace c'); [constructor; [discriminate | exact IH] |].
  destruct (Py.split_ws (c' :: t')) as [| w r];
    [repeat constructor; discriminate |].
  inversion IH; subst. constructor; [discriminate | assumption].
Qed.

Lemma join_cons sep w r :
  Py.join sep (w :: r) =
  match r with
  | [] => w
  | _ :: _ => w ++ sep ++ Py.join sep r
  end.
Proof. destruct r; reflexivity. Qed.

Lemma join_nil sep ws :
  Forall (fun w => w <> []) ws -> Py.join sep ws = [] -> ws = [].
Proof.
  intros H E. destruct H as [| w r Hw _]; [reflexivity |].
  rewrite join_cons in E. destruct w; [contradiction |].
  destruct r; discriminate E.
Qed.

Lemma normalize_nil_iff s : normalize s = [] <-> Py.split_ws s = [].
Proof.
  unfold normalize. split.
  - apply join_nil, split_ws_words.
  - intros ->. reflexivity.
Qed.

Lemma normalize_space c s :
  Py.isspace c = true -> normalize (c :: s) = normalize s.
Proof. intros H. unfold normalize. rewrite split_ws_space by exact H. reflexivity. Qed.

Lemma normalize_last c : Py.isspace c = false -> normalize [c] = [c].
Proof. intros H. unfold normalize. cbn [Py.split_ws]. rewrite H. reflexivity. Qed.

Lemma normalize_glue c c' s :
  Py.isspace c = false -> Py.isspace c' = false ->
  normalize (c :: c' :: s) = c :: normalize (c' :: s).
Proof.
  intros H H'. unfold normalize.
  destruct (split_ws_cons c' s H') as (w & r & E).
  cbn [Py.split_ws]. rewrite H, H'.
  cbn [Py.split_ws] in E. rewrite H' in E. rewrite E.
  rewrite !join_cons. destruct r; reflexivity.
Qed.

Lemma normalize_gap c c' s :
  Py.isspace c = false -> Py.isspace c' = true ->
  normalize (c :: c' :: s) =
  match normalize s with
  | [] => [c]
  | n => c :: " "%char :: n
  end.
Proof.
  intros H H'.
  assert (E : Py.split_ws (c :: c' :: s) = [c] :: Py.split_ws s).
  { cbn [Py.split_ws]. rewrite H, H'. reflexivity. }
  destruct (normalize s) as [| x n] eqn:En.
  - apply normalize_nil_iff in En. unfold normalize. rewrite E, En. reflexivity.
  - unfold normalize. rewrite E, join_cons.
    destruct (Py.split_ws s) as [| w r] eqn:Ew.
    + unfold normalize in En. rewrite Ew in En. discriminate En.
    + unfold normalize in En. rewrite Ew in En. rewrite En. reflexivity.
Qed.

Lemma normalize_starts s : starts_nonspace (normalize s).
Proof.
  induction s as [| c t IH]; [exact I |].
  destruct (Py.isspace c) eqn:Hc.
  - rewrite normalize_space by exact Hc. exact IH.
  - destruct t as [| c' t']; [rewrite normalize_last by exact Hc; exact Hc |].
    destruct (Py.isspace c') eqn:Hc'.
    + rewrite normalize_gap by assumption.
      destruct (normalize t'); exact Hc.
    + rewrite normalize_glue by assumption. exact Hc.
Qed.

Lemma strip_starts s : starts_nonspace s -> Py.strip s = Py.rstrip s.
Proof.
  destruct s as [| c t]; [reflexivity |]. cbn [starts_nonspace]. intros H.
  unfold Py.strip. rewrite lstrip_cons by exact H. reflexivity.
Qed.

Lemma hd_split_starts sep s :
  starts_nonspace s -> starts_nonspace (hd [] (Py.split sep s)).
Proof.
  destruct s as [| c t]; [intros _; exact I |]. cbn [starts_nonspace].
  intros H. cbn [Py.split]. destruct (Py.chr_eqb c sep); [exact I |].
  destruct (split_nonempty sep t) as (p & r & ->). exact H.
Qed.

Lemma split_cons_sep sep s : Py.split sep (sep :: s) = [] :: Py.split sep s.
Proof. cbn [Py.split]. rewrite chr_eqb_refl. reflexivity. Qed.

(** A space in front of the text does not change the stripped pieces. *)
Lemma strip_pieces_space c s :
  Py.isspace c = true ->
  map Py.strip (Py.split "," (c :: s)) = map Py.strip (Py.split "," s).
Proof.
  intros H. assert (Hc : Py.chr_eqb c ","%char = false).
  { destruct (Py.chr_eqb c ","%char) eqn:E; [| reflexivity].
    apply chr_eqb_eq in E. subst c. discriminate H. }
  rewrite split_cons_other by exact Hc.
  destruct (split_nonempty ","%char s) as (p & r & ->). cbn [hd tl map].
  f_equal. apply (strip_app_spaces_l [c] p). repeat constructor. exact H.
Qed.

(** Splitting the joined words at the commas and stripping the pieces
    gives the pieces of the text, each with its spaces normalized. *)
Lemma args_normalize s :
  map Py.strip (Py.split "," (normalize s)) =
  map normalize (Py.split "," s).
Proof.
  induction s as [| c s IH]; [reflexivity |].
  destruct (Py.isspace c) eqn:Hc.
  { (* a space *)
    rewrite normalize_space by exact Hc. rewrite IH.
    assert (Hcomma : Py.chr_eqb c ","%char = false).
    { destruct (Py.chr_eqb c ","%char) eqn:E; [| reflexivity].
      apply chr_eqb_eq in E. subst c. discriminate Hc. }
    rewrite (split_cons_other ","%char c s Hcomma).
    destruct (split_nonempty ","%char s) as (p & r & ->). cbn [hd tl map].
    rewrite normalize_space by exact Hc. reflexivity. }
  destruct (Py.chr_eqb c ","%char) eqn:Hcomma.
  { (* a comma *)
    apply chr_eqb_eq in Hcomma. subst c.
    rewrite (split_cons_sep ","%char s). cbn [map].
    change (normalize []) with (@nil ascii). rewrite <- IH.
    destruct s as [| c' s'].
    - reflexivity.
    - destruct (Py.isspace c') eqn:Hc'.
      + rewrite normalize_gap by assumption.
        rewrite (normalize_space c' s' Hc').
        destruct (normalize s') as [| x n]; [reflexivity |].
        rewrite split_cons_sep. cbn [map]. f_equal.
        apply strip_pieces_space. reflexivity.
      + rewrite normalize_glue by assumption.
        rewrite split_cons_sep. reflexivity. }
  (* another character *)
  rewrite (split_cons_other ","%char c s Hcomma).
  destruct (Py.split ","%char s) as [| p r] eqn:Es;
    [destruct (split_nonempty ","%char s) as (? & ? & E); congruence |].
  cbn [hd tl map].
  destruct s as [| c' s'].
  - inversion Es; subst. rewrite normalize_last by exact Hc.
    rewrite (split_cons_other ","%char c [] Hcomma). cbn [Py.split hd tl map].
    rewrite strip_cons by exact Hc. reflexivity.
  - destruct (Py.isspace c') eqn:Hc'.
    + assert (Hcomma' : Py.chr_eqb c' ","%char = false).
      { destruct (Py.chr_eqb c' ","%char) eqn:E; [| reflexivity].
        apply chr_eqb_eq in E. subst c'. discriminate Hc'. }
      rewrite (split_cons_other ","%char c' s' Hcomma') in Es.
      inversion Es as [[Ep Er]]. clear Es. subst p r.
      rewrite normalize_gap by assumption.
      rewrite (normalize_space c' s' Hc') in IH.
      rewrite (normalize_gap c c' _ Hc Hc').
      destruct (split_nonempty ","%char (normalize s')) as (q & r' & Eq).
      rewrite Eq in IH. cbn [map] in IH. inversion IH as [[Hq Hr]].
      rewrite (normalize_space c' _ Hc') in Hq.
      assert (Hsq : Py.strip q = Py.rstrip q).
      { apply strip_starts. replace q with (hd [] (Py.split ","%char (normalize s')))
          by (rewrite Eq; reflexivity).
        apply hd_split_starts, normalize_starts. }
      destruct (normalize s') as [| x n] eqn:En.
      * cbn in Eq. inversion Eq; subst q r'.
        change (Py.strip []) with (@nil ascii) in Hq. rewrite <- Hq.
        rewrite (split_cons_other ","%char c [] Hcomma).
        cbn [Py.split hd tl map].
        rewrite strip_cons by exact Hc. reflexivity.
      * rewrite (split_cons_other ","%char c _ Hcomma).
        rewrite (split_cons_other ","%char " "%char _ eq_refl).
        rewrite Eq. cbn [hd tl map]. f_equal.
        rewrite strip_cons by exact Hc. rewrite <- Hq, Hsq.
        cbn [Py.rstrip]. destruct (Py.rstrip q); reflexivity.
    + rewrite normalize_glue by assumption.
      rewrite (split_cons_other ","%char c _ Hcomma).
      destruct (split_nonempty ","%char (normalize (c' :: s'))) as (q & r' & Eq).
      rewrite Eq in IH |- *. cbn [hd tl map] in IH |- *.
      inversion IH as [[Hq Hr]]. f_equal.
      rewrite strip_cons by exact Hc.
      assert (Hsq : Py.strip q = Py.rstrip q).
      { apply strip_starts. replace q with
          (hd [] (Py.split ","%char (normalize (c' :: s'))))
          by (rewrite Eq; reflexivity).
        apply hd_split_starts, normalize_starts. }
      rewrite <- Hsq, Hq.
      destruct (Py.chr_eqb c' ","%char) eqn:Hcomma'.
      * apply chr_eqb_eq in Hcomma'. subst c'.
        rewrite split_cons_sep in Es. inversion Es; subst.
        rewrite normalize_last by exact Hc. reflexivity.
      * rewrite (split_cons_other ","%char c' s' Hcomma') in Es.
        inversion Es as [[Ep Er]].
        rewrite normalize_glue by assumption. reflexivity.
Qed.

Lemma split_ws_spaces ws :
  Forall (fun c => Py.isspace c = true) ws -> Py.split_ws ws = [].
Proof.
  induction 1 as [| c t Hc _ IH]; [reflexivity |].
  rewrite split_ws_space by exact Hc. exact IH.
Qed.

Lemma split_ws_app_spaces ws s :
  Forall (fun c => Py.isspace c = true) ws ->
  Py.split_ws (ws ++ s) = Py.split_ws s.
Proof.
  induction 1 as [| c t Hc _ IH]; [reflexivity |].
  cbn [app]. rewrite split_ws_space by exact Hc. exact IH.
Qed.

Lemma split_ws_unfold c t :
  Py.split_ws (c :: t) =
  if Py.isspace c then Py.split_ws t
  else match t with
       | [] => [[c]]
       | c' :: _ =>
           if Py.isspace c' then [c] :: Py.split_ws t
           else match Py.split_ws t with
                | word :: rest => (c :: word) :: rest
                | [] => [[c]]
                end
       end.
Proof. reflexivity. Qed.

Lemma split_ws_rstrip s : Py.split_ws (Py.rstrip s) = Py.split_ws s.
Proof.
  induction s as [| c t IH]; [reflexivity |].
  cbn [Py.rstrip]. destruct (Py.rstrip t) as [| x r] eqn:Er.
  - cbn [Py.split_ws] in IH.
    destruct (Py.isspace c) eqn:Hc.
    + rewrite split_ws_space by exact Hc. exact IH.
    + cbn [Py.split_ws]. rewrite Hc.
      destruct t as [| c' t']; [reflexivity |].
      destruct (Py.isspace c') eqn:Hc'; [rewrite <- IH; reflexivity |].
      destruct (split_ws_cons c' t' Hc') as (w & r' & E).
      rewrite E in IH. discriminate IH.
  - assert (Hhd : exists t', t = x :: t').
    { destruct t as [| y t']; [discriminate Er |]. exists t'.
      cbn [Py.rstrip] in Er. destruct (Py.rstrip t').
      - destruct (Py.isspace y); [discriminate Er | inversion Er; reflexivity].
      - inversion Er. reflexivity. }
    destruct Hhd as (t' & ->).
    rewrite (split_ws_unfold c (x :: r)), (split_ws_unfold c (x :: t')).
    destruct (Py.isspace c); [exact IH |].
    destruct (Py.isspace x); rewrite IH; reflexivity.
Qed.

Lemma split_ws_not_nil s c :
  In c s -> Py.isspace c = false -> Py.split_ws s <> [].
Proof.
  intros Hin Hc. induction s as [| x t IH]; [contradiction |].
  destruct (Py.isspace x) eqn:Hx.
  - rewrite split_ws_space by exact Hx. apply IH.
    destruct Hin as [-> | Hin]; [congruence | exact Hin].
  - destruct (split_ws_cons x t Hx) as (w & r & ->). discriminate.
Qed.

(** The arguments in terms of the text: its pieces, normalized. *)
Lemma args_of_normalize R :
  args_of (Py.split_ws R) =
  match Py.split_ws R with
  | [] => []
  | _ :: _ => map normalize (Py.split "," R)
  end.
Proof.
  unfold args_of. destruct (Py.split_ws R) as [| w r] eqn:E; [reflexivity |].
  rewrite <- E. apply args_normalize.
Qed.

Lemma split_join sep parts :
  parts <> [] -> Forall (fun p => Py.contains sep p = false) parts ->
  Py.split sep (Py.join [sep] parts) = parts.
Proof.
  intros Hne H. induction H as [| p r Hp Hr IH]; [contradiction |].
  rewrite join_cons. destruct r as [| q r].
  - apply split_none, Hp.
  - cbn [app]. rewrite split_app by exact Hp.
    rewrite IH by discriminate. reflexivity.
Qed.

Lemma contains_false c s :
  Py.contains c s = false <-> ~ In c s.
Proof.
  unfold Py.contains. split.
  - intros H Hin. assert (E : existsb (Py.chr_eqb c) s = true).
    { apply existsb_exists. exists c. split; [exact Hin | apply chr_eqb_refl]. }
    congruence.
  - intros H. apply not_true_is_false. intros E.
    apply existsb_exists in E. destruct E as (x & Hx & E).
    apply chr_eqb_eq in E. subst x. exact (H Hx).
Qed.

Lemma arg_chr_spec c :
  arg_chr c = true <->
  Py.isspace c = false /\ c <> ","%char /\ c <> ";"%char.
Proof.
  unfold arg_chr. rewrite !andb_true_iff, !negb_true_iff, !chr_eqb_neq.
  tauto.
Qed.

(** A padded argument holds no comma and no semicolon, and its one word
    is the argument. *)
Lemma padded_chars item c :
  well_padded item -> In c (padded item) ->
  c <> ","%char /\ c <> ";"%char.
Proof.
  destruct item as [[u a] v]. intros (Hu & Hv & _ & Ha) Hin.
  assert (Hsp : forall x, Py.isspace x = true ->
                          x <> ","%char /\ x <> ";"%char).
  { intros x Hx. split; intros ->; discriminate Hx. }
  cbn [padded] in Hin.
  apply in_app_or in Hin. destruct Hin as [Hin | Hin].
  - rewrite Forall_forall in Hu. exact (Hsp c (Hu c Hin)).
  - apply in_app_or in Hin. destruct Hin as [Hin | Hin].
    + rewrite Forall_forall in Ha. specialize (Ha c Hin).
      apply arg_chr_spec in Ha. tauto.
    + rewrite Forall_forall in Hv. exact (Hsp c (Hv c Hin)).
Qed.

Lemma normalize_padded item :
  well_padded item -> normalize (padded item) = arg_of item.
Proof.
  destruct item as [[u a] v]. intros (Hu & Hv & Hne & Ha).
  unfold normalize. cbn [padded arg_of].
  rewrite split_ws_app_spaces by exact Hu.
  rewrite split_ws_token.
  - rewrite (split_ws_spaces v Hv). reflexivity.
  - exact Hne.
  - eapply Forall_impl; [| exact Ha]. intros c Hc.
    apply arg_chr_spec in Hc. apply Hc.
  - destruct Hv as [| x t Hx _]; [exact I | exact Hx].
Qed.

Lemma join_padded_chars items c :
  Forall well_padded items ->
  In c (Py.join "," (map padded items)) ->
  c = ","%char \/ exists item, In item items /\ In c (padded item).
Proof.
  induction 1 as [| item r Hi Hr IH]; [intros [] |].
  cbn [map]. rewrite join_cons.
  destruct (map padded r) as [| q qs] eqn:E.
  - intros Hin. right. exists item. split; [left; reflexivity | exact Hin].
  - intros Hin. apply in_app_or in Hin. destruct Hin as [Hin | Hin].
    + right. exists item. split; [left; reflexivity | exact Hin].
    + destruct Hin as [<- | Hin]; [left; reflexivity |].
      destruct (IH Hin) as [-> | (it & Hit & Hc)]; [left; reflexivity |].
      right. exists it. split; [right; exact Hit | exact Hc].
Qed.

(** [parse_line] on a mnemonic and padded arguments: the mnemonic in
    upper case and the arguments without their padding. *)
Lemma parsed_padded m x u a v items :
  m <> [] -> Forall (fun c => token_chr c = true) m ->
  Forall well_padded ((x :: u, a, v) :: items) ->
  parsed (m ++ Py.join "," (map padded ((x :: u, a, v) :: items))) =
  Some (Py.upper m, map arg_of ((x :: u, a, v) :: items)).
Proof.
  intros Hne Hm Hitems.
  set (all := (x :: u, a, v) :: items) in *.
  set (rest := Py.join "," (map padded all)).
  assert (Hfirst : well_padded (x :: u, a, v)) by (inversion Hitems; assumption).
  destruct Hfirst as (Hu & Hv & Hane & Ha).
  assert (Hx : Py.isspace x = true) by (inversion Hu; assumption).
  assert (Hrest : exists t, rest = x :: t).
  { unfold rest, all. cbn [map]. rewrite join_cons.
    destruct (map padded items); cbn [padded app]; eauto. }
  assert (Hend : token_end rest).
  { destruct Hrest as (t & ->). cbn [token_end]. unfold token_chr.
    rewrite Hx. reflexivity. }
  assert (Hsemi : Py.contains ";" rest = false).
  { apply contains_false. intros Hin.
    destruct (join_padded_chars all ";"%char Hitems Hin)
      as [E | (it & Hit & Hc)]; [discriminate E |].
    rewrite Forall_forall in Hitems.
    destruct (padded_chars it ";"%char (Hitems it Hit) Hc) as (_ & H).
    apply H. reflexivity. }
  assert (Hwords : Py.split_ws rest <> []).
  { destruct a as [| y a']; [contradiction |].
    apply (split_ws_not_nil rest y).
    - assert (Hy : In y (padded (x :: u, y :: a', v))).
      { cbn [padded]. apply in_or_app. right. apply in_or_app. left.
        left. reflexivity. }
      unfold rest, all. cbn [map]. rewrite join_cons.
      destruct (map padded items); [exact Hy |].
      apply in_or_app. left. exact Hy.
    - inversion Ha as [| ? ? Hy _]; subst. apply arg_chr_spec in Hy. apply Hy. }
  rewrite (parsed_token m rest Hne Hm Hend).
  rewrite (split_none _ rest Hsemi). cbn [hd].
  rewrite split_ws_rstrip, args_of_normalize.
  destruct (Py.split_ws rest) as [| w r] eqn:Ew; [contradiction |].
  unfold rest.
  change (list_ascii_of_string ",") with [","%char].
  rewrite split_join.
  - rewrite map_map. f_equal. f_equal. apply map_ext_in.
    intros it Hit. apply normalize_padded.
    rewrite Forall_forall in Hitems. exact (Hitems it Hit).
  - discriminate.
  - apply Forall_forall. intros p Hp. apply in_map_iff in Hp.
    destruct Hp as (it & <- & Hit). apply contains_false. intros Hc.
    rewrite Forall_forall in Hitems.
    destruct (padded_chars it ","%char (Hitems it Hit) Hc) as (H & _).
    apply H. reflexivity.
Qed.

(** ** Signs, groups of digits and the digit limit *)

Lemma join_groups g gs :
  Py.join "_" (g :: gs) = g ++ concat (map (cons "_"%char) gs).
Proof.
  revert g. induction gs as [| h gs IH]; intros g.
  - cbn. rewrite app_nil_r. reflexivity.
  - change (Py.join "_" (g :: h :: gs))
      with (g ++ "_" ++ Py.join "_" (h :: gs)).
    rewrite IH. reflexivity.
Qed.

Lemma scan_groups base gs : forall g acc n,
  Forall (digit_of base) g ->
  Forall (fun h => h <> [] /\ Forall (digit_of base) h) gs ->
  Py.scan_digits base false acc n (g ++ concat (map (cons "_"%char) gs)) =
  Some (fold_left (fun a c => a * base + digit_val c) (g ++ concat gs) acc,
        (length (g ++ concat gs) + n)%nat, []).
Proof.
  induction gs as [| h gs IH]; intros g acc n Hg Hgs.
  - cbn [map concat]. rewrite scan_digits_app by exact Hg.
    rewrite !app_nil_r. reflexivity.
  - inversion Hgs as [| ? ? (Hne & Hh) Hgs']; subst.
    destruct Hh as [| c t Hc Ht]; [contradiction |].
    cbn [map concat app]. rewrite scan_digits_app by exact Hg.
    rewrite scan_digits_underscore by exact Hc.
    rewrite (IH t _ _ Ht Hgs').
    rewrite !fold_left_app. cbn [fold_left]. rewrite !fold_left_app.
    rewrite !length_app. cbn [length]. rewrite !length_app.
    do 3 f_equal. lia.
Qed.

(** After a digit and digits comes a digit, an underscore or nothing. *)
Lemma groups_head_not base t gs x :
  Forall (digit_of base) t ->
  Py.chr_eqb "_"%char x = false ->
  (forall c, digit_of base c -> Py.chr_eqb c x = false) ->
  Py.startswith (t ++ concat (map (cons "_"%char) gs)) [x] = false.
Proof.
  intros Ht Hu Hd. destruct Ht as [| c' t' Hc' _].
  - destruct gs as [| h gs]; [reflexivity |].
    cbn [app map concat Py.startswith]. rewrite Hu. reflexivity.
  - cbn [app Py.startswith]. rewrite (Hd c' Hc'). reflexivity.
Qed.

Lemma groups_no_prefix base c t gs x :
  Forall (digit_of base) t ->
  x = "x"%char \/ x = "X"%char ->
  Py.startswith (c :: t ++ concat (map (cons "_"%char) gs)) ["0"%char; x]
  = false.
Proof.
  intros Ht Hx.
  change (Py.startswith (c :: t ++ concat (map (cons "_"%char) gs))
            ["0"%char; x])
    with (Py.chr_eqb c "0"%char &&
          Py.startswith (t ++ concat (map (cons "_"%char) gs)) [x]).
  rewrite (groups_head_not base t gs x Ht).
  - apply andb_false_r.
  - destruct Hx as [-> | ->]; reflexivity.
  - intros c' (_ & _ & _ & _ & _ & Hx1 & Hx2 & _).
    destruct Hx as [-> | ->]; assumption.
Qed.

(** The parser on an optional sign and groups of digits. *)
Lemma int_of_str_groups base sign g gs :
  base = 10 \/ base = 16 -> In sign signs -> g <> [] ->
  Forall (digit_of base) g ->
  Forall (fun h => h <> [] /\ Forall (digit_of base) h) gs ->
  (base = 10 -> (length (g ++ concat gs) <= Py.int_max_str_digits)%nat) ->
  Py.int_of_str (sign ++ g ++ concat (map (cons "_"%char) gs)) base =
    inr (sign_value sign * number_value base (g ++ concat gs)).
Proof.
  intros Hbase Hsign Hne Hg Hgs Hlimit.
  destruct Hg as [| c t Hc Ht]; [contradiction |].
  set (tail := concat (map (cons "_"%char) gs)).
  assert (Hbody :
    (let s := c :: t ++ tail in
     let s :=
       if (base =? 16) && (Py.startswith s "0x" || Py.startswith s "0X") then
         let s := skipn 2 s in
         if Py.startswith s "_" then skipn 1 s else s
       else s in
     if Py.startswith s "_" then inl Py.InvalidLiteral
     else
       match Py.scan_digits base false 0 0 s with
       | None => inl Py.InvalidLiteral
       | Some (value, digits, rest) =>
           if negb (base =? 16) && (Py.int_max_str_digits <? digits)%nat
           then inl (Py.ExceedsLimit digits)
           else if (digits =? 0)%nat then inl Py.InvalidLiteral
           else match Py.drop_while Py.Py_ISSPACE rest with
                | [] => inr (sign_value sign * value)
                | _ :: _ => inl Py.InvalidLiteral
                end
       end) = inr (sign_value sign * number_value base ((c :: t) ++ concat gs))).
  { cbv zeta.
    change (list_ascii_of_string "0x") with ["0"%char; "x"%char].
    change (list_ascii_of_string "0X") with ["0"%char; "X"%char].
    change (list_ascii_of_string "_") with ["_"%char].
    unfold tail.
    rewrite (groups_no_prefix base c t gs "x") by auto.
    rewrite (groups_no_prefix base c t gs "X") by auto.
    rewrite andb_false_r.
    assert (Hus : Py.startswith (c :: t ++ concat (map (cons "_"%char) gs))
                    ["_"%char] = false).
    { cbn [Py.startswith]. destruct Hc as (_ & _ & _ & _ & -> & _).
      reflexivity. }
    rewrite Hus.
    change (c :: t ++ concat (map (cons "_"%char) gs))
      with ((c :: t) ++ concat (map (cons "_"%char) gs)).
    rewrite (scan_groups base gs (c :: t) 0 0%nat) by (try constructor; assumption).
    assert (Hlim : negb (base =? 16) &&
                   (Py.int_max_str_digits <?
                    length ((c :: t) ++ concat gs) + 0)%nat = false).
    { destruct Hbase as [E | E].
      - apply andb_false_iff. right. apply Nat.ltb_ge.
        rewrite Nat.add_0_r. apply Hlimit, E.
      - rewrite E. reflexivity. }
    rewrite Hlim. cbn [app length Nat.add Nat.eqb Py.drop_while].
    reflexivity. }
  cbv zeta in Hbody.
  assert (Hsp : Py.Py_ISSPACE c = false) by apply Hc.
  assert (Hp : Py.chr_eqb c "+"%char = false) by apply Hc.
  assert (Hm : Py.chr_eqb c "-"%char = false) by apply Hc.
  unfold signs in Hsign. cbn [In] in Hsign.
  change (list_ascii_of_string "") with (@nil ascii) in Hsign.
  change (list_ascii_of_string "+") with ["+"%char] in Hsign.
  change (list_ascii_of_string "-") with ["-"%char] in Hsign.
  unfold Py.int_of_str.
  change (list_ascii_of_string "+") with ["+"%char].
  change (list_ascii_of_string "-") with ["-"%char].
  destruct Hsign as [<- | [<- | [<- | []]]].
  - cbn [app Py.drop_while]. rewrite Hsp.
    cbn [Py.startswith]. rewrite Hp, Hm. cbn [andb orb].
    exact Hbody.
  - cbn [app Py.drop_while].
    change (Py.Py_ISSPACE "+"%char) with false. cbv iota.
    cbn [Py.startswith].
    change (Py.chr_eqb "+"%char "-"%char) with false.
    change (Py.chr_eqb "+"%char "+"%char) with true.
    cbn [andb orb skipn]. exact Hbody.
  - cbn [app Py.drop_while].
    change (Py.Py_ISSPACE "-"%char) with false. cbv iota.
    cbn [Py.startswith].
    change (Py.chr_eqb "-"%char "-"%char) with true.
    change (Py.chr_eqb "-"%char "+"%char) with false.
    cbn [andb orb skipn]. exact Hbody.
Qed.

Lemma groups_digit_of base digits groups :
  (forall c, In c digits -> digit_of base c) ->
  digit_groups digits groups ->
  exists g gs,
    groups = g :: gs /\ g <> [] /\ Forall (digit_of base) g /\
    Forall (fun h => h <> [] /\ Forall (digit_of base) h) gs.
Proof.
  intros Hd (Hne & Hall).
  assert (Hall' : Forall (fun h => h <> [] /\ Forall (digit_of base) h) groups).
  { eapply Forall_impl; [| exact Hall]. intros h (Hh & Hin).
    split; [exact Hh |]. eapply Forall_impl; [| exact Hin]. exact Hd. }
  destruct groups as [| g gs]; [contradiction |].
  inversion Hall' as [| ? ? (Hg & Hgd) Hgs]; subst.
  exists g, gs. auto.
Qed.

Lemma signs_nospace sign :
  In sign signs -> Forall (fun c => Py.isspace c = false) sign.
Proof.
  unfold signs. cbn [In]. intros [<- | [<- | [<- | []]]];
    repeat constructor.
Qed.

Lemma groups_nospace base g gs :
  Forall (digit_of base) g ->
  Forall (fun h => h <> [] /\ Forall (digit_of base) h) gs ->
  Forall (fun c => Py.isspace c = false)
         (g ++ concat (map (cons "_"%char) gs)).
Proof.
  intros Hg Hgs. apply Forall_app. split; [exact (digits_nospace base g Hg) |].
  induction Hgs as [| h gs (_ & Hh) _ IH]; [constructor |].
  cbn [map concat]. constructor; [reflexivity |].
  apply Forall_app. split; [exact (digits_nospace base h Hh) | exact IH].
Qed.

Lemma concat_groups (g : str) gs : concat (g :: gs) = g ++ concat gs.
Proof. reflexivity. Qed.

(** [_parse_number] on [0x], a sign and groups of hexadecimal digits. *)
Lemma parse_number_groups_hex sign groups self :
  In sign signs -> digit_groups hexdigits groups ->
  run (_parse_number ("0x" ++ sign ++ grouped groups)) self =
    Return (sign_value sign * number_value 16 (concat groups)).
Proof.
  intros Hsign Hgroups.
  destruct (groups_digit_of 16 hexdigits groups hexdigit_digit_of Hgroups)
    as (g & gs & -> & Hne & Hg & Hgs).
  unfold grouped. rewrite join_groups, concat_groups.
  change ("0x" ++ sign ++ g ++ concat (map (cons "_"%char) gs))
    with ("0"%char :: "x"%char ::
          sign ++ g ++ concat (map (cons "_"%char) gs)).
  rewrite parse_number_hex_prefix.
  - apply run_int_Return, int_of_str_groups; auto. intros E. discriminate E.
  - apply Forall_app. split; [apply signs_nospace, Hsign |].
    exact (groups_nospace 16 g gs Hg Hgs).
Qed.

(** [_parse_number] on a sign and groups of decimal digits. *)
Lemma parse_number_groups_dec sign groups self :
  In sign signs -> digit_groups digits10 groups ->
  (length (concat groups) <= Py.int_max_str_digits)%nat ->
  run (_parse_number (sign ++ grouped groups)) self =
    Return (sign_value sign * number_value 10 (concat groups)).
Proof.
  intros Hsign Hgroups Hlen.
  destruct (groups_digit_of 10 digits10 groups digit10_digit_of Hgroups)
    as (g & gs & -> & Hne & Hg & Hgs).
  unfold grouped. rewrite join_groups. rewrite concat_groups in *.
  rewrite parse_number_decimal.
  - apply run_int_Return, int_of_str_groups; auto.
  - apply Forall_app. split; [apply signs_nospace, Hsign |].
    exact (groups_nospace 10 g gs Hg Hgs).
  - change (list_ascii_of_string "0x") with ["0"%char; "x"%char].
    unfold signs in Hsign. cbn [In] in Hsign.
    destruct Hsign as [<- | [<- | [<- | []]]]; try reflexivity.
    destruct Hg as [| c t Hc Ht]; [contradiction |].
    apply (groups_no_prefix 10 c t gs "x"); auto.
Qed.

(** [0X] is no prefix: the text is read in base 10 and is no number. *)
Lemma parse_number_upper_X t self :
  run (_parse_number ("0X" ++ t)) self =
    Raise (InvalidNumber 10 ("0X" ++ Py.rstrip t)).
Proof.
  unfold run, _parse_number.
  change ("0X" ++ t) with ("0"%char :: "X"%char :: t).
  rewrite strip_cons by reflexivity. rewrite rstrip_cons by reflexivity.
  reflexivity.
Qed.

(** *** The digit limit *)








(** *** One [STORE] line *)




(** ** Properties of the translation *)

(** C1: the three minimal instructions translate to the stated records
    ([LOAD_CONST 811, 213], [STORE 709, 447], [BINARY_OP 132, 412, 20,
    585]); in general, a source that parses to one instruction of a known
    mnemonic with the right number of arguments, all of which decode,
    translates to the record whose field [A] is the opcode of the table
    and whose further fields are the decoded arguments in their order. *)
Theorem C1_minimal_instructions :
  run (assemble "LOAD_CONST 811, 213") __init__ =
    Return [[("A" : str, 20); ("B" : str, 811); ("C" : str, 213)]] /\
  run (assemble "STORE 709, 447") __init__ =
    Return [[("A" : str, 12); ("B" : str, 709); ("C" : str, 447)]] /\
  run (assemble "BINARY_OP 132, 412, 20, 585") __init__ =
    Return [[("A" : str, 19); ("B" : str, 132); ("C" : str, 412);
             ("D" : str, 20); ("E" : str, 585)]] /\
  (forall src mnemonic args opcode n values,
     run (parse_source src) __init__ = Return [(mnemonic, args)] ->
     Py.dict_get (mnemonics __init__) mnemonic = Some opcode ->
     Py.dict_get arities mnemonic = Some n ->
     length args = n ->
     Forall2 (fun arg value => run (_parse_number arg) __init__ = Return value)
             args values ->
     run (assemble src) __init__ =
       Return [combine labels (opcode :: values)]).
Proof.
  split; [vm_compute; reflexivity |].
  split; [vm_compute; reflexivity |].
  split; [vm_compute; reflexivity |].
  intros src m args opcode n values Hsrc Hop Hn Hlen Hargs.
  rewrite assemble_init.
  unfold run in Hsrc. rewrite parse_source_eq in Hsrc. cbn in Hsrc.
  inversion Hsrc as [Hins]. rewrite Hins. cbn [encode_all].
  rewrite encode_eq, (encoding_decoded m args opcode n Hop Hn Hlen).
  rewrite (decode_all_Forall2 args values Hargs). reflexivity.
Qed.

(** The general part of C1 on [STORE 0x10, -7]. *)
Lemma C1_witness :
  run (parse_source "STORE 0x10, -7") __init__ =
    Return [("STORE" : str, ["0x10" : str; "-7" : str])] /\
  Py.dict_get (mnemonics __init__) "STORE" = Some 12 /\
  Py.dict_get arities "STORE" = Some 2%nat /\
  run (assemble "STORE 0x10, -7") __init__ =
    Return [[("A" : str, 12); ("B" : str, 16); ("C" : str, -7)]].
Proof.
  split; [vm_compute; reflexivity |].
  split; [reflexivity |]. split; [reflexivity |].
  apply (proj2 (proj2 (proj2 C1_minimal_instructions))
           "STORE 0x10, -7" "STORE" ["0x10" : str; "-7" : str] 12 2%nat
           [16; -7]).
  - vm_compute; reflexivity.
  - reflexivity.
  - reflexivity.
  - reflexivity.
  - repeat constructor.
Defined.

(** C2: when translation succeeds, each record comes from one parsed
    instruction, in order; its field [A] is present and is the opcode the
    table gives the instruction's mnemonic, and its fields are exactly
    [A], [B], [C] for the opcodes 20 and 12 and exactly [A], [B], [C],
    [D], [E] for the opcode 19. *)
Theorem C2_record_shape src records :
  run (assemble src) __init__ = Return records ->
  exists cmds,
    run (parse_source src) __init__ = Return cmds /\
    Forall2
      (fun (ins : instruction) (record : command) =>
         exists opcode,
           Py.dict_get (mnemonics __init__) (fst ins) = Some opcode /\
           Py.dict_get record "A" = Some opcode /\
           ((opcode = 20 \/ opcode = 12) /\
            Py.keys record = ["A" : str; "B" : str; "C" : str] \/
            opcode = 19 /\
            Py.keys record =
              ["A" : str; "B" : str; "C" : str; "D" : str; "E" : str]))
      cmds records.
Proof.
  intros H. exists (instructions src). split.
  - unfold run. rewrite parse_source_eq. reflexivity.
  - rewrite assemble_init in H. apply encode_all_Forall2 in H.
    induction H as [| [m args] record l rs Hins _ IH]; constructor; [| exact IH].
    rewrite encode_eq in Hins. exact (encoding_shape m args record Hins).
Qed.

(** C2 on [load_const 1, 2]. *)
Lemma C2_witness :
  run (assemble "load_const 1, 2") __init__ =
    Return [[("A" : str, 20); ("B" : str, 1); ("C" : str, 2)]] /\
  exists cmds,
    run (parse_source "load_const 1, 2") __init__ = Return cmds /\
    Forall2
      (fun (ins : instruction) (record : command) =>
         exists opcode,
           Py.dict_get (mnemonics __init__) (fst ins) = Some opcode /\
           Py.dict_get record "A" = Some opcode /\
           ((opcode = 20 \/ opcode = 12) /\
            Py.keys record = ["A" : str; "B" : str; "C" : str] \/
            opcode = 19 /\
            Py.keys record =
              ["A" : str; "B" : str; "C" : str; "D" : str; "E" : str]))
      cmds [[("A" : str, 20); ("B" : str, 1); ("C" : str, 2)]].
Proof.
  split; [vm_compute; reflexivity |].
  apply (C2_record_shape "load_const 1, 2"). vm_compute; reflexivity.
Defined.




(** C4 (as the code has it): after stripping, an argument that starts
    with [0x] is handed without these two characters to [int(_, 16)], any
    other argument to [int(_)], base 10 (arguments of ASCII text, on
    which [int] is the parser above).  After the prefix, [int] accepts an
    optional sign and groups of hexadecimal digits with single
    underscores between them, and gives the signed value of the digits;
    so [0x-5] decodes to -5 and [0x1_0] to 16.  Without the prefix it
    accepts the same of decimal digits, up to the digit limit, and gives
    their signed value in base 10.  [LOAD_CONST 0x10, 5] has [B = 16];
    the prefix [0X] is none, so [0X10] is read in base 10 and fails. *)
Theorem C4_number_decoding :
  (forall s self,
     Py.isascii s = true ->
     Py.startswith (Py.strip s) "0x" = true ->
     run (_parse_number s) self =
     run (int (Py.slice_from 2 (Py.strip s)) 16) self) /\
  (forall s self,
     Py.isascii s = true ->
     Py.startswith (Py.strip s) "0x" = false ->
     run (_parse_number s) self = run (int (Py.strip s) 10) self) /\
  (forall sign groups self,
     In sign signs -> digit_groups hexdigits groups ->
     run (_parse_number ("0x" ++ sign ++ grouped groups)) self =
       Return (sign_value sign * number_value 16 (concat groups))) /\
  (forall sign groups self,
     In sign signs -> digit_groups digits10 groups ->
     (length (concat groups) <= Py.int_max_str_digits)%nat ->
     run (_parse_number (sign ++ grouped groups)) self =
       Return (sign_value sign * number_value 10 (concat groups))) /\
  (forall t self,
     exists text,
       run (_parse_number ("0X" ++ t)) self = Raise (InvalidNumber 10 text)) /\
  run (_parse_number "0x-5") __init__ = Return (-5) /\
  run (_parse_number "0x1_0") __init__ = Return 16 /\
  run (assemble "LOAD_CONST 0x10, 5") __init__ =
    Return [[("A" : str, 20); ("B" : str, 16); ("C" : str, 5)]] /\
  run (assemble "LOAD_CONST 0X10, 5") __init__ =
    Raise (InvalidNumber 10 "0X10").
Proof.
  split; [| split; [| split; [| split; [| split]]]].
  - intros s self _ H. unfold run, _parse_number. rewrite H. reflexivity.
  - intros s self _ H. unfold run, _parse_number. rewrite H. reflexivity.
  - intros sign groups self. apply parse_number_groups_hex.
  - intros sign groups self. apply parse_number_groups_dec.
  - intros t self. exists ("0X" ++ Py.rstrip t). apply parse_number_upper_X.
  - repeat split; vm_compute; reflexivity.
Qed.

(** C4 on [ 0x1F ], [0x1F], [0x-1F], [0x+dead_beef_0], [2024], [-2_024]
    and [0Xff]. *)
Lemma C4_witness :
  run (_parse_number " 0x1F ") __init__ = run (int "1F" 16) __init__ /\
  run (_parse_number " 2024 ") __init__ = run (int "2024" 10) __init__ /\
  run (_parse_number "0x1F") __init__ = Return 31 /\
  run (_parse_number "0x-1F") __init__ = Return (-31) /\
  run (_parse_number "0x+dead_beef_0") __init__ = Return 59774856944 /\
  run (_parse_number "2024") __init__ = Return 2024 /\
  run (_parse_number "-2_024") __init__ = Return (-2024) /\
  exists text,
    run (_parse_number "0Xff") __init__ = Raise (InvalidNumber 10 text).
Proof.
  assert (Hin : forall (l : str) (a : str),
            forallb (fun c => existsb (Py.chr_eqb c) l) a = true ->
            Forall (fun c => In c l) a).
  { intros l a H. apply Forall_forall. intros c Hc.
    rewrite forallb_forall in H. specialize (H c Hc).
    apply existsb_exists in H. destruct H as (x & Hx & E).
    apply chr_eqb_eq in E. subst. exact Hx. }
  assert (Hgroups : forall (l : str) (groups : list str),
            groups <> [] ->
            forallb (fun a => negb (Nat.eqb (length a) 0) &&
                              forallb (fun c => existsb (Py.chr_eqb c) l) a)
                    groups = true ->
            digit_groups l groups).
  { intros l groups Hne H. split; [exact Hne |].
    apply Forall_forall. intros a Ha.
    rewrite forallb_forall in H. specialize (H a Ha).
    apply andb_true_iff in H. destruct H as (Hlen & Hall).
    split; [| exact (Hin l a Hall)].
    intros ->. discriminate Hlen. }
  split; [| split; [| split; [| split; [| split; [| split; [| split]]]]]].
  - exact (proj1 C4_number_decoding " 0x1F " __init__ eq_refl eq_refl).
  - exact (proj1 (proj2 C4_number_decoding) " 2024 " __init__
             eq_refl eq_refl).
  - exact (proj1 (proj2 (proj2 C4_number_decoding)) ("" : str)
             ["1F" : str] __init__ ltac:(left; reflexivity)
             (Hgroups hexdigits ["1F" : str] ltac:(discriminate) eq_refl)).
  - exact (proj1 (proj2 (proj2 C4_number_decoding)) ("-" : str)
             ["1F" : str] __init__
             ltac:(right; right; left; reflexivity)
             (Hgroups hexdigits ["1F" : str] ltac:(discriminate) eq_refl)).
  - exact (proj1 (proj2 (proj2 C4_number_decoding)) ("+" : str)
             ["dead" : str; "beef" : str; "0" : str] __init__
             ltac:(right; left; reflexivity)
             (Hgroups hexdigits ["dead" : str; "beef" : str; "0" : str]
                ltac:(discriminate) eq_refl)).
  - exact (proj1 (proj2 (proj2 (proj2 C4_number_decoding))) ("" : str)
             ["2024" : str] __init__ ltac:(left; reflexivity)
             (Hgroups digits10 ["2024" : str] ltac:(discriminate) eq_refl)
             ltac:(apply Nat.leb_le; vm_compute; reflexivity)).
  - exact (proj1 (proj2 (proj2 (proj2 C4_number_decoding))) ("-" : str)
             ["2" : str; "024" : str] __init__
             ltac:(right; right; left; reflexivity)
             (Hgroups digits10 ["2" : str; "024" : str]
                ltac:(discriminate) eq_refl)
             ltac:(apply Nat.leb_le; vm_compute; reflexivity)).
  - exact (proj1 (proj2 (proj2 (proj2 (proj2 C4_number_decoding))))
             ("ff" : str) __init__).
Defined.

(** C4, counterexample: a sign and an underscore after the prefix do not
    fail; [0x-5] decodes to -5 and [0x1_0] to 16. *)
Lemma C4_counterexample :
  run (_parse_number "0x-5") __init__ = Return (-5) /\
  run (_parse_number "0x1_0") __init__ = Return 16 /\
  ~ (exists e, run (_parse_number "0x-5") __init__ = Raise e) /\
  ~ (exists e, run (_parse_number "0x1_0") __init__ = Raise e).
Proof.
  repeat split; try (vm_compute; reflexivity);
    intros (e & H); vm_compute in H; discriminate H.
Qed.

(** C5: when some parsed instruction of a source does not encode,
    translation raises the error of the first such instruction in source
    order, after instructions that all encode; it returns no records. *)
Theorem C5_fail_fast src cmds :
  run (parse_source src) __init__ = Return cmds ->
  Exists invalid cmds ->
  exists before ins after e,
    cmds = before ++ ins :: after /\
    Forall valid before /\
    encode ins = Raise e /\
    run (assemble src) __init__ = Raise e /\
    (forall records, run (assemble src) __init__ <> Return records).
Proof.
  intros Hsrc Hex.
  unfold run in Hsrc. rewrite parse_source_eq in Hsrc. cbn in Hsrc.
  inversion Hsrc as [Hcmds]. clear Hsrc. subst cmds.
  destruct (first_invalid _ Hex) as (before & ins & after & E & Hb & (e & He)).
  exists before, ins, after, e.
  assert (Hrun : run (assemble src) __init__ = Raise e).
  { rewrite assemble_init, E.
    apply encode_all_first_error; assumption. }
  split; [exact E |]. split; [exact Hb |]. split; [exact He |].
  split; [exact Hrun |].
  intros records. rewrite Hrun. discriminate.
Qed.

(** C5 on a source whose second and third lines do not encode. *)
Lemma C5_witness :
  let src := unlines ["STORE 1, 2" : str; "JUMP 1" : str; "STORE x" : str;
                      "STORE 3, 4" : str] in
  run (assemble src) __init__ = Raise (UnknownMnemonic "JUMP") /\
  exists before ins after e,
    instructions src = before ++ ins :: after /\
    Forall valid before /\
    encode ins = Raise e /\
    run (assemble src) __init__ = Raise e /\
    (forall records, run (assemble src) __init__ <> Return records).
Proof.
  intros src. split; [vm_compute; reflexivity |].
  apply (C5_fail_fast src (instructions src)).
  - vm_compute; reflexivity.
  - apply Exists_cons_tl, Exists_cons_hd.
    exists (UnknownMnemonic "JUMP"). vm_compute; reflexivity.
Defined.

(** C6 (as the code has it): an instruction of a known mnemonic with
    another number of arguments than its arity raises [ArityMismatch] with
    the fixed message of its mnemonic, which starts with the mnemonic and
    the expected count; the error is the same for every such argument
    list, so the number of arguments supplied is not in it. *)
Theorem C6_arity_message st mnemonic args n :
  Py.dict_get arities mnemonic = Some n ->
  length args <> n ->
  exists message,
    run (assemble_body st (mnemonic, args)) __init__ =
      Raise (ArityMismatch message) /\
    Py.dict_get arity_messages mnemonic = Some message /\
    Py.startswith message
      (mnemonic ++ list_ascii_of_string " требует " ++ [digit_chr n] ++
       list_ascii_of_string " аргумента") = true /\
    (forall st' args',
       length args' <> n ->
       run (assemble_body st' (mnemonic, args')) __init__ =
         Raise (ArityMismatch message)).
Proof.
  intros Hn Hlen.
  destruct (encoding_arity mnemonic args n Hn Hlen) as (message & He & Hm & Hp).
  exists message. rewrite run_assemble_body, He.
  repeat split; try assumption.
  intros st' args' Hlen'. rewrite run_assemble_body.
  destruct (encoding_arity mnemonic args' n Hn Hlen') as (message' & -> & Hm' & _).
  congruence.
Qed.

(** C6 on [BINARY_OP] with one argument. *)
Lemma C6_arity_message_witness :
  Py.dict_get arities "BINARY_OP" = Some 4%nat /\
  exists message,
    run (assemble_body ([], None) ("BINARY_OP" : str, ["1" : str])) __init__ =
      Raise (ArityMismatch message) /\
    Py.dict_get arity_messages "BINARY_OP" = Some message /\
    Py.startswith message
      (("BINARY_OP" : str) ++ list_ascii_of_string " требует " ++
       [digit_chr 4] ++ list_ascii_of_string " аргумента") = true /\
    (forall st' args',
       length args' <> 4%nat ->
       run (assemble_body st' ("BINARY_OP" : str, args')) __init__ =
         Raise (ArityMismatch message)).
Proof.
  split; [reflexivity |].
  apply (C6_arity_message ([], None) "BINARY_OP" ["1" : str] 4%nat);
    [reflexivity | discriminate].
Defined.

(** C6, counterexample: no function of the error gives back the number of
    arguments supplied; [LOAD_CONST] with one and with three arguments
    raise the same error. *)
Lemma C6_counterexample :
  ~ (exists actual : exn -> nat,
       forall args e,
         length args <> 2%nat ->
         run (assemble_body ([], None) ("LOAD_CONST" : str, args)) __init__ =
           Raise e ->
         actual e = length args).
Proof.
  intros (actual & H).
  assert (H1 := H ["1" : str] (ArityMismatch LOAD_CONST_message)
                  ltac:(discriminate) eq_refl).
  assert (H3 := H ["1" : str; "2" : str; "3" : str]
                  (ArityMismatch LOAD_CONST_message)
                  ltac:(discriminate) eq_refl).
  rewrite H1 in H3. discriminate.
Qed.

(** C7 (as the code has it): spaces around the arguments and the commas
    are accepted.  A line of ASCII text made of a mnemonic and arguments,
    each with any spaces before and after it (at least one after the
    mnemonic), parses to the mnemonic in upper case and the bare
    arguments, and a source translates the same whatever the padding of
    such a line; [STORE 1 ,  2] translates to [{A:12, B:1, C:2}].  A
    comma at the end is not accepted: it leaves an empty last argument
    (or ends the mnemonic), so a source with a line whose instruction
    text ends in a comma does not translate; [STORE 1, 2,] parses to
    three arguments and raises [ArityMismatch]. *)
Theorem C7_separators :
  run (assemble "STORE 1 ,  2") __init__ =
    Return [[("A" : str, 12); ("B" : str, 1); ("C" : str, 2)]] /\
  (forall m x u a v items self,
     m <> [] -> Forall (fun c => token_chr c = true) m ->
     Forall well_padded ((x :: u, a, v) :: items) ->
     Py.isascii (m ++ Py.join "," (map padded ((x :: u, a, v) :: items))) =
       true ->
     run (parse_line (m ++ Py.join "," (map padded ((x :: u, a, v) :: items))))
         self =
     Return (Some (Py.upper m, map arg_of ((x :: u, a, v) :: items)))) /\
  (forall before after m x u a v items x' u' a' v' items' self,
     m <> [] -> Forall (fun c => token_chr c = true) m ->
     Forall well_padded ((x :: u, a, v) :: items) ->
     Forall well_padded ((x' :: u', a', v') :: items') ->
     map arg_of ((x :: u, a, v) :: items) =
     map arg_of ((x' :: u', a', v') :: items') ->
     Py.isascii (m ++ Py.join "," (map padded ((x :: u, a, v) :: items))) =
       true ->
     Py.isascii
       (m ++ Py.join "," (map padded ((x' :: u', a', v') :: items'))) =
       true ->
     no_newline (m ++ Py.join "," (map padded ((x :: u, a, v) :: items))) ->
     no_newline (m ++ Py.join "," (map padded ((x' :: u', a', v') :: items'))) ->
     run (assemble (unlines
            (before ++
             (m ++ Py.join "," (map padded ((x :: u, a, v) :: items))) ::
             after))) self =
     run (assemble (unlines
            (before ++
             (m ++ Py.join "," (map padded ((x' :: u', a', v') :: items'))) ::
             after))) self) /\
  (forall src line body,
     In line (Py.split newline src) ->
     code_of line = body ++ "," ->
     exists e, run (assemble src) __init__ = Raise e) /\
  run (parse_line "STORE 1, 2,") __init__ =
    Return (Some ("STORE" : str, ["1" : str; "2" : str; "" : str])) /\
  run (assemble "STORE 1, 2,") __init__ = Raise (ArityMismatch STORE_message).
Proof.
  split; [vm_compute; reflexivity |].
  split; [| split; [| split; [| split; vm_compute; reflexivity]]].
  - intros m x u a v items self Hne Hm Hitems _. unfold run.
    rewrite parse_line_eq. cbn [fst]. f_equal.
    apply parsed_padded; assumption.
  - intros before after m x u a v items x' u' a' v' items' self
      Hne Hm Hitems Hitems' Hargs _ _ Hnl Hnl'.
    unfold run. f_equal. apply assemble_exchange; [exact Hnl | exact Hnl' |].
    rewrite !parsed_padded by assumption. rewrite Hargs. reflexivity.
  - intros src line body Hin Hcode.
    destruct (parsed_trailing_comma line body Hcode) as (ins & Hp & Hinv).
    assert (Hex : Exists invalid (instructions src)).
    { apply Exists_exists. exists ins. split; [| exact Hinv].
      unfold instructions. apply in_flat_map. exists line.
      split; [exact Hin |]. unfold instruction_of. rewrite Hp.
      left. reflexivity. }
    destruct (first_invalid _ Hex) as (before & i & after & E & Hb & (e & He)).
    exists e. rewrite assemble_init, E.
    apply encode_all_first_error; assumption.
Qed.

(** C7 on a source with a comma before a comment, and on
    [store 0x1f  ,   -2]. *)
Lemma C7_witness :
  let src := unlines ["STORE 1, 2" : str; "LOAD_CONST 3, 4,  ; x" : str] in
  let items : list (str * str * str) :=
    [(" " : str, "0x1f" : str, "  " : str);
     ("   " : str, "-2" : str, "" : str)] in
  (In ("LOAD_CONST 3, 4,  ; x" : str) (Py.split newline src) /\
   code_of "LOAD_CONST 3, 4,  ; x" = ("LOAD_CONST 3, 4" : str) ++ "," /\
   exists e, run (assemble src) __init__ = Raise e) /\
  Forall well_padded items /\
  run (parse_line (("store" : str) ++ Py.join "," (map padded items)))
      __init__ =
  Return (Some ("STORE" : str, ["0x1f" : str; "-2" : str])).
Proof.
  intros src items.
  assert (Hin : In ("LOAD_CONST 3, 4,  ; x" : str) (Py.split newline src)).
  { vm_compute. right. left. reflexivity. }
  assert (Hcode : code_of "LOAD_CONST 3, 4,  ; x" =
                  ("LOAD_CONST 3, 4" : str) ++ ",").
  { vm_compute. reflexivity. }
  assert (Hb : forall p (s : str), forallb p s = true ->
                                   Forall (fun c => p c = true) s).
  { intros p s H. apply Forall_forall. intros c Hc.
    rewrite forallb_forall in H. exact (H c Hc). }
  assert (Hitems : Forall well_padded items).
  { repeat constructor; try discriminate; apply Hb; reflexivity. }
  split; [| split; [exact Hitems |]].
  - split; [exact Hin |]. split; [exact Hcode |].
    exact (proj1 (proj2 (proj2 (proj2 C7_separators))) src _ _ Hin Hcode).
  - apply (proj1 (proj2 C7_separators) ("store" : str) " "%char [] ("0x1f" : str)
             ("  " : str) [("   " : str, "-2" : str, "" : str)] __init__).
    + discriminate.
    + apply Hb. reflexivity.
    + exact Hitems.
    + reflexivity.
Defined.

(** C7, counterexample: [STORE 1, 2,] does not translate. *)
Lemma C7_counterexample :
  ~ (exists records, run (assemble "STORE 1, 2,") __init__ = Return records).
Proof.
  intros (records & H). vm_compute in H. discriminate H.
Qed.

(** C8 (as the code has it): a comment after a line does not change what
    [parse_line] returns nor what the source translates to, whatever the
    line; neither does another casing of a mnemonic of ASCII text (lower
    case in particular); a line that is blank or starts with a semicolon
    gives no instruction, and the source translates as without it.
    [STORE 1, 2 ; comment] translates as [STORE 1, 2], and
    [load_const 1, 2] as [LOAD_CONST 1, 2]. *)
Theorem C8_comments_and_case :
  (forall line ws comment self,
     Forall (fun c => Py.isspace c = true) ws ->
     run (parse_line (line ++ ws ++ ";" ++ comment)) self =
     run (parse_line line) self) /\
  (forall before line comment after self,
     no_newline line -> no_newline comment ->
     run (assemble (unlines (before ++ (line ++ " ;" ++ comment) :: after)))
         self =
     run (assemble (unlines (before ++ line :: after))) self) /\
  (forall ws m m' rest self,
     Forall (fun c => Py.isspace c = true) ws ->
     m <> [] -> Py.isascii m = true ->
     Forall (fun c => token_chr c = true) m -> token_end rest ->
     Py.upper m' = Py.upper m ->
     run (parse_line (ws ++ m' ++ rest)) self =
     run (parse_line (ws ++ m ++ rest)) self) /\
  (forall before ws m m' rest after self,
     Forall (fun c => Py.isspace c = true) ws ->
     m <> [] -> Py.isascii m = true ->
     Forall (fun c => token_chr c = true) m -> token_end rest ->
     Py.upper m' = Py.upper m ->
     no_newline ws -> no_newline rest ->
     run (assemble (unlines (before ++ (ws ++ m' ++ rest) :: after))) self =
     run (assemble (unlines (before ++ (ws ++ m ++ rest) :: after))) self) /\
  (forall m, Py.isascii m = true -> Py.upper (Py.lower m) = Py.upper m) /\
  (forall line self,
     blank_or_comment line -> run (parse_line line) self = Return None) /\
  (forall before line after self,
     no_newline line -> blank_or_comment line ->
     run (assemble (unlines (before ++ line :: after))) self =
     run (assemble (unlines (before ++ after))) self) /\
  run (assemble "STORE 1, 2 ; comment") __init__ =
    run (assemble "STORE 1, 2") __init__ /\
  run (assemble "load_const 1, 2") __init__ =
    run (assemble "LOAD_CONST 1, 2") __init__.
Proof.
  assert (Hcomment : forall line ws comment,
            Forall (fun c => Py.isspace c = true) ws ->
            parsed (line ++ ws ++ ";"%char :: comment) = parsed line).
  { intros line ws comment Hws. rewrite app_assoc, parsed_comment.
    apply parsed_strip, strip_app_spaces_r, Hws. }
  assert (Hcase : forall ws m m' rest,
            Forall (fun c => Py.isspace c = true) ws ->
            m <> [] -> Forall (fun c => token_chr c = true) m ->
            token_end rest -> Py.upper m' = Py.upper m ->
            parsed (ws ++ m' ++ rest) = parsed (ws ++ m ++ rest)).
  { intros ws m m' rest Hws Hne Hm Hrest Hup.
    rewrite (parsed_strip (ws ++ m' ++ rest) (m' ++ rest))
      by (apply strip_app_spaces_l, Hws).
    rewrite (parsed_strip (ws ++ m ++ rest) (m ++ rest))
      by (apply strip_app_spaces_l, Hws).
    rewrite (parsed_token m rest Hne Hm Hrest).
    rewrite (parsed_token m' rest); [rewrite Hup; reflexivity | | | exact Hrest].
    - intros ->. destruct m; [contradiction | discriminate Hup].
    - exact (token_upper m m' Hup Hm). }
  assert (Hnl : forall a b, no_newline a -> no_newline b -> no_newline (a ++ b)).
  { unfold no_newline. intros a b Ha Hb Hin. apply in_app_or in Hin. tauto. }
  assert (Htok : forall m, Forall (fun c => token_chr c = true) m ->
                           no_newline m).
  { intros m Hm Hin. rewrite Forall_forall in Hm. specialize (Hm _ Hin).
    vm_compute in Hm. discriminate Hm. }
  assert (Hblank : forall line, blank_or_comment line -> parsed line = None).
  { intros line [E | (t & E)]; unfold parsed; rewrite E; reflexivity. }
  repeat match goal with |- _ /\ _ => split end.
  - intros line ws comment self Hws. unfold run.
    rewrite !parse_line_eq. cbn [fst]. f_equal. apply (Hcomment line ws), Hws.
  - intros before line comment after self Hl Hc. unfold run. f_equal.
    apply assemble_exchange; [| exact Hl |].
    + apply Hnl; [exact Hl |]. apply (Hnl " ;"); [| exact Hc].
      intros Hin. vm_compute in Hin. intuition discriminate.
    + apply (Hcomment line " " comment). repeat constructor.
  - intros ws m m' rest self Hws Hne _ Hm Hrest Hup. unfold run.
    rewrite !parse_line_eq. cbn [fst]. f_equal. apply Hcase; assumption.
  - intros before ws m m' rest after self Hws Hne _ Hm Hrest Hup Hnws Hnrest.
    unfold run. f_equal. apply assemble_exchange.
    + apply Hnl; [exact Hnws |]. apply Hnl; [| exact Hnrest].
      apply Htok. exact (token_upper m m' Hup Hm).
    + apply Hnl; [exact Hnws |]. apply Hnl; [| exact Hnrest].
      apply Htok, Hm.
    + apply Hcase; assumption.
  - intros m _. unfold Py.upper, Py.lower. rewrite map_map.
    apply map_ext. apply upper_lower.
  - intros line self Hb. unfold run. rewrite parse_line_eq. cbn [fst].
    rewrite (Hblank line Hb). reflexivity.
  - intros before line after self Hl Hb. unfold run. f_equal.
    apply assemble_instructions.
    rewrite !instructions_unlines, !flat_map_app. cbn [flat_map].
    rewrite (instructions_line line Hl). unfold instruction_of.
    rewrite (Hblank line Hb). reflexivity.
  - vm_compute. reflexivity.
  - vm_compute. reflexivity.
Qed.

(** C8 on a line inside a source of four lines. *)
Lemma C8_witness :
  let before := ["; header" : str; "STORE 1, 2" : str] in
  let after := ["STORE 3, 4" : str] in
  run (assemble (unlines (before ++ ("Binary_Op 1, 2, 3, 4 ; sum" : str) :: after)))
      __init__ =
  run (assemble (unlines (before ++ ("BINARY_OP 1, 2, 3, 4" : str) :: after)))
      __init__ /\
  run (assemble (unlines (before ++ ("   " : str) :: after))) __init__ =
  run (assemble (unlines (before ++ after))) __init__.
Proof.
  intros before after.
  assert (Hnn : forall s : str,
            forallb (fun c => negb (Py.chr_eqb c newline)) s = true ->
            no_newline s).
  { intros s H Hin. rewrite forallb_forall in H. specialize (H _ Hin).
    rewrite chr_eqb_refl in H. discriminate H. }
  assert (Htok : forall s : str,
            forallb token_chr s = true ->
            Forall (fun c => token_chr c = true) s).
  { intros s H. apply Forall_forall. intros c Hc.
    rewrite forallb_forall in H. exact (H c Hc). }
  split.
  - transitivity
      (run (assemble (unlines (before ++ ("Binary_Op 1, 2, 3, 4" : str) :: after)))
           __init__).
    + apply (proj1 (proj2 C8_comments_and_case) before
               ("Binary_Op 1, 2, 3, 4" : str) (" sum" : str) after __init__);
        apply Hnn; reflexivity.
    + apply (proj1 (proj2 (proj2 (proj2 C8_comments_and_case))) before
               ("" : str) ("BINARY_OP" : str) ("Binary_Op" : str)
               (" 1, 2, 3, 4" : str) after __init__).
      * constructor.
      * discriminate.
      * reflexivity.
      * apply Htok. reflexivity.
      * reflexivity.
      * reflexivity.
      * apply Hnn. reflexivity.
      * apply Hnn. reflexivity.
  - apply (proj1 (proj2 (proj2 (proj2 (proj2 (proj2 (proj2
             C8_comments_and_case)))))) before ("   " : str) after __init__).
    + apply Hnn. reflexivity.
    + left. reflexivity.
Defined.

(** C8, counterexample: beyond ASCII, lower-casing the mnemonic can change
    the result.  The line made of U+0130, capital I with a dot above, and
    the argument 1 raises [UnknownMnemonic] with U+0130; lower-cased, U+0130
    is [i] followed by U+0307, which [upper] turns into [I] followed by
    U+0307, and the line raises [UnknownMnemonic] with that other text. *)
Lemma C8_counterexample :
  run (assemble (capital_I_with_dot ++ " 1")) __init__ =
    Raise (UnknownMnemonic capital_I_with_dot) /\
  run (assemble (("i" : str) ++ combining_dot ++ " 1")) __init__ =
    Raise (UnknownMnemonic (("I" : str) ++ combining_dot)) /\
  run (assemble (capital_I_with_dot ++ " 1")) __init__ <>
  run (assemble (("i" : str) ++ combining_dot ++ " 1")) __init__.
Proof.
  split; [vm_compute; reflexivity |].
  split; [vm_compute; reflexivity |].
  vm_compute. discriminate.
Qed.

(** C9: a call of [assemble] leaves the instance, and so its mnemonic
    table, as it found it; a call on an instance that has already
    translated any source gives what it gives on a fresh instance, so two
    calls on one source agree; a source whose lines are all blank or
    comments translates to the empty list of records. *)
Theorem C9_no_hidden_state :
  (forall src self, instance_after (assemble src) self = self) /\
  (forall src src',
     run (assemble src) (instance_after (assemble src') __init__) =
     run (assemble src) __init__) /\
  (forall src,
     run (assemble src) (instance_after (assemble src) __init__) =
     run (assemble src) __init__) /\
  (forall src,
     Forall blank_or_comment (Py.split newline src) ->
     run (assemble src) __init__ = Return []).
Proof.
  split; [| split; [| split]].
  - intros src self. apply readonly_assemble.
  - intros src src'. rewrite readonly_assemble. reflexivity.
  - intros src. rewrite readonly_assemble. reflexivity.
  - intros src H. rewrite assemble_init. unfold instructions.
    induction H as [| line lines Hl _ IH]; [reflexivity |].
    cbn [flat_map]. unfold instruction_of at 1, parsed.
    destruct Hl as [E | (t & E)]; rewrite E; cbn.
    + exact IH.
    + exact IH.
Qed.

(** C9 on a source of a comment, an empty line and an indented
    comment. *)
Lemma C9_witness :
  let src := unlines ["; header" : str; "" : str; "   ; indented" : str] in
  Forall blank_or_comment (Py.split newline src) /\
  run (assemble src) __init__ = Return [].
Proof.
  intros src.
  assert (H : Forall blank_or_comment (Py.split newline src)).
  { apply Forall_forall. intros l Hl. vm_compute in Hl.
    destruct Hl as [<- | [<- | [<- | []]]];
      solve [left; reflexivity | right; eexists; reflexivity]. }
  split; [exact H |].
  apply (proj2 (proj2 (proj2 C9_no_hidden_state))). exact H.
Defined.

(** C10: [parse_line] returns on every line, nothing or an instruction;
    [parse_source] therefore returns on every source, and no call of
    [assemble] raises [SyntaxError]. *)
Theorem C10_parse_line_total :
  (forall line self, exists p, run (parse_line line) self = Return p) /\
  (forall src self, exists cmds, run (parse_source src) self = Return cmds) /\
  (forall src self line_num line,
     run (assemble src) self <> Raise (SyntaxError line_num line)).
Proof.
  split; [| split].
  - intros line self. exists (parsed line). unfold run.
    rewrite parse_line_eq. reflexivity.
  - intros src self. exists (instructions src). unfold run.
    rewrite parse_source_eq. reflexivity.
  - intros src self n line H.
    assert (Hr : raises_only not_SyntaxError (assemble src)).
    { unfold assemble. apply raises_only_bind.
      - intros self' e He. unfold run in He. rewrite parse_source_eq in He.
        discriminate He.
      - intros cmds. apply raises_only_bind; [| intros st; apply raises_only_ret].
        apply raises_only_for_each. intros acc x.
        apply raises_only_assemble_body. }
    exact (Hr self _ H).
Qed.

(** * Further properties of the class *)

(** ** What [parse_line] returns *)

Lemma lstrip_subset s c : In c (Py.lstrip s) -> In c s.
Proof.
  unfold Py.lstrip. induction s as [| x t IH]; cbn [Py.drop_while]; [tauto |].
  destruct (Py.isspace x); [intros H; right; exact (IH H) | tauto].
Qed.

Lemma rstrip_subset s c : In c (Py.rstrip s) -> In c s.
Proof.
  induction s as [| x t IH]; cbn [Py.rstrip]; [tauto |].
  destruct (Py.rstrip t) as [| y r].
  - destruct (Py.isspace x); [intros [] |]. intros [-> | []]. left. reflexivity.
  - intros [-> | H]; [left; reflexivity | right; exact (IH H)].
Qed.

Lemma strip_subset s c : In c (Py.strip s) -> In c s.
Proof. unfold Py.strip. intros H. apply lstrip_subset, rstrip_subset, H. Qed.

Lemma rstrip_unfold c t :
  Py.rstrip (c :: t) =
  match Py.rstrip t with
  | [] => if Py.isspace c then [] else [c]
  | t' => c :: t'
  end.
Proof. reflexivity. Qed.

Lemma rstrip_idem s : Py.rstrip (Py.rstrip s) = Py.rstrip s.
Proof.
  induction s as [| x t IH]; [reflexivity |].
  rewrite (rstrip_unfold x t). destruct (Py.rstrip t) as [| y r] eqn:E.
  - destruct (Py.isspace x) eqn:Hx; [reflexivity |].
    rewrite rstrip_unfold. cbn [Py.rstrip]. rewrite Hx. reflexivity.
  - rewrite (rstrip_unfold x (y :: r)), IH. reflexivity.
Qed.

Lemma strip_idem s : Py.strip (Py.strip s) = Py.strip s.
Proof.
  destruct (strip_head s) as [-> | (c & t & E & Hc)]; [reflexivity |].
  rewrite E. rewrite strip_cons by exact Hc.
  unfold Py.strip in E.
  destruct (lstrip_head s) as [El | (c' & t' & El & Hc')];
    rewrite El in E; [discriminate E |].
  rewrite rstrip_cons in E by exact Hc'. inversion E; subst.
  rewrite rstrip_idem. reflexivity.
Qed.

Lemma split_ws_chars s w c :
  In w (Py.split_ws s) -> In c w -> In c s /\ Py.isspace c = false.
Proof.
  revert w. induction s as [| x t IH]; intros w Hw Hc; [contradiction |].
  rewrite split_ws_unfold in Hw.
  destruct (Py.isspace x) eqn:Hx.
  - destruct (IH w Hw Hc). split; [right |]; assumption.
  - destruct t as [| c' t'].
    + destruct Hw as [<- | []]. destruct Hc as [<- | []].
      split; [left; reflexivity | exact Hx].
    + destruct (Py.isspace c').
      * destruct Hw as [<- | Hw].
        -- destruct Hc as [<- | []]. split; [left; reflexivity | exact Hx].
        -- destruct (IH w Hw Hc). split; [right |]; assumption.
      * destruct (Py.split_ws (c' :: t')) as [| word rest].
        -- destruct Hw as [<- | []]. destruct Hc as [<- | []].
           split; [left; reflexivity | exact Hx].
        -- destruct Hw as [<- | Hw].
           ++ destruct Hc as [<- | Hc]; [split; [left; reflexivity | exact Hx] |].
              destruct (IH word (or_introl eq_refl) Hc).
              split; [right |]; assumption.
           ++ destruct (IH w (or_intror Hw) Hc). split; [right |]; assumption.
Qed.

Lemma split_pieces sep s p c :
  In p (Py.split sep s) -> In c p -> In c s /\ c <> sep.
Proof.
  revert p. induction s as [| x t IH]; intros p Hp Hc.
  - destruct Hp as [<- | []]. contradiction.
  - cbn [Py.split] in Hp. destruct (Py.chr_eqb x sep) eqn:Hx.
    + destruct Hp as [<- | Hp]; [contradiction |].
      destruct (IH p Hp Hc). split; [right |]; assumption.
    + destruct (split_nonempty sep t) as (q & r & E). rewrite E in Hp, IH.
      destruct Hp as [<- | Hp].
      * destruct Hc as [<- | Hc].
        -- split; [left; reflexivity | apply chr_eqb_neq, Hx].
        -- destruct (IH q (or_introl eq_refl) Hc). split; [right |]; assumption.
      * destruct (IH p (or_intror Hp) Hc). split; [right |]; assumption.
Qed.

Lemma join_chars sep parts c :
  In c (Py.join sep parts) ->
  In c sep \/ exists p, In p parts /\ In c p.
Proof.
  induction parts as [| p r IH]; [intros [] |].
  rewrite join_cons. destruct r as [| q r].
  - intros H. right. exists p. split; [left; reflexivity | exact H].
  - intros H. apply in_app_or in H. destruct H as [H | H].
    + right. exists p. split; [left; reflexivity | exact H].
    + apply in_app_or in H. destruct H as [H | H]; [left; exact H |].
      destruct (IH H) as [Hs | (p' & Hp' & Hc)]; [left; exact Hs |].
      right. exists p'. split; [right; exact Hp' | exact Hc].
Qed.

Lemma code_of_no_semicolon line : ~ In ";"%char (code_of line).
Proof.
  unfold code_of. cbn zeta.
  destruct (Py.contains ";" (Py.strip line)) eqn:E.
  - destruct (contains_decomp _ _ E) as (a & b & -> & Ha).
    rewrite (split_app ";"%char a b Ha). cbn [hd].
    intros H. apply strip_subset in H. apply contains_false in Ha. exact (Ha H).
  - apply contains_false, E.
Qed.

Lemma upper_chr_idem c : Py.upper_chr (Py.upper_chr c) = Py.upper_chr c.
Proof. each_char c. Qed.

Lemma parsed_is_some line :
  is_instruction_line line = true ->
  exists w r, Py.split_ws (code_of line) = w :: r /\
              parsed line = Some (Py.upper w, args_of r).
Proof.
  unfold is_instruction_line, parsed. intros H. apply negb_true_iff in H.
  rewrite H.
  destruct (strip_head line) as [E | (c & t & E & Hs)].
  - rewrite E in H. discriminate H.
  - rewrite E, skip_test_cons in H.
    destruct (code_of_head line c t E H) as (t' & -> & _).
    destruct (split_ws_cons c t' Hs) as (w & r & ->). eauto.
Qed.

Lemma parsed_is_none line :
  is_instruction_line line = false -> parsed line = None.
Proof.
  unfold is_instruction_line, parsed. intros H. apply negb_false_iff in H.
  rewrite H. reflexivity.
Qed.

(** X1: an instruction returned by [parse_line] has a mnemonic that is not
    empty, is in upper case and holds no space and no semicolon; each of
    its arguments is stripped and holds no comma, no semicolon and no line
    break. *)
Theorem X1_parse_line_shape line self mnemonic args :
  run (parse_line line) self = Return (Some (mnemonic, args)) ->
  mnemonic <> [] /\
  Py.upper mnemonic = mnemonic /\
  Forall (fun c => token_chr c = true) mnemonic /\
  Forall (fun arg => Py.strip arg = arg /\
                     ~ In ","%char arg /\ ~ In ";"%char arg /\
                     ~ In newline arg) args.
Proof.
  unfold run. rewrite parse_line_eq. cbn [fst]. intros H.
  destruct (is_instruction_line line) eqn:Hl;
    [| rewrite (parsed_is_none line Hl) in H; discriminate H].
  destruct (parsed_is_some line Hl) as (w & r & Hw & Hp).
  rewrite Hp in H. inversion H; subst mnemonic args. clear H.
  assert (Hwords : forall w' c, In w' (w :: r) -> In c w' ->
            Py.isspace c = false /\ c <> ";"%char).
  { intros w' c Hw' Hc. rewrite <- Hw in Hw'.
    destruct (split_ws_chars _ _ _ Hw' Hc) as (Hin & Hsp).
    split; [exact Hsp |]. intros ->. exact (code_of_no_semicolon line Hin). }
  assert (Hne : w <> []).
  { pose proof (split_ws_words (code_of line)) as Hall. rewrite Hw in Hall.
    inversion Hall; assumption. }
  split; [| split; [| split]].
  - destruct w; [contradiction | discriminate].
  - unfold Py.upper. rewrite map_map. apply map_ext. apply upper_chr_idem.
  - unfold Py.upper. apply Forall_forall. intros c Hc.
    apply in_map_iff in Hc. destruct Hc as (c0 & <- & Hc0).
    rewrite token_chr_upper. apply token_chr_spec.
    destruct (Hwords w c0 (or_introl eq_refl) Hc0) as (Hsp & Hsemi).
    split; [exact Hsp | apply chr_eqb_neq, Hsemi].
  - unfold args_of. destruct r as [| w1 r1]; [constructor |].
    apply Forall_forall. intros arg Harg. apply in_map_iff in Harg.
    destruct Harg as (piece & <- & Hpiece).
    assert (Hchars : forall c, In c (Py.strip piece) ->
              c <> ","%char /\ c <> ";"%char /\ c <> newline).
    { intros c Hc. apply strip_subset in Hc.
      destruct (split_pieces _ _ _ _ Hpiece Hc) as (Hin & Hcomma).
      split; [exact Hcomma |].
      apply join_chars in Hin. destruct Hin as [Hin | (w' & Hw' & Hcw)].
      - destruct Hin as [<- | []]. split; discriminate.
      - destruct (Hwords w' c (or_intror Hw') Hcw) as (Hsp & Hsemi).
        split; [exact Hsemi |]. intros ->. discriminate Hsp. }
    split; [apply strip_idem |].
    repeat split; intros Hc; apply Hchars in Hc; tauto.
Qed.

(** X1 on [  store 1 ,0x2 ; there]. *)
Lemma X1_witness :
  run (parse_line "  store 1 ,0x2 ; there") __init__ =
    Return (Some ("STORE" : str, ["1" : str; "0x2" : str])) /\
  Py.upper "STORE" = ("STORE" : str) /\
  Forall (fun c => token_chr c = true) ("STORE" : str).
Proof.
  assert (H : run (parse_line "  store 1 ,0x2 ; there") __init__ =
              Return (Some ("STORE" : str, ["1" : str; "0x2" : str])))
    by (vm_compute; reflexivity).
  split; [exact H |].
  destruct (X1_parse_line_shape _ _ _ _ H) as (_ & Hu & Ht & _).
  split; [exact Hu | exact Ht].
Defined.

(** ** Sources and their lines *)

Lemma encode_all_app l1 l2 :
  encode_all (l1 ++ l2) =
  match encode_all l1 with
  | Raise e => Raise e
  | Return records1 =>
      match encode_all l2 with
      | Raise e => Raise e
      | Return records2 => Return (records1 ++ records2)
      end
  end.
Proof.
  induction l1 as [| ins t IH]; cbn [app encode_all].
  - destruct (encode_all l2); reflexivity.
  - destruct (encode ins); [| reflexivity]. rewrite IH.
    destruct (encode_all t); [| reflexivity].
    destruct (encode_all l2); reflexivity.
Qed.

(** X2: translating two sources joined by a line break is translating
    each and appending the records; when the first source fails, or else
    the second, the joined source fails with that error. *)
Theorem X2_assemble_concat a b :
  run (assemble (a ++ newline :: b)) __init__ =
  match run (assemble a) __init__ with
  | Raise e => Raise e
  | Return records_a =>
      match run (assemble b) __init__ with
      | Raise e => Raise e
      | Return records_b => Return (records_a ++ records_b)
      end
  end.
Proof.
  rewrite !assemble_init, instructions_app. apply encode_all_app.
Qed.

Lemma instruction_of_length line :
  length (instruction_of line) = if is_instruction_line line then 1%nat else 0%nat.
Proof.
  unfold instruction_of. destruct (is_instruction_line line) eqn:E.
  - destruct (parsed_is_some line E) as (w & r & _ & ->). reflexivity.
  - rewrite (parsed_is_none line E). reflexivity.
Qed.

Lemma instructions_length src :
  length (instructions src) =
  length (filter is_instruction_line (Py.split newline src)).
Proof.
  unfold instructions. induction (Py.split newline src) as [| l t IH];
    [reflexivity |].
  cbn [flat_map filter]. rewrite length_app, instruction_of_length, IH.
  destruct (is_instruction_line l); reflexivity.
Qed.

(** X3: on a source of ASCII text, [parse_source] returns one instruction
    for every line that is neither blank nor a comment, and a translation
    that succeeds returns as many records. *)
Theorem X3_one_record_per_line :
  (forall src self,
     Py.isascii src = true ->
     exists cmds,
       run (parse_source src) self = Return cmds /\
       length cmds =
       length (filter is_instruction_line (Py.split newline src))) /\
  (forall src records,
     Py.isascii src = true ->
     run (assemble src) __init__ = Return records ->
     length records =
     length (filter is_instruction_line (Py.split newline src))).
Proof.
  split.
  - intros src self _. exists (instructions src). split.
    + unfold run. rewrite parse_source_eq. reflexivity.
    + apply instructions_length.
  - intros src records _ H. rewrite assemble_init in H.
    apply encode_all_Forall2 in H. apply Forall2_length in H.
    rewrite <- H. apply instructions_length.
Qed.

(** X3 on a source of five lines, two of them instructions. *)
Lemma X3_witness :
  let src := unlines ["; two instructions" : str; "STORE 1, 2" : str;
                      "" : str; "  load_const 3, 4 ; x" : str; "  " : str] in
  exists records,
    run (assemble src) __init__ = Return records /\ length records = 2%nat.
Proof.
  intros src.
  assert (H : run (assemble src) __init__ =
              Return [[("A" : str, 12); ("B" : str, 1); ("C" : str, 2)];
                      [("A" : str, 20); ("B" : str, 3); ("C" : str, 4)]])
    by (vm_compute; reflexivity).
  eexists. split; [exact H |].
  rewrite (proj2 X3_one_record_per_line src _ eq_refl H).
  vm_compute. reflexivity.
Defined.

Lemma no_newline_app a b : no_newline a -> no_newline b -> no_newline (a ++ b).
Proof.
  unfold no_newline. intros Ha Hb H. apply in_app_or in H. tauto.
Qed.

(** X4: spaces in front of a line and behind it do not change the
    translation of a source. *)
Theorem X4_indentation before line ws1 ws2 after self :
  Forall (fun c => Py.isspace c = true) ws1 ->
  Forall (fun c => Py.isspace c = true) ws2 ->
  no_newline ws1 -> no_newline line -> no_newline ws2 ->
  run (assemble (unlines (before ++ (ws1 ++ line ++ ws2) :: after))) self =
  run (assemble (unlines (before ++ line :: after))) self.
Proof.
  intros H1 H2 N1 Nl N2. unfold run. f_equal.
  apply assemble_exchange.
  - apply no_newline_app; [exact N1 |]. apply no_newline_app; assumption.
  - exact Nl.
  - apply parsed_strip. rewrite strip_app_spaces_l by exact H1.
    apply strip_app_spaces_r, H2.
Qed.

(** X4 on a line indented by a tab and followed by two spaces. *)
Lemma X4_witness :
  let tab : str := [ascii_of_nat 9] in
  run (assemble (unlines (["STORE 1, 2" : str] ++
                          (tab ++ ("store 3, 4" : str) ++ ("  " : str)) ::
                          []))) __init__ =
  run (assemble (unlines (["STORE 1, 2" : str] ++
                          ("store 3, 4" : str) :: []))) __init__.
Proof.
  intros tab.
  assert (Hnn : forall s : str,
            forallb (fun c => negb (Py.chr_eqb c newline)) s = true ->
            no_newline s).
  { intros s H Hin. rewrite forallb_forall in H. specialize (H _ Hin).
    rewrite chr_eqb_refl in H. discriminate H. }
  apply X4_indentation; try (apply Hnn; reflexivity);
    repeat constructor.
Defined.

Lemma instructions_crlf lines :
  Forall no_newline lines ->
  instructions (unlines_crlf lines) = instructions (unlines lines).
Proof.
  unfold unlines_crlf, unlines.
  induction 1 as [| l t Hl Ht IH]; [reflexivity |].
  rewrite !join_cons. destruct t as [| l' t']; [reflexivity |].
  change (l ++ [carriage_return; newline] ++ Py.join [carriage_return; newline] (l' :: t'))
    with (l ++ carriage_return :: newline ::
          Py.join [carriage_return; newline] (l' :: t')).
  replace (l ++ carriage_return :: newline ::
           Py.join [carriage_return; newline] (l' :: t'))
    with ((l ++ [carriage_return]) ++ newline ::
          Py.join [carriage_return; newline] (l' :: t'))
    by (rewrite <- app_assoc; reflexivity).
  cbn [app]. rewrite !instructions_app, IH. f_equal.
  rewrite !instructions_line.
  - unfold instruction_of.
    rewrite (parsed_strip (l ++ [carriage_return]) l); [reflexivity |].
    apply strip_app_spaces_r. repeat constructor.
  - exact Hl.
  - apply no_newline_app; [exact Hl |]. intros [E | []]. discriminate E.
Qed.

(** X5: a source whose lines end in carriage return and line feed
    translates as the source whose lines end in a line feed. *)
Theorem X5_crlf lines self :
  Forall no_newline lines ->
  run (assemble (unlines_crlf lines)) self =
  run (assemble (unlines lines)) self.
Proof.
  intros H. unfold run. f_equal. apply assemble_instructions.
  apply instructions_crlf, H.
Qed.

(** X5 on a source of three lines. *)
Lemma X5_witness :
  let lines := ["; header" : str; "STORE 1, 2" : str;
                "BINARY_OP 1, 2, 3, 4" : str] in
  Forall no_newline lines /\
  run (assemble (unlines_crlf lines)) __init__ =
  run (assemble (unlines lines)) __init__.
Proof.
  intros lines.
  assert (H : Forall no_newline lines).
  { apply Forall_forall. intros l Hl Hin.
    assert (E : forallb (fun c => negb (Py.chr_eqb c newline)) l = true).
    { destruct Hl as [<- | [<- | [<- | []]]]; reflexivity. }
    rewrite forallb_forall in E. specialize (E _ Hin).
    rewrite chr_eqb_refl in E. discriminate E. }
  split; [exact H | exact (X5_crlf lines __init__ H)].
Defined.

(** ** Numbers *)

Lemma digits_no_underscore base ds :
  Forall (digit_of base) ds -> Py.startswith ds "_" = false.
Proof.
  intros H. destruct H as [| c t Hc _]; [reflexivity |].
  cbn [list_ascii_of_string Py.startswith].
  destruct Hc as (_ & _ & _ & _ & -> & _). reflexivity.
Qed.

Lemma int_of_str_second_prefix x ds :
  x = "x"%char \/ x = "X"%char -> ds <> [] -> Forall (digit_of 16) ds ->
  Py.int_of_str ("0"%char :: x :: ds) 16 = inr (number_value 16 ds).
Proof.
  intros Hx Hne Hds. unfold Py.int_of_str.
  change (Py.drop_while Py.Py_ISSPACE ("0"%char :: x :: ds))
    with ("0"%char :: x :: ds).
  change (Py.startswith ("0"%char :: x :: ds) "-") with false.
  change (Py.startswith ("0"%char :: x :: ds) "+") with false.
  cbn [orb].
  assert (Hp : (16 =? 16) &&
               (Py.startswith ("0"%char :: x :: ds) "0x" ||
                Py.startswith ("0"%char :: x :: ds) "0X") = true).
  { destruct Hx as [-> | ->]; reflexivity. }
  rewrite Hp. cbn [skipn].
  rewrite (digits_no_underscore 16 ds Hds).
  rewrite (int_of_str_tail 16 ds (or_intror eq_refl) Hne Hds
             ltac:(discriminate) 1).
  f_equal. lia.
Qed.

Lemma int_of_str_plus ds :
  ds <> [] -> Forall (digit_of 16) ds ->
  Py.int_of_str ("+"%char :: ds) 16 = inr (number_value 16 ds).
Proof.
  intros Hne Hds. unfold Py.int_of_str.
  change (Py.drop_while Py.Py_ISSPACE ("+"%char :: ds)) with ("+"%char :: ds).
  change (Py.startswith ("+"%char :: ds) "-") with false.
  change (Py.startswith ("+"%char :: ds) "+") with true.
  cbn [orb skipn]. rewrite (prefix_check 16 ds Hds).
  rewrite (int_of_str_tail 16 ds (or_intror eq_refl) Hne Hds
             ltac:(discriminate) 1).
  f_equal. lia.
Qed.

Lemma strip_ends c t d :
  Py.isspace c = false -> Py.isspace d = false ->
  Py.strip (c :: t ++ [d]) = c :: t ++ [d].
Proof.
  intros Hc Hd. rewrite strip_cons by exact Hc.
  rewrite rstrip_app_nonspace by exact Hd. reflexivity.
Qed.

(** The text behind the prefix goes to [int] as it is when the argument
    starts with [0x] and ends in a digit. *)
Lemma parse_number_prefix_digits body ds self :
  ds <> [] -> Forall (digit_of 16) ds ->
  run (_parse_number ("0"%char :: "x"%char :: body ++ ds)) self =
  run (int (body ++ ds) 16) self.
Proof.
  intros Hne Hds. unfold run, _parse_number.
  destruct (exists_last Hne) as (ds' & d & ->).
  assert (Hd : Py.isspace d = false).
  { apply Forall_app in Hds. destruct Hds as (_ & Hd).
    inversion Hd as [| ? ? H _]; subst. apply H. }
  replace ("0"%char :: "x"%char :: body ++ ds' ++ [d])
    with ("0"%char :: ("x"%char :: body ++ ds') ++ [d])
    by (cbn [app]; rewrite <- app_assoc; reflexivity).
  rewrite strip_ends by (reflexivity || exact Hd).
  cbn [app]. rewrite <- app_assoc. reflexivity.
Qed.

(** X7: behind the prefix [0x] a second prefix [0x] or [0X], a plus sign
    or a space is accepted before the hexadecimal digits and does not
    change the value. *)
Theorem X7_second_prefix ds self :
  ds <> [] -> Forall (fun c => In c hexdigits) ds ->
  run (_parse_number ("0x0x" ++ ds)) self = Return (number_value 16 ds) /\
  run (_parse_number ("0x0X" ++ ds)) self = Return (number_value 16 ds) /\
  run (_parse_number ("0x+" ++ ds)) self = Return (number_value 16 ds) /\
  run (_parse_number ("0x " ++ ds)) self = Return (number_value 16 ds).
Proof.
  intros Hne Hin. pose proof (hexdigits_digit_of ds Hin) as Hds.
  repeat split.
  - change ("0x0x" ++ ds)
      with ("0"%char :: "x"%char :: ["0"%char; "x"%char] ++ ds).
    rewrite parse_number_prefix_digits by assumption.
    apply run_int_Return, int_of_str_second_prefix; auto.
  - change ("0x0X" ++ ds)
      with ("0"%char :: "x"%char :: ["0"%char; "X"%char] ++ ds).
    rewrite parse_number_prefix_digits by assumption.
    apply run_int_Return, int_of_str_second_prefix; auto.
  - change ("0x+" ++ ds) with ("0"%char :: "x"%char :: ["+"%char] ++ ds).
    rewrite parse_number_prefix_digits by assumption.
    apply run_int_Return, int_of_str_plus; assumption.
  - change ("0x " ++ ds) with ("0"%char :: "x"%char :: [" "%char] ++ ds).
    rewrite parse_number_prefix_digits by assumption.
    apply run_int_Return.
    change (Py.int_of_str ([" "%char] ++ ds) 16) with (Py.int_of_str ds 16).
    apply int_of_str_digits; auto; discriminate.
Qed.

Lemma hexdigits_bool (ds : str) :
  forallb (fun c => existsb (Py.chr_eqb c) hexdigits) ds = true ->
  Forall (fun c => In c hexdigits) ds.
Proof.
  intros H. apply Forall_forall. intros c Hc.
  rewrite forallb_forall in H. specialize (H c Hc).
  apply existsb_exists in H. destruct H as (x & Hx & E).
  apply chr_eqb_eq in E. subst. exact Hx.
Qed.

(** X7 on [0x0x1f], [0x0X1f], [0x+1f] and [0x 1f]. *)
Lemma X7_witness :
  run (_parse_number "0x0x1f") __init__ = Return 31 /\
  run (_parse_number "0x0X1f") __init__ = Return 31 /\
  run (_parse_number "0x+1f") __init__ = Return 31 /\
  run (_parse_number "0x 1f") __init__ = Return 31.
Proof.
  exact (X7_second_prefix "1f" __init__ ltac:(discriminate)
           (hexdigits_bool "1f" eq_refl)).
Defined.

Lemma digit_val_upper c : digit_val (Py.upper_chr c) = digit_val c.
Proof. each_char c. Qed.

Lemma digit_val_lower c : digit_val (Py.lower_chr c) = digit_val c.
Proof. each_char c. Qed.

Lemma hexdigit_upper c : In c hexdigits -> In (Py.upper_chr c) hexdigits.
Proof.
  unfold hexdigits. cbn [list_ascii_of_string In]. intros H.
  repeat (destruct H as [<- | H]; [vm_compute; tauto |]). contradiction.
Qed.

Lemma hexdigit_lower c : In c hexdigits -> In (Py.lower_chr c) hexdigits.
Proof.
  unfold hexdigits. cbn [list_ascii_of_string In]. intros H.
  repeat (destruct H as [<- | H]; [vm_compute; tauto |]). contradiction.
Qed.

Lemma number_value_map base f ds :
  (forall c, digit_val (f c) = digit_val c) ->
  number_value base (map f ds) = number_value base ds.
Proof.
  intros Hf. unfold number_value. generalize 0.
  induction ds as [| c t IH]; intros acc; [reflexivity |].
  cbn [map fold_left]. rewrite Hf. apply IH.
Qed.

Lemma number_value_zero base ds :
  number_value base ("0"%char :: ds) = number_value base ds.
Proof. reflexivity. Qed.

(** X8: the hexadecimal digits may be written in either case, and zeros
    in front of them do not count: the value is the same. *)
Theorem X8_hex_case_and_zeros ds self :
  ds <> [] -> Forall (fun c => In c hexdigits) ds ->
  run (_parse_number ("0x" ++ Py.upper ds)) self =
    run (_parse_number ("0x" ++ ds)) self /\
  run (_parse_number ("0x" ++ Py.lower ds)) self =
    run (_parse_number ("0x" ++ ds)) self /\
  run (_parse_number ("0x0" ++ ds)) self =
    run (_parse_number ("0x" ++ ds)) self.
Proof.
  intros Hne Hin.
  assert (Hval : forall ds', ds' <> [] -> Forall (fun c => In c hexdigits) ds' ->
            run (_parse_number ("0x" ++ ds')) self =
            Return (number_value 16 ds')).
  { intros ds' Hne' Hin'. pose proof (hexdigits_digit_of ds' Hin') as Hds.
    change ("0x" ++ ds') with ("0"%char :: "x"%char :: ds').
    rewrite parse_number_hex_prefix by exact (digits_nospace 16 ds' Hds).
    apply run_int_Return, int_of_str_digits; auto; discriminate. }
  rewrite (Hval ds Hne Hin). repeat split.
  - rewrite Hval.
    + unfold Py.upper. rewrite number_value_map by apply digit_val_upper.
      reflexivity.
    + destruct ds; [contradiction | discriminate].
    + unfold Py.upper. apply Forall_forall. intros c Hc.
      apply in_map_iff in Hc. destruct Hc as (c0 & <- & Hc0).
      rewrite Forall_forall in Hin. apply hexdigit_upper, Hin, Hc0.
  - rewrite Hval.
    + unfold Py.lower. rewrite number_value_map by apply digit_val_lower.
      reflexivity.
    + destruct ds; [contradiction | discriminate].
    + unfold Py.lower. apply Forall_forall. intros c Hc.
      apply in_map_iff in Hc. destruct Hc as (c0 & <- & Hc0).
      rewrite Forall_forall in Hin. apply hexdigit_lower, Hin, Hc0.
  - change ("0x0" ++ ds) with ("0x" ++ "0"%char :: ds).
    rewrite Hval.
    + rewrite number_value_zero. reflexivity.
    + discriminate.
    + constructor; [| exact Hin]. vm_compute. tauto.
Qed.

(** X8 on [0xBEEF], [0xbeef] and [0x0bEeF]. *)
Lemma X8_witness :
  run (_parse_number "0xBEEF") __init__ = run (_parse_number "0xbEeF") __init__ /\
  run (_parse_number "0xbeef") __init__ = run (_parse_number "0xbEeF") __init__ /\
  run (_parse_number "0x0bEeF") __init__ = run (_parse_number "0xbEeF") __init__.
Proof.
  exact (X8_hex_case_and_zeros "bEeF" __init__ ltac:(discriminate)
           (hexdigits_bool "bEeF" eq_refl)).
Defined.

Lemma hex_digit_exists d :
  0 <= d < 16 -> exists c, In c hexdigits /\ digit_val c = d.
Proof.
  intros H.
  exists (nth (Z.to_nat d) (list_ascii_of_string "0123456789abcdef") "0"%char).
  assert (E : d = 0 \/ d = 1 \/ d = 2 \/ d = 3 \/ d = 4 \/ d = 5 \/ d = 6 \/
              d = 7 \/ d = 8 \/ d = 9 \/ d = 10 \/ d = 11 \/ d = 12 \/
              d = 13 \/ d = 14 \/ d = 15) by lia.
  repeat (destruct E as [-> | E]; [split; [vm_compute; tauto | reflexivity] |]).
  subst d. split; [vm_compute; tauto | reflexivity].
Qed.

Lemma number_value_snoc base ds c :
  number_value base (ds ++ [c]) = number_value base ds * base + digit_val c.
Proof. unfold number_value. rewrite fold_left_app. reflexivity. Qed.

Lemma hex_digits_exist n : forall z,
  0 <= z < 16 ^ Z.of_nat n ->
  exists ds, ds <> [] /\ Forall (fun c => In c hexdigits) ds /\
             number_value 16 ds = z.
Proof.
  induction n as [| n IH]; intros z Hz.
  - exists ["0"%char]. change (16 ^ Z.of_nat 0) with 1 in Hz.
    assert (z = 0) by lia. subst z.
    split; [discriminate |]. split; [| reflexivity].
    constructor; [vm_compute; tauto | constructor].
  - rewrite Nat2Z.inj_succ, Z.pow_succ_r in Hz by lia.
    destruct (IH (z / 16)) as (ds & Hne & Hds & Hv).
    { split; [apply Z.div_pos; lia |].
      apply Z.div_lt_upper_bound; lia. }
    destruct (hex_digit_exists (z mod 16)) as (c & Hc & Hd).
    { apply Z.mod_pos_bound. lia. }
    exists (ds ++ [c]). split; [destruct ds; discriminate |].
    split.
    + apply Forall_app. split; [exact Hds | constructor; [exact Hc | constructor]].
    + rewrite number_value_snoc, Hv, Hd.
      rewrite (Z.div_mod z 16) at 3 by lia. lia.
Qed.

Lemma hexdigit_arg_chr c : In c hexdigits -> arg_chr c = true.
Proof.
  unfold hexdigits. cbn [list_ascii_of_string In]. intros H.
  repeat (destruct H as [<- | H]; [reflexivity |]). contradiction.
Qed.

(** X9: operands are not checked against any range.  Every integer,
    negative ones included, is the value of an argument made of argument
    characters only. *)
Theorem X9_no_range_check z self :
  exists arg,
    arg <> [] /\ Forall (fun c => arg_chr c = true) arg /\
    run (_parse_number arg) self = Return z.
Proof.
  assert (Hbound : forall n, 0 <= n -> n < 16 ^ Z.of_nat (Z.to_nat n)).
  { intros n Hn. rewrite Z2Nat.id by exact Hn.
    apply Z.pow_gt_lin_r; lia. }
  destruct (Z_lt_le_dec z 0) as [Hneg | Hpos].
  - destruct (hex_digits_exist (Z.to_nat (- z)) (- z)) as (ds & Hne & Hin & Hv).
    { split; [lia | apply Hbound; lia]. }
    pose proof (hexdigits_digit_of ds Hin) as Hds.
    exists ("0x-" ++ ds). split; [discriminate |]. split.
    + repeat (constructor; [reflexivity |]).
      eapply Forall_impl; [| exact Hin]. apply hexdigit_arg_chr.
    + change ("0x-" ++ ds) with ("0"%char :: "x"%char :: "-"%char :: ds).
      rewrite parse_number_hex_prefix
        by (constructor; [reflexivity | exact (digits_nospace 16 ds Hds)]).
      replace z with (- number_value 16 ds) by lia.
      apply run_int_Return, int_of_str_minus; auto; discriminate.
  - destruct (hex_digits_exist (Z.to_nat z) z) as (ds & Hne & Hin & Hv).
    { split; [lia | apply Hbound; lia]. }
    pose proof (hexdigits_digit_of ds Hin) as Hds.
    exists ("0x" ++ ds). split; [discriminate |]. split.
    + repeat (constructor; [reflexivity |]).
      eapply Forall_impl; [| exact Hin]. apply hexdigit_arg_chr.
    + change ("0x" ++ ds) with ("0"%char :: "x"%char :: ds).
      rewrite parse_number_hex_prefix by exact (digits_nospace 16 ds Hds).
      rewrite <- Hv.
      apply run_int_Return, int_of_str_digits; auto; discriminate.
Qed.

(** ** The loop of [assemble] on any instance *)

Lemma for_each_app {A S} (body : S -> A -> M S) l1 l2 acc self :
  for_each (l1 ++ l2) acc body self =
  bind (for_each l1 acc body) (fun acc' => for_each l2 acc' body) self.
Proof.
  revert acc self. induction l1 as [| x t IH]; intros acc self.
  - reflexivity.
  - cbn [app for_each]. unfold bind.
    destruct (body acc x self) as [[acc' | e] self']; [| reflexivity].
    rewrite IH. reflexivity.
Qed.

Lemma last_record_snoc records record :
  last_record (records ++ [record]) = Some record.
Proof. unfold last_record. rewrite rev_app_distr. reflexivity. Qed.

(** What the loop body returns on any instance: the list with one more
    record, which is the new value of [command]. *)
Lemma assemble_body_returns ir cmd ins self st self' :
  assemble_body (ir, cmd) ins self = (Return st, self') ->
  exists record, st = (ir ++ [record], Some record).
Proof.
  destruct ins as [m args]. unfold assemble_body.
  unfold bind at 1. cbn [self_mnemonics].
  destruct (negb (Py.dict_in m (mnemonics self))); [discriminate |].
  unfold bind at 1.
  match goal with
  | |- context [match ?c self with _ => _ end] =>
      destruct (c self) as [[[record |] | e] self1]
  end; cbn; intros H; inversion H; eauto.
Qed.

Lemma assemble_loop_command l : forall ir self st self',
  for_each l (ir, last_record ir) assemble_body self = (Return st, self') ->
  snd st = last_record (fst st).
Proof.
  induction l as [| ins t IH]; intros ir self st self' H.
  - inversion H. reflexivity.
  - cbn [for_each] in H. unfold bind in H.
    destruct (assemble_body (ir, last_record ir) ins self)
      as [[st1 | e] self1] eqn:E; [| discriminate H].
    destruct (assemble_body_returns _ _ _ _ _ _ E) as (record & ->).
    rewrite <- (last_record_snoc ir record) in H.
    exact (IH _ _ _ _ H).
Qed.

(** A mnemonic of the table that the loop body has no branch for. *)
Lemma assemble_body_no_branch ir cmd m args self :
  Py.dict_in m (mnemonics self) = true -> has_branch m = false ->
  assemble_body (ir, cmd) (m, args) self =
  (match cmd with
   | Some record => Return (ir ++ [record], Some record)
   | None => Raise (UnboundLocalError "command")
   end, self).
Proof.
  unfold has_branch. intros Hin Hb.
  apply orb_false_iff in Hb. destruct Hb as (Hb & H3).
  apply orb_false_iff in Hb. destruct Hb as (H1 & H2).
  unfold assemble_body. unfold bind at 1. cbn [self_mnemonics].
  rewrite Hin. cbn [negb]. rewrite H1, H2, H3.
  unfold bind, ret. destruct cmd; reflexivity.
Qed.

(** X10: on an instance whose table holds a mnemonic beside the three
    that the loop has a branch for, an instruction with that mnemonic is
    not encoded: whatever its arguments, the record of the instruction
    before it is appended once more, and as the first instruction of a
    source it raises [UnboundLocalError]. *)
Theorem X10_mnemonic_without_branch self src line m args :
  no_newline line ->
  run (parse_line line) self = Return (Some (m, args)) ->
  Py.dict_in m (mnemonics self) = true -> has_branch m = false ->
  run (assemble (src ++ newline :: line)) self =
  match run (assemble src) self with
  | Raise e => Raise e
  | Return records =>
      match last_record records with
      | Some record => Return (records ++ [record])
      | None => Raise (UnboundLocalError "command")
      end
  end.
Proof.
  intros Hnl Hline Hin Hb.
  unfold run in Hline. rewrite parse_line_eq in Hline. cbn [fst] in Hline.
  inversion Hline as [Hp]. clear Hline.
  unfold run, assemble. unfold bind at 1 3. rewrite !parse_source_eq.
  rewrite instructions_app, (instructions_line line Hnl).
  unfold instruction_of. rewrite Hp.
  unfold bind at 1 2. rewrite for_each_app. unfold bind at 1.
  change (@nil command, @None command)
    with (@nil command, last_record (@nil command)).
  destruct (for_each (instructions src) ([], last_record []) assemble_body self)
    as [[[ir cmd] | e] self1] eqn:E; [| reflexivity].
  pose proof (assemble_loop_command _ _ _ _ _ E) as Hcmd. cbn [fst snd] in Hcmd.
  assert (Hself : self1 = self).
  { pose proof (readonly_for_each assemble_body (instructions src)
                  readonly_assemble_body ([], last_record []) self) as Hr.
    unfold instance_after in Hr. rewrite E in Hr. exact Hr. }
  subst self1 cmd. cbn [for_each]. unfold bind at 1.
  rewrite (assemble_body_no_branch ir (last_record ir) m args self Hin Hb).
  unfold ret. cbn [fst]. destruct (last_record ir); reflexivity.
Qed.

(** X10 on an instance whose table has [NOP] as a fourth mnemonic. *)
Lemma X10_witness :
  let self := {| mnemonics := mnemonics __init__ ++ [("NOP" : str, 0)] |} in
  run (assemble (("STORE 1, 2" : str) ++ newline :: ("nop 7" : str))) self =
    Return [[("A" : str, 12); ("B" : str, 1); ("C" : str, 2)];
            [("A" : str, 12); ("B" : str, 1); ("C" : str, 2)]] /\
  run (assemble (("; empty" : str) ++ newline :: ("nop 7" : str))) self =
    Raise (UnboundLocalError "command").
Proof.
  intros self.
  assert (Hnl : no_newline ("nop 7" : str)).
  { intros Hin. vm_compute in Hin. intuition discriminate. }
  assert (Hline : run (parse_line "nop 7") self =
                  Return (Some ("NOP" : str, ["7" : str])))
    by (vm_compute; reflexivity).
  split.
  - rewrite (X10_mnemonic_without_branch self "STORE 1, 2" "nop 7" "NOP"
               ["7" : str] Hnl Hline eq_refl eq_refl).
    vm_compute. reflexivity.
  - rewrite (X10_mnemonic_without_branch self "; empty" "nop 7" "NOP"
               ["7" : str] Hnl Hline eq_refl eq_refl).
    vm_compute. reflexivity.
Defined.

Lemma self_mnemonics_eq self :
  self_mnemonics self = (Return (mnemonics self), self).
Proof. reflexivity. Qed.

Lemma opcode_of_eq m self opcode :
  Py.dict_get (mnemonics self) m = Some opcode ->
  opcode_of m self = (Return opcode, self).
Proof.
  intros H. unfold opcode_of, bind, subscript. cbn [self_mnemonics].
  rewrite H. reflexivity.
Qed.

Lemma arities_three m n :
  Py.dict_get arities m = Some n ->
  (m = "LOAD_CONST" :> str /\ n = 2%nat) \/ (m = "STORE" :> str /\ n = 2%nat) \/
  (m = "BINARY_OP" :> str /\ n = 4%nat).
Proof.
  cbn [Py.dict_get arities].
  destruct (Py.str_eqb m "LOAD_CONST") eqn:E1.
  { apply str_eqb_eq in E1. intros H. inversion H. auto. }
  destruct (Py.str_eqb m "STORE") eqn:E2.
  { apply str_eqb_eq in E2. intros H. inversion H. auto. }
  destruct (Py.str_eqb m "BINARY_OP") eqn:E3.
  { apply str_eqb_eq in E3. intros H. inversion H. auto. }
  discriminate.
Qed.

(** X11: the opcode is read from the table of the instance when the
    instruction is encoded.  On any instance, an instruction with one of
    the three mnemonics, the right number of arguments and arguments that
    decode gives the record whose field [A] is what the table of that
    instance holds for the mnemonic. *)
Theorem X11_opcode_from_instance self st mnemonic args opcode n values :
  Py.dict_get (mnemonics self) mnemonic = Some opcode ->
  Py.dict_get arities mnemonic = Some n ->
  length args = n ->
  Forall2 (fun arg value => run (_parse_number arg) self = Return value)
          args values ->
  run (assemble_body st (mnemonic, args)) self =
    Return (fst st ++ [combine labels (opcode :: values)],
            Some (combine labels (opcode :: values))).
Proof.
  intros Hop Hn Hlen Hargs. destruct st as [ir cmd].
  assert (Hin : Py.dict_in mnemonic (mnemonics self) = true).
  { unfold Py.dict_in. rewrite Hop. reflexivity. }
  assert (Hdec : forall a v, run (_parse_number a) self = Return v ->
                             decode a = Return v).
  { intros a v H. unfold run in H. rewrite run_parse_number in H. exact H. }
  unfold run, assemble_body. unfold bind at 1. cbn [self_mnemonics].
  rewrite Hin. cbn [negb].
  destruct (arities_three _ _ Hn) as [(-> & ->) | [(-> & ->) | (-> & ->)]].
  - destruct args as [| a [| b [| c args]]]; try discriminate Hlen.
    inversion Hargs as [| ? va ? vs Ha Hr]; subst.
    inversion Hr as [| ? vb ? vs' Hb Hr']; subst. inversion Hr'; subst.
    apply Hdec in Ha, Hb.
    cbn [Py.str_eqb list_ascii_of_string andb length Nat.eqb negb].
    rewrite !chr_eqb_refl. cbn [andb].
    unfold bind. rewrite (opcode_of_eq _ self opcode) by exact Hop.
    rewrite number_at_0, Ha, number_at_S, number_at_0, Hb. reflexivity.
  - destruct args as [| a [| b [| c args]]]; try discriminate Hlen.
    inversion Hargs as [| ? va ? vs Ha Hr]; subst.
    inversion Hr as [| ? vb ? vs' Hb Hr']; subst. inversion Hr'; subst.
    apply Hdec in Ha, Hb.
    change (Py.str_eqb "STORE" "LOAD_CONST") with false.
    change (Py.str_eqb "STORE" "STORE") with true.
    cbn [length Nat.eqb negb].
    unfold bind. rewrite (opcode_of_eq _ self opcode) by exact Hop.
    rewrite number_at_0, Ha, number_at_S, number_at_0, Hb. reflexivity.
  - destruct args as [| a [| b [| c [| d [| e args]]]]]; try discriminate Hlen.
    inversion Hargs as [| ? va ? vs Ha Hr]; subst.
    inversion Hr as [| ? vb ? vs1 Hb Hr1]; subst.
    inversion Hr1 as [| ? vc ? vs2 Hc Hr2]; subst.
    inversion Hr2 as [| ? vd ? vs3 Hd Hr3]; subst. inversion Hr3; subst.
    apply Hdec in Ha, Hb, Hc, Hd.
    change (Py.str_eqb "BINARY_OP" "LOAD_CONST") with false.
    change (Py.str_eqb "BINARY_OP" "STORE") with false.
    change (Py.str_eqb "BINARY_OP" "BINARY_OP") with true.
    cbn [length Nat.eqb negb].
    unfold bind. rewrite (opcode_of_eq _ self opcode) by exact Hop.
    rewrite number_at_0, Ha, number_at_S, number_at_0, Hb.
    rewrite !number_at_S, number_at_0, Hc.
    rewrite !number_at_S, number_at_0, Hd. reflexivity.
Qed.

(** X11 on an instance whose table gives [STORE] the opcode 99. *)
Lemma X11_witness :
  let self := {| mnemonics := [("STORE" : str, 99)] |} in
  run (assemble_body ([], None) ("STORE" : str, ["0x10" : str; "-1" : str]))
      self =
  Return ([[("A" : str, 99); ("B" : str, 16); ("C" : str, -1)]],
          Some [("A" : str, 99); ("B" : str, 16); ("C" : str, -1)]).
Proof.
  intros self.
  apply (X11_opcode_from_instance self ([], None) "STORE"
           ["0x10" : str; "-1" : str] 99 2%nat [16; -1]).
  - reflexivity.
  - reflexivity.
  - reflexivity.
  - repeat constructor.
Defined.

(** ** Errors of single instructions *)

(** X12: an unknown mnemonic is reported in upper case, not as it is
    written.  A line whose first word, of ASCII text, is not one of the
    three mnemonics in any casing raises [UnknownMnemonic] with the
    upper-cased word, whatever follows it on the line. *)
Theorem X12_unknown_in_upper_case ws m rest :
  Forall (fun c => Py.isspace c = true) ws ->
  m <> [] -> Py.isascii m = true ->
  Forall (fun c => token_chr c = true) m -> token_end rest ->
  no_newline (ws ++ m ++ rest) ->
  Py.dict_in (Py.upper m) (mnemonics __init__) = false ->
  run (assemble (ws ++ m ++ rest)) __init__ =
    Raise (UnknownMnemonic (Py.upper m)).
Proof.
  intros Hws Hne _ Hm Hrest Hnl Hunknown.
  rewrite assemble_init, (instructions_line _ Hnl). unfold instruction_of.
  rewrite (parsed_strip (ws ++ m ++ rest) (m ++ rest))
    by (apply strip_app_spaces_l, Hws).
  rewrite (parsed_token m rest Hne Hm Hrest). cbn [encode_all].
  rewrite encode_eq, (encoding_unknown _ _ Hunknown). reflexivity.
Qed.

(** X12 on [  Jump 1, 2 ; far], reported as [JUMP]. *)
Lemma X12_witness :
  run (assemble "  Jump 1, 2 ; far") __init__ = Raise (UnknownMnemonic "JUMP").
Proof.
  apply (X12_unknown_in_upper_case ("  " : str) ("Jump" : str)
           (" 1, 2 ; far" : str)).
  - repeat constructor.
  - discriminate.
  - reflexivity.
  - apply Forall_forall. intros c Hc.
    assert (E : forallb token_chr ("Jump" : str) = true) by reflexivity.
    rewrite forallb_forall in E. exact (E c Hc).
  - reflexivity.
  - intros Hin.
    assert (E : forallb (fun c => negb (Py.chr_eqb c newline))
                  (("  " : str) ++ ("Jump" : str) ++ (" 1, 2 ; far" : str)) = true)
      by reflexivity.
    rewrite forallb_forall in E. specialize (E _ Hin).
    rewrite chr_eqb_refl in E. discriminate E.
  - reflexivity.
Defined.

Lemma decode_all_in_error args a e0 :
  In a args -> decode a = Raise e0 -> exists e, decode_all args = Raise e.
Proof.
  intros Hin Ha. induction args as [| x t IH]; [contradiction |].
  cbn [decode_all]. destruct Hin as [-> | Hin].
  - rewrite Ha. eauto.
  - destruct (decode x); [| eauto].
    destruct (IH Hin) as (e & ->). eauto.
Qed.

Lemma encoding_empty_argument m args :
  In [] args -> exists e, encoding (m, args) = Raise e.
Proof.
  intros Hin. unfold encoding.
  destruct (tables_agree m) as
    [(opcode & n & message & -> & -> & -> & _) | (-> & _)]; [| eauto].
  destruct (decode_all_in_error args [] (InvalidNumber 10 []) Hin eq_refl)
    as (e & ->).
  match goal with
  | |- context [if ?b then _ else _] => destruct b
  end; eauto.
Qed.

(** X13: an empty argument never encodes, wherever it stands: a source
    with an instruction one of whose arguments is empty, as two commas in
    a row or a comma right after the mnemonic's space leave one, does not
    translate. *)
Theorem X13_empty_argument src cmds :
  run (parse_source src) __init__ = Return cmds ->
  Exists (fun ins : instruction => In [] (snd ins)) cmds ->
  exists e, run (assemble src) __init__ = Raise e.
Proof.
  intros Hsrc Hex.
  unfold run in Hsrc. rewrite parse_source_eq in Hsrc. cbn [fst] in Hsrc.
  inversion Hsrc; subst cmds. clear Hsrc.
  assert (Hinv : Exists invalid (instructions src)).
  { eapply Exists_impl; [| exact Hex]. intros [m args] Hin.
    unfold invalid. rewrite encode_eq.
    apply encoding_empty_argument. exact Hin. }
  destruct (first_invalid _ Hinv) as (before & ins & after & E & Hb & (e & He)).
  exists e. rewrite assemble_init, E.
  apply encode_all_first_error; assumption.
Qed.

(** X13 on [STORE 1,,2] and [STORE , 2]. *)
Lemma X13_witness :
  (exists e, run (assemble "STORE 1,,2") __init__ = Raise e) /\
  (exists e, run (assemble "STORE , 2") __init__ = Raise e).
Proof.
  split.
  - apply (X13_empty_argument "STORE 1,,2"
             [("STORE" : str, ["1" : str; "" : str; "2" : str])]).
    + vm_compute. reflexivity.
    + constructor. right. left. reflexivity.
  - apply (X13_empty_argument "STORE , 2"
             [("STORE" : str, ["" : str; "2" : str])]).
    + vm_compute. reflexivity.
    + constructor. left. reflexivity.
Defined.

(** * What [main] writes *)

(** ** Integers in decimal *)

Lemma digit10_chr d :
  0 <= d < 10 ->
  In (digit_chr (Z.to_nat d)) digits10 /\
  digit_val (digit_chr (Z.to_nat d)) = d.
Proof.
  intros H.
  assert (E : d = 0 \/ d = 1 \/ d = 2 \/ d = 3 \/ d = 4 \/ d = 5 \/ d = 6 \/
              d = 7 \/ d = 8 \/ d = 9) by lia.
  repeat (destruct E as [-> | E]; [split; [vm_compute; tauto | reflexivity] |]).
  subst d. split; [vm_compute; tauto | reflexivity].
Qed.

Lemma decimal_digits_spec fuel : forall n acc,
  0 <= n < 2 ^ Z.of_nat fuel ->
  exists ds,
    decimal_digits fuel n acc = ds ++ acc /\
    (fuel <> 0%nat -> ds <> []) /\
    Forall (fun c => In c digits10) ds /\
    number_value 10 ds = n.
Proof.
  induction fuel as [| fuel IH]; intros n acc Hn.
  - exists []. change (2 ^ Z.of_nat 0) with 1 in Hn.
    repeat split; [contradiction | constructor | cbn; lia].
  - rewrite Nat2Z.inj_succ, Z.pow_succ_r in Hn by lia.
    cbn [decimal_digits].
    destruct (digit10_chr (n mod 10)) as (Hin & Hval);
      [apply Z.mod_pos_bound; lia |].
    destruct (Z.eqb_spec (n / 10) 0) as [E | E].
    + exists [digit_chr (Z.to_nat (n mod 10))]. repeat split.
      * discriminate.
      * constructor; [exact Hin | constructor].
      * unfold number_value. cbn [fold_left]. rewrite Hval.
        rewrite (Z.div_mod n 10) at 2 by lia. lia.
    + destruct (IH (n / 10) (digit_chr (Z.to_nat (n mod 10)) :: acc))
        as (ds & Hds & _ & Hall & Hv).
      { split; [apply Z.div_pos; lia |].
        apply Z.div_lt_upper_bound; lia. }
      exists (ds ++ [digit_chr (Z.to_nat (n mod 10))]). repeat split.
      * rewrite Hds, <- app_assoc. reflexivity.
      * intros _. destruct ds; discriminate.
      * apply Forall_app. split; [exact Hall |].
        constructor; [exact Hin | constructor].
      * rewrite number_value_snoc, Hv, Hval.
        rewrite (Z.div_mod n 10) at 3 by lia. lia.
Qed.

Lemma decimal_spec n :
  0 <= n ->
  decimal n <> [] /\ Forall (fun c => In c digits10) (decimal n) /\
  number_value 10 (decimal n) = n.
Proof.
  intros Hn. unfold decimal.
  destruct (decimal_digits_spec (S (Z.to_nat (Z.log2 n))) n [])
    as (ds & -> & Hne & Hall & Hv).
  - split; [exact Hn |].
    rewrite Nat2Z.inj_succ, Z2Nat.id by apply Z.log2_nonneg.
    destruct (Z.eq_dec n 0) as [-> | Hpos]; [reflexivity |].
    apply Z.log2_spec. lia.
  - rewrite app_nil_r. repeat split; auto.
Qed.

Lemma number_value_bound ds :
  Forall (fun c => In c digits10) ds ->
  0 <= number_value 10 ds < 10 ^ Z.of_nat (length ds).
Proof.
  induction ds as [| c ds IH] using rev_ind; intros H.
  - cbn. lia.
  - apply Forall_app in H. destruct H as (Hds & Hc).
    inversion Hc as [| ? ? Hin _]; subst.
    specialize (IH Hds).
    assert (Hd : 0 <= digit_val c < 10).
    { unfold digits10 in Hin. cbn [list_ascii_of_string In] in Hin.
      repeat (destruct Hin as [<- | Hin];
        [vm_compute; split; [discriminate | reflexivity] |]).
      contradiction. }
    rewrite number_value_snoc, length_app. cbn [length].
    rewrite Nat.add_1_r, Nat2Z.inj_succ, Z.pow_succ_r by lia. lia.
Qed.

(** What [str(z)] is when it is defined. *)
Lemma str_of_int_Some z text :
  str_of_int z = Some text ->
  exists ds,
    ds <> [] /\ Forall (fun c => In c digits10) ds /\
    (length ds <= Py.int_max_str_digits)%nat /\
    number_value 10 ds = Z.abs z /\
    text = if z <? 0 then "-"%char :: ds else ds.
Proof.
  unfold str_of_int.
  destruct (Nat.ltb_spec Py.int_max_str_digits (length (decimal (Z.abs z))))
    as [Hlt | Hle]; [discriminate |].
  intros H. inversion H. clear H.
  destruct (decimal_spec (Z.abs z) (Z.abs_nonneg z)) as (Hne & Hall & Hv).
  exists (decimal (Z.abs z)). repeat split; auto.
Qed.

Lemma str_of_int_None z :
  10 ^ Z.of_nat Py.int_max_str_digits <= Z.abs z -> str_of_int z = None.
Proof.
  intros Hbig. unfold str_of_int.
  destruct (Nat.ltb_spec Py.int_max_str_digits (length (decimal (Z.abs z))))
    as [Hlt | Hle]; [reflexivity |].
  destruct (decimal_spec (Z.abs z) (Z.abs_nonneg z)) as (_ & Hall & Hv).
  pose proof (number_value_bound _ Hall) as Hb. rewrite Hv in Hb.
  assert (10 ^ Z.of_nat (length (decimal (Z.abs z))) <=
          10 ^ Z.of_nat Py.int_max_str_digits).
  { apply Z.pow_le_mono_r; lia. }
  lia.
Qed.

(** X14: the decimal text that [main] writes for the value of a field is
    itself an argument that [_parse_number] decodes to that value. *)
Theorem X14_written_value_decodes v text self :
  str_of_int v = Some text ->
  run (_parse_number text) self = Return v.
Proof.
  intros H.
  destruct (str_of_int_Some v text H) as (ds & Hne & Hin & Hlen & Hv & ->).
  pose proof (digits10_digit_of ds Hin) as Hds.
  pose proof (digits_nospace 10 ds Hds) as Hsp.
  destruct (Z.ltb_spec v 0) as [Hneg | Hpos].
  - rewrite parse_number_decimal;
      [| constructor; [reflexivity | exact Hsp] | reflexivity].
    replace v with (- number_value 10 ds) by lia.
    apply run_int_Return, int_of_str_minus; auto.
  - rewrite parse_number_decimal;
      [| exact Hsp | apply (digits_no_prefix 10); auto].
    replace v with (number_value 10 ds) by lia.
    apply run_int_Return, int_of_str_digits; auto.
Qed.

(** X14 on -2024. *)
Lemma X14_witness :
  str_of_int (-2024) = Some ("-2024" : str) /\
  run (_parse_number "-2024") __init__ = Return (-2024).
Proof.
  assert (H : str_of_int (-2024) = Some ("-2024" : str))
    by (vm_compute; reflexivity).
  split; [exact H | exact (X14_written_value_decodes _ _ __init__ H)].
Defined.

(** ** The records as text *)

Lemma repr_chr_no_newline q c :
  q = single_quote \/ q = double_quote -> ~ In newline (repr_chr q c).
Proof.
  intros [-> | ->]; destruct c as [[] [] [] [] [] [] [] []];
    vm_compute; intuition discriminate.
Qed.

Lemma repr_of_str_no_newline s : ~ In newline (repr_of_str s).
Proof.
  unfold repr_of_str.
  set (q := if Py.contains single_quote s && negb (Py.contains double_quote s)
            then double_quote else single_quote).
  assert (Hq : q = single_quote \/ q = double_quote).
  { unfold q. destruct (_ && _); auto. }
  intros [E | H].
  - destruct Hq as [Hq | Hq]; rewrite Hq in E; discriminate E.
  - apply in_app_or in H. destruct H as [H | [E | []]].
    + apply in_flat_map in H. destruct H as (c & _ & H).
      exact (repr_chr_no_newline q c Hq H).
    + destruct Hq as [Hq | Hq]; rewrite Hq in E; discriminate E.
Qed.

Lemma digits10_no_newline ds :
  Forall (fun c => In c digits10) ds -> ~ In newline ds.
Proof.
  intros H Hin. rewrite Forall_forall in H. specialize (H _ Hin).
  vm_compute in H. intuition discriminate.
Qed.

Lemma str_of_int_no_newline z text :
  str_of_int z = Some text -> ~ In newline text.
Proof.
  intros H. destruct (str_of_int_Some z text H) as (ds & _ & Hin & _ & _ & ->).
  pose proof (digits10_no_newline ds Hin) as Hn.
  destruct (z <? 0); [| exact Hn].
  intros [E | H']; [discriminate E | exact (Hn H')].
Qed.

Lemma str_of_items_no_newline d : forall items,
  str_of_items d = Some items -> Forall no_newline items.
Proof.
  induction d as [| [key value] t IH]; intros items H.
  - inversion H. constructor.
  - cbn [str_of_items] in H.
    destruct (str_of_int value) as [text |] eqn:Ev; [| discriminate H].
    destruct (str_of_items t) as [items' |]; [| discriminate H].
    injection H as <-. constructor; [| apply IH; reflexivity].
    apply (no_newline_app (repr_of_str key) (": " ++ text));
      [apply repr_of_str_no_newline |].
    apply (no_newline_app ": " text); [| exact (str_of_int_no_newline _ _ Ev)].
    intros Hin. vm_compute in Hin. intuition discriminate.
Qed.

Lemma str_of_command_no_newline d text :
  str_of_command d = Some text -> no_newline text.
Proof.
  unfold str_of_command.
  destruct (str_of_items d) as [items |] eqn:E; [| discriminate].
  intros H. injection H as <-.
  pose proof (str_of_items_no_newline d items E) as Hitems.
  intros [E' | Hin]; [discriminate E' |].
  apply in_app_or in Hin. destruct Hin as [Hin | Hin].
  - apply join_chars in Hin. destruct Hin as [Hin | (p & Hp & Hc)].
    + vm_compute in Hin. intuition discriminate.
    + rewrite Forall_forall in Hitems. exact (Hitems p Hp Hc).
  - vm_compute in Hin. intuition discriminate.
Qed.

Lemma write_records_spec ir : forall file texts,
  Forall2 (fun record text => str_of_command record = Some text) ir texts ->
  write_records ir file = (true, file ++ lines_of texts).
Proof.
  induction ir as [| r t IH]; intros file texts H; inversion H; subst.
  - cbn. rewrite app_nil_r. reflexivity.
  - cbn [write_records]. rewrite H2. rewrite (IH _ _ H4).
    unfold lines_of. cbn [map concat]. rewrite <- !app_assoc. reflexivity.
Qed.

Lemma write_records_true ir : forall file bytes,
  write_records ir file = (true, bytes) ->
  exists texts,
    Forall2 (fun record text => str_of_command record = Some text) ir texts /\
    bytes = file ++ lines_of texts.
Proof.
  induction ir as [| r t IH]; intros file bytes H.
  - inversion H. exists []. split; [constructor |].
    cbn. rewrite app_nil_r. reflexivity.
  - cbn [write_records] in H.
    destruct (str_of_command r) as [text |] eqn:E; [| discriminate H].
    destruct (IH _ _ H) as (texts & Hall & ->).
    exists (text :: texts). split; [constructor; assumption |].
    unfold lines_of. cbn [map concat]. rewrite <- !app_assoc. reflexivity.
Qed.

Lemma write_records_abort before : forall file texts record after,
  Forall2 (fun r text => str_of_command r = Some text) before texts ->
  str_of_command record = None ->
  write_records (before ++ record :: after) file =
    (false, file ++ lines_of texts).
Proof.
  induction before as [| r t IH]; intros file texts record after H Hr;
    inversion H; subst.
  - cbn [app write_records]. rewrite Hr. cbn. rewrite app_nil_r. reflexivity.
  - cbn [app write_records]. rewrite H2. rewrite (IH _ _ _ _ H4 Hr).
    unfold lines_of. cbn [map concat]. rewrite <- !app_assoc. reflexivity.
Qed.

Lemma split_lines_of texts :
  Forall no_newline texts ->
  Py.split newline (lines_of texts) = texts ++ [[]].
Proof.
  unfold lines_of. induction 1 as [| t r Ht _ IH]; [reflexivity |].
  cbn [map concat app]. rewrite <- app_assoc. cbn [app].
  rewrite split_app by (apply contains_false, Ht). rewrite IH. reflexivity.
Qed.

(** X15: when the loop that writes the records comes to its end, the
    bytes written are the texts [str(command)] of the records, one on
    each line: split at the line breaks they give these texts and an
    empty last piece. *)
Theorem X15_one_line_per_record ir bytes :
  write_records ir [] = (true, bytes) ->
  exists texts,
    Forall2 (fun record text => str_of_command record = Some text) ir texts /\
    Py.split newline bytes = texts ++ [[]].
Proof.
  intros H. destruct (write_records_true ir [] bytes H) as (texts & Hall & ->).
  exists texts. split; [exact Hall |]. cbn [app].
  apply split_lines_of.
  clear H. induction Hall as [| r t ir' texts' Hr _ IH]; constructor;
    [exact (str_of_command_no_newline r t Hr) | exact IH].
Qed.

(** X15 on the records of [STORE 709, 447] and [LOAD_CONST 0x10, -5]. *)
Lemma X15_witness :
  let ir := [[("A" : str, 12); ("B" : str, 709); ("C" : str, 447)];
             [("A" : str, 20); ("B" : str, 16); ("C" : str, -5)]] in
  exists bytes texts,
    write_records ir [] = (true, bytes) /\
    texts = ["{'A': 12, 'B': 709, 'C': 447}" : str;
             "{'A': 20, 'B': 16, 'C': -5}" : str] /\
    Py.split newline bytes = texts ++ [[]].
Proof.
  intros ir.
  destruct (write_records ir []) as [ok bytes] eqn:E.
  assert (Hok : ok = true) by (vm_compute in E; inversion E; reflexivity).
  subst ok.
  destruct (X15_one_line_per_record ir bytes E) as (texts & Hall & Hsplit).
  exists bytes, texts. split; [reflexivity |]. split; [| exact Hsplit].
  inversion Hall as [| ? t1 ? ts1 H1 Hr1]; subst.
  inversion Hr1 as [| ? t2 ? ts2 H2 Hr2]; subst. inversion Hr2; subst.
  vm_compute in H1, H2. inversion H1. inversion H2. reflexivity.
Defined.

Lemma str_of_items_None before key value after :
  str_of_int value = None ->
  str_of_items (before ++ (key, value) :: after) = None.
Proof.
  intros H. induction before as [| [k v] t IH]; cbn [app str_of_items].
  - rewrite H. reflexivity.
  - destruct (str_of_int v); [rewrite IH |]; reflexivity.
Qed.

Lemma parse_number_hex ds self :
  ds <> [] -> Forall (fun c => In c hexdigits) ds ->
  run (_parse_number ("0x" ++ ds)) self = Return (number_value 16 ds).
Proof.
  intros Hne Hin. pose proof (hexdigits_digit_of ds Hin) as Hds.
  change ("0x" ++ ds) with ("0"%char :: "x"%char :: ds).
  rewrite parse_number_hex_prefix by exact (digits_nospace 16 ds Hds).
  apply run_int_Return, int_of_str_digits; auto; discriminate.
Qed.

(** The value of the hexadecimal digits [1] and [n] zeros. *)
Lemma number_value_one_zeros n :
  number_value 16 ("1"%char :: repeat "0"%char n) = 16 ^ Z.of_nat n.
Proof.
  induction n as [| n IH]; [reflexivity |].
  cbn [repeat]. rewrite repeat_cons, app_comm_cons, number_value_snoc, IH.
  rewrite Nat2Z.inj_succ, Z.pow_succ_r by lia.
  change (digit_val "0"%char) with 0. lia.
Qed.

(** [16 ^ 3600] has more decimal digits than [str] converts. *)
Lemma one_zeros_limit :
  10 ^ Z.of_nat Py.int_max_str_digits <=
  number_value 16 ("1"%char :: repeat "0"%char 3600).
Proof.
  rewrite number_value_one_zeros.
  replace (Z.of_nat Py.int_max_str_digits) with (43 * 100) by reflexivity.
  replace (Z.of_nat 3600) with (36 * 100) by reflexivity.
  rewrite !Z.pow_mul_r by discriminate.
  apply Z.pow_le_mono_l. split.
  - apply Z.pow_nonneg. discriminate.
  - apply Z.leb_le. vm_compute. reflexivity.
Qed.

Lemma str_of_int_limit v :
  10 ^ Z.of_nat Py.int_max_str_digits <= v -> str_of_int v = None.
Proof. intros H. apply str_of_int_None. lia. Qed.

Lemma one_zeros_hexdigits n :
  Forall (fun c => In c hexdigits) ("1"%char :: repeat "0"%char n).
Proof.
  constructor; [vm_compute; tauto |].
  apply Forall_forall. intros c Hc. apply repeat_spec in Hc. subst c.
  vm_compute. tauto.
Qed.

(** X16: a hexadecimal operand is accepted whatever its size, but a
    record one of whose values has more than 4300 decimal digits has no
    text: [str(command)] raises for it. *)
Theorem X16_operand_without_text ds self :
  ds <> [] -> Forall (fun c => In c hexdigits) ds ->
  10 ^ Z.of_nat Py.int_max_str_digits <= number_value 16 ds ->
  run (_parse_number ("0x" ++ ds)) self = Return (number_value 16 ds) /\
  (forall before key after,
     str_of_command (before ++ (key, number_value 16 ds) :: after) = None).
Proof.
  intros Hne Hin Hbig. split.
  - apply parse_number_hex; assumption.
  - intros before key after. unfold str_of_command.
    rewrite str_of_items_None; [reflexivity |].
    apply str_of_int_limit. exact Hbig.
Qed.

(** X16 on the operand [0x1] followed by 3600 zeros. *)
Lemma X16_witness :
  let ds : str := "1"%char :: repeat "0"%char 3600 in
  run (_parse_number ("0x" ++ ds)) __init__ = Return (number_value 16 ds) /\
  str_of_command [("A" : str, 12); ("B" : str, number_value 16 ds);
                  ("C" : str, 0)] = None.
Proof.
  intros ds.
  destruct (X16_operand_without_text ds __init__ ltac:(discriminate)
              (one_zeros_hexdigits 3600) one_zeros_limit) as (H1 & H2).
  split; [exact H1 |].
  exact (H2 [("A" : str, 12)] ("B" : str) [("C" : str, 0)]).
Defined.

(** ** [main] *)

Lemma command_lines_app i a b :
  command_lines i (a ++ b) =
  command_lines i a ++ command_lines (length a + i) b.
Proof.
  revert i. induction a as [| t a IH]; intros i; [reflexivity |].
  cbn [app command_lines length]. rewrite IH. f_equal. f_equal. f_equal. lia.
Qed.

Lemma print_commands_spec ir : forall i out texts,
  Forall2 (fun record text => str_of_command record = Some text) ir texts ->
  print_commands i ir out = (true, out ++ command_lines i texts).
Proof.
  induction ir as [| r t IH]; intros i out texts H; inversion H; subst.
  - cbn. rewrite app_nil_r. reflexivity.
  - cbn [print_commands command_lines]. rewrite H2, (IH _ _ _ H4).
    rewrite <- app_assoc. reflexivity.
Qed.

Lemma print_commands_abort before : forall i out texts record after,
  Forall2 (fun r text => str_of_command r = Some text) before texts ->
  str_of_command record = None ->
  print_commands i (before ++ record :: after) out =
    (false, out ++ command_lines i texts).
Proof.
  induction before as [| r t IH]; intros i out texts record after H Hr;
    inversion H; subst.
  - cbn [app print_commands]. rewrite Hr. cbn. rewrite app_nil_r. reflexivity.
  - cbn [app print_commands command_lines]. rewrite H2.
    rewrite (IH _ _ _ _ _ H4 Hr), <- app_assoc. reflexivity.
Qed.

(** X17: when the input cannot be read, or when the source holds an
    instruction that does not encode, [main] prints the error once, does
    not open the output file and exits with status 1, in test mode as
    well. *)
Theorem X17_main_failure args open_output :
  (forall e,
     main args (inl e) open_output =
     {| stdout := [Failure e]; output := None; exit_status := Some 1 |}) /\
  (forall src cmds,
     run (parse_source src) __init__ = Return cmds ->
     Exists invalid cmds ->
     exists e,
       run (assemble src) __init__ = Raise e /\
       main args (inr src) open_output =
       {| stdout := [Failure (Assembling e)]; output := None;
          exit_status := Some 1 |}).
Proof.
  split; [reflexivity |].
  intros src cmds Hsrc Hex.
  unfold run in Hsrc. rewrite parse_source_eq in Hsrc. cbn [fst] in Hsrc.
  inversion Hsrc; subst cmds. clear Hsrc.
  destruct (first_invalid _ Hex) as (before & ins & after & E & Hb & (e & He)).
  assert (Hrun : run (assemble src) __init__ = Raise e).
  { rewrite assemble_init, E. apply encode_all_first_error; assumption. }
  exists e. split; [exact Hrun |]. unfold main. rewrite Hrun. reflexivity.
Qed.

(** X17 on a source whose second line has an unknown mnemonic. *)
Lemma X17_witness :
  let args := {| input_file := "in.asm"; output_file := "out.bin";
                 test := true |} in
  let src := unlines ["STORE 1, 2" : str; "JUMP 3" : str] in
  exists e,
    run (assemble src) __init__ = Raise e /\
    main args (inr src) None =
    {| stdout := [Failure (Assembling e)]; output := None;
       exit_status := Some 1 |}.
Proof.
  intros args src.
  apply (proj2 (X17_main_failure args None) src (instructions src)).
  - unfold run. rewrite parse_source_eq. reflexivity.
  - apply Exists_cons_tl, Exists_cons_hd.
    exists (UnknownMnemonic "JUMP"). vm_compute. reflexivity.
Defined.

(** The line [STORE 0x<ds>, 0] on its own. *)
Lemma hex_operand_line ds :
  ds <> [] -> Forall (fun c => In c hexdigits) ds ->
  encode_all (instructions ("STORE 0x" ++ ds ++ ", 0")) =
  Return [[("A" : str, 12); ("B" : str, number_value 16 ds);
           ("C" : str, 0)]].
Proof.
  intros Hne Hin.
  assert (Harg : Forall (fun c => arg_chr c = true) ds).
  { eapply Forall_impl; [| exact Hin]. apply hexdigit_arg_chr. }
  assert (Hnl : no_newline ("STORE 0x" ++ ds ++ ", 0")).
  { intros H.
    change (In newline ("STORE 0x" ++ ds ++ ", 0")) in H.
    rewrite !in_app_iff in H. destruct H as [H | [H | H]].
    - cbn in H. repeat destruct H as [H | H]; try discriminate H; exact H.
    - rewrite Forall_forall in Harg. apply Harg in H. discriminate H.
    - cbn in H. repeat destruct H as [H | H]; try discriminate H; exact H. }
  rewrite (instructions_line _ Hnl). unfold instruction_of.
  assert (E : parsed ("STORE 0x" ++ ds ++ ", 0") =
              Some (Py.upper "STORE", ["0x" ++ ds; "0" : str])).
  { etransitivity;
      [| apply (parsed_padded "STORE" " "%char [] ("0x" ++ ds) []
                  [(" " : str, "0" : str, [] : str)])].
    - f_equal. cbn. rewrite !app_nil_r. reflexivity.
    - discriminate.
    - repeat constructor.
    - repeat constructor; try discriminate; try assumption. }
  rewrite E. cbn [encode_all]. rewrite encode_eq.
  rewrite (encoding_decoded _ _ 12 2%nat) by reflexivity.
  cbn [decode_all]. unfold decode at 1.
  rewrite (parse_number_hex ds __init__ Hne Hin). reflexivity.
Qed.

(** X18: when a record has no text, its value being too long, [main]
    exits with status 1 after the records before it were dealt with: in
    test mode they are printed and the output file is not opened;
    otherwise the output file is left with the lines of these records
    only. *)
Theorem X18_main_record_without_text args src before texts record after :
  run (assemble src) __init__ = Return (before ++ record :: after) ->
  Forall2 (fun r text => str_of_command r = Some text) before texts ->
  str_of_command record = None ->
  (test args = true ->
   forall open_output,
     main args (inr src) open_output =
     {| stdout := [Header; Rule] ++ command_lines 0 texts ++
                  [Failure IntegerToString];
        output := None; exit_status := Some 1 |}) /\
  (test args = false ->
   main args (inr src) None =
   {| stdout := [Failure IntegerToString];
      output := Some (lines_of texts); exit_status := Some 1 |}).
Proof.
  intros Hrun Hbefore Hrecord. split.
  - intros Htest open_output. unfold main. rewrite Hrun, Htest.
    rewrite (print_commands_abort before 0 [Header; Rule] texts record after
               Hbefore Hrecord).
    cbn [negb]. rewrite <- app_assoc. reflexivity.
  - intros Htest. unfold main. rewrite Hrun, Htest. cbn [negb].
    rewrite (write_records_abort before [] texts record after
               Hbefore Hrecord).
    reflexivity.
Qed.

(** X18 on a source whose second operand line is [0x1] with 3600 zeros. *)
Lemma X18_witness :
  let big : str := "1"%char :: repeat "0"%char 3600 in
  let src := unlines ["STORE 1, 2" : str;
                      ("STORE 0x" : str) ++ big ++ (", 0" : str);
                      "STORE 3, 4" : str] in
  main {| input_file := "in.asm"; output_file := "out.bin"; test := false |}
       (inr src) None =
  {| stdout := [Failure IntegerToString];
     output := Some (lines_of ["{'A': 12, 'B': 1, 'C': 2}" : str]);
     exit_status := Some 1 |}.
Proof.
  intros big src.
  assert (Hne : big <> []) by discriminate.
  pose proof (one_zeros_hexdigits 3600) as Hin.
  pose proof (str_of_int_limit _ one_zeros_limit) as Hint.
  fold big in Hin, Hint.
  clearbody big.
  assert (Hrecord : str_of_command
            [("A" : str, 12); ("B" : str, number_value 16 big);
             ("C" : str, 0)] = None).
  { pose proof (str_of_items_None [("A" : str, 12)] ("B" : str)
                  (number_value 16 big) [("C" : str, 0)] Hint) as E.
    cbn [app] in E. unfold str_of_command. rewrite E. reflexivity. }
  assert (Hrun : run (assemble src) __init__ =
            Return ([[("A" : str, 12); ("B" : str, 1); ("C" : str, 2)]] ++
                    [("A" : str, 12); ("B" : str, number_value 16 big);
                     ("C" : str, 0)] ::
                    [[("A" : str, 12); ("B" : str, 3); ("C" : str, 4)]])).
  { unfold src. rewrite assemble_init, instructions_unlines.
    cbn [flat_map].
    rewrite encode_all_app.
    rewrite (encode_all_app (instructions (("STORE 0x" : str) ++ big ++
                                           (", 0" : str)))).
    rewrite (hex_operand_line big Hne Hin). reflexivity. }
  apply (proj2 (X18_main_record_without_text
                  {| input_file := "in.asm"; output_file := "out.bin";
                     test := false |} src _
                  ["{'A': 12, 'B': 1, 'C': 2}" : str] _ _ Hrun
                  ltac:(repeat constructor) Hrecord)).
  reflexivity.
Defined.

(** X19: when every record has a text and the output file opens, [main]
    leaves in it the lines of the records in their order, prints the
    success message last and does not call [sys.exit]; in test mode it
    prints before that the header, a rule, one numbered line for each
    record, counted from 0, and a rule. *)
Theorem X19_main_success args src records texts :
  run (assemble src) __init__ = Return records ->
  Forall2 (fun r text => str_of_command r = Some text) records texts ->
  main args (inr src) None =
  {| stdout := (if test args
                then [Header; Rule] ++ command_lines 0 texts ++ [Rule]
                else []) ++ [Success (output_file args)];
     output := Some (lines_of texts);
     exit_status := None |}.
Proof.
  intros Hrun Htexts. unfold main. rewrite Hrun.
  rewrite (write_records_spec records [] texts Htexts).
  destruct (test args).
  - rewrite (print_commands_spec records 0 [Header; Rule] texts Htexts).
    cbn [negb app]. rewrite <- app_assoc. reflexivity.
  - reflexivity.
Qed.

(** X19 on a source of two instructions, in test mode. *)
Lemma X19_witness :
  let args := {| input_file := "in.asm"; output_file := "out.bin";
                 test := true |} in
  let src := unlines ["STORE 709, 447" : str; "load_const 0x10, -5" : str] in
  let texts := ["{'A': 12, 'B': 709, 'C': 447}" : str;
                "{'A': 20, 'B': 16, 'C': -5}" : str] in
  main args (inr src) None =
  {| stdout := [Header; Rule; CommandLine 0 "{'A': 12, 'B': 709, 'C': 447}";
                CommandLine 1 "{'A': 20, 'B': 16, 'C': -5}"; Rule;
                Success "out.bin"];
     output := Some (lines_of texts);
     exit_status := None |}.
Proof.
  intros args src texts.
  apply (X19_main_success args src
           [[("A" : str, 12); ("B" : str, 709); ("C" : str, 447)];
            [("A" : str, 20); ("B" : str, 16); ("C" : str, -5)]] texts).
  - vm_compute. reflexivity.
  - repeat constructor.
Defined.
